(** * funding-arb: opportunity scoring, position lifecycle and two-leg execution

    A shallow embedding of the Python sources

      - [models/opportunity_scorer.py] and [config.py]  (module [Scorer]),
      - [monitor.py], base-asset extraction             (module [Monitor]),
      - [backtest.py], the lifecycle replay             (module [Backtest]),
      - [execution/executor.py], the two-leg executor   (module [Executor]),

    together with the properties of the specification that concern them.

    Numbers.  A Python [float] (and a numpy [float64]) is an IEEE-754 binary64
    value; it is modelled by Rocq's primitive [float], whose operations round
    exactly as the hardware does.  Comparisons follow IEEE as Python's do: every
    comparison with a NaN is false. *)

From Stdlib Require Import ZArith Lia List Bool String Ascii Floats Sorted.
From Stdlib Require Uint63.
From Stdlib Require Import QArith Qcanon.
From stdpp Require Import base option list gmap strings pretty.

Set Warnings "-inexact-float".

#[local] Open Scope Z_scope.

(** ** Python floats *)

Module PyFloat.

(** [x > y] and [x >= y]: Python evaluates them as the mirrored [<] and [<=]. *)
Definition gtb (x y : float) : bool := PrimFloat.ltb y x.
Definition geb (x y : float) : bool := PrimFloat.leb y x.

(** [x != x] holds exactly for a NaN. *)
Definition is_nan (x : float) : bool := negb (PrimFloat.eqb x x).

(** [float(z)] for a Python [int] of magnitude below [2^62]: the conversion is
    rounded to nearest, as [of_uint63] is. *)
Definition of_Z (z : Z) : float :=
  if z <? 0 then PrimFloat.opp (PrimFloat.of_uint63 (Uint63.of_Z (- z)))
  else PrimFloat.of_uint63 (Uint63.of_Z z).

(** The order of two floats, read off the specification of the comparisons. *)
Definition cmp (x y : float) : option comparison :=
  SFcompare (Prim2SF x) (Prim2SF y).

Lemma ltb_cmp x y :
  PrimFloat.ltb x y = match cmp x y with Some Lt => true | _ => false end.
Proof. rewrite FloatAxioms.ltb_spec. reflexivity. Qed.

Lemma leb_cmp x y :
  PrimFloat.leb x y = match cmp x y with Some (Lt | Eq) => true | _ => false end.
Proof. rewrite FloatAxioms.leb_spec. reflexivity. Qed.

Lemma eqb_cmp x y :
  PrimFloat.eqb x y = match cmp x y with Some Eq => true | _ => false end.
Proof. rewrite FloatAxioms.eqb_spec. reflexivity. Qed.

Lemma SFcompare_antisym a b :
  SFcompare b a = option_map CompOpp (SFcompare a b).
Proof.
  destruct a as [sa| sa| |sa ma ea], b as [sb| sb| |sb mb eb]; simpl;
    try reflexivity;
    try (destruct sa; reflexivity); try (destruct sb; reflexivity);
    try (destruct sa, sb; reflexivity).
  f_equal.
  rewrite (Z.compare_antisym ea eb).
  change (Pos.compare_cont Eq mb ma) with (Pos.compare mb ma).
  change (Pos.compare_cont Eq ma mb) with (Pos.compare ma mb).
  rewrite (Pos.compare_antisym ma mb).
  destruct sa, sb; simpl; try reflexivity;
    destruct (ea ?= eb); simpl; try reflexivity;
    destruct (Pos.compare ma mb); reflexivity.
Qed.

Lemma cmp_antisym x y : cmp y x = option_map CompOpp (cmp x y).
Proof. apply SFcompare_antisym. Qed.

Lemma SFcompare_Eq_finite sa ma ea sb mb eb :
  SFcompare (S754_finite sa ma ea) (S754_finite sb mb eb) = Some Eq ->
  sa = sb /\ ma = mb /\ ea = eb.
Proof.
  simpl. intros H. injection H as H.
  destruct sa, sb; try discriminate;
    destruct (ea ?= eb) eqn:He; try discriminate;
    apply Z.compare_eq in He; subst eb;
    destruct (Pos.compare_cont Eq ma mb) eqn:Hm; try discriminate;
    apply Pos.compare_eq in Hm; subst; auto.
Qed.

(** Two floats that compare equal to a third compare equal to each other. *)
Lemma SFcompare_Eq_trans a b c :
  SFcompare a c = Some Eq -> SFcompare b c = Some Eq -> SFcompare a b = Some Eq.
Proof.
  intros Ha Hb.
  destruct c as [sc| sc| |sc mc ec].
  - destruct a as [?|?| |? ? ?], b as [?|?| |? ? ?]; simpl in *;
      try discriminate; try reflexivity;
      repeat match goal with s : bool |- _ => destruct s end; discriminate.
  - destruct a as [?|sa| |? ? ?], b as [?|sb| |? ? ?]; simpl in *;
      try discriminate;
      repeat match goal with s : bool |- _ => destruct s end;
      try discriminate; reflexivity.
  - destruct a; discriminate.
  - destruct a as [?|sa| |sa ma ea]; try (simpl in Ha; destruct sa; discriminate);
      try (simpl in Ha; destruct sc; discriminate); try discriminate.
    destruct b as [?|sb| |sb mb eb]; try (simpl in Hb; destruct sb; discriminate);
      try (simpl in Hb; destruct sc; discriminate); try discriminate.
    apply SFcompare_Eq_finite in Ha as (-> & -> & ->).
    apply SFcompare_Eq_finite in Hb as (-> & -> & ->).
    simpl. rewrite Z.compare_refl, Pos.compare_cont_refl.
    destruct sc; reflexivity.
Qed.

(** [x < y] excludes [x >= y]. *)
Lemma ltb_geb_false x y : PrimFloat.ltb x y = true -> geb x y = false.
Proof.
  unfold geb. rewrite ltb_cmp, leb_cmp, (cmp_antisym x y).
  destruct (cmp x y) as [[]|]; simpl; congruence.
Qed.

(** [x < y] gives [y >= x]. *)
Lemma ltb_geb_flip x y : PrimFloat.ltb x y = true -> geb y x = true.
Proof.
  unfold geb. rewrite ltb_cmp, leb_cmp.
  destruct (cmp x y) as [[]|]; simpl; congruence.
Qed.

(** A float that takes part in a true [<=] is no NaN. *)
Lemma leb_cmp_some x y : PrimFloat.leb x y = true -> exists c, cmp x y = Some c.
Proof. rewrite leb_cmp. destruct (cmp x y); eauto; discriminate. Qed.

Lemma SFcompare_refl a : a <> S754_nan -> SFcompare a a = Some Eq.
Proof.
  destruct a as [sa|sa| |sa ma ea]; simpl; intros Hn;
    try congruence; try (destruct sa; reflexivity).
  rewrite Z.compare_refl, Pos.compare_cont_refl. destruct sa; reflexivity.
Qed.

Lemma cmp_some_refl_r x y c : cmp x y = Some c -> cmp y y = Some Eq.
Proof.
  unfold cmp. intros H. apply SFcompare_refl. intros Hy. rewrite Hy in H.
  destruct (Prim2SF x); discriminate.
Qed.

Lemma leb_not_nan_r x y : PrimFloat.leb x y = true -> is_nan y = false.
Proof.
  intros H. apply leb_cmp_some in H as [c Hc].
  unfold is_nan. rewrite eqb_cmp, (cmp_some_refl_r _ _ _ Hc). reflexivity.
Qed.

(** Among floats that are no NaN the order is total. *)
Lemma cmp_total x y : is_nan x = false -> is_nan y = false -> exists c, cmp x y = Some c.
Proof.
  unfold is_nan. rewrite !eqb_cmp. unfold cmp.
  destruct (Prim2SF x) as [?|?| |? ? ?], (Prim2SF y) as [?|?| |? ? ?];
    simpl; intros; try discriminate; eauto.
Qed.

Lemma not_ltb_geb x y :
  is_nan x = false -> is_nan y = false -> PrimFloat.ltb x y = false -> geb x y = true.
Proof.
  intros Hx Hy. destruct (cmp_total x y Hx Hy) as [c Hc].
  unfold geb. rewrite ltb_cmp, leb_cmp, (cmp_antisym x y), Hc.
  destruct c; simpl; congruence.
Qed.

(** Floats that are equal ([==]) to the same float are not ordered by [<]. *)
Lemma eqb_eqb_not_ltb x y k :
  PrimFloat.eqb x k = true -> PrimFloat.eqb y k = true -> PrimFloat.ltb x y = false.
Proof.
  rewrite !eqb_cmp, ltb_cmp. unfold cmp. intros Hx Hy.
  rewrite (SFcompare_Eq_trans (Prim2SF x) (Prim2SF y) (Prim2SF k)).
  - reflexivity.
  - destruct (SFcompare (Prim2SF x) (Prim2SF k)) as [[]|]; congruence.
  - destruct (SFcompare (Prim2SF y) (Prim2SF k)) as [[]|]; congruence.
Qed.

(** [>=] is transitive. *)
Lemma SFcompare_ge_trans a b c c1 c2 :
  SFcompare a b = Some c1 -> c1 <> Lt ->
  SFcompare b c = Some c2 -> c2 <> Lt ->
  exists c3, SFcompare a c = Some c3 /\ c3 <> Lt.
Proof.
  intros H1 N1 H2 N2.
  destruct a as [sa|sa| |sa ma ea], b as [sb|sb| |sb mb eb], c as [sc|sc| |sc mc ec];
    simpl in *; try discriminate;
    repeat match goal with s : bool |- _ => destruct s end; simpl in *;
    change (Pos.compare_cont Eq) with Pos.compare in *;
    repeat match goal with
           | H : Some _ = Some _ |- _ => injection H as H
           end; subst;
    try congruence;
    try (eexists; split; [reflexivity|]; congruence);
    repeat match goal with
           | H : context [(?x ?= ?y)%Z] |- _ => destruct (Z.compare_spec x y); subst
           | H : context [(?x ?= ?y)%positive] |- _ => destruct (Pos.compare_spec x y); subst
           end;
    simpl in *; try congruence;
    (eexists; split; [reflexivity|]);
    repeat match goal with
           | |- context [(?x ?= ?y)%Z] => destruct (Z.compare_spec x y); subst
           | |- context [(?x ?= ?y)%positive] => destruct (Pos.compare_spec x y); subst
           end; simpl; try congruence; try lia.
Qed.

Lemma geb_cmp x y :
  geb x y = true <-> exists c, cmp x y = Some c /\ c <> Lt.
Proof.
  unfold geb. rewrite leb_cmp, (cmp_antisym x y).
  destruct (cmp x y) as [[]|]; simpl; split;
    try discriminate; try (intros _; eexists; split; [reflexivity|discriminate]);
    try reflexivity.
  - intros (c & Hc & Hn). congruence.
  - intros (c & Hc & _). discriminate.
Qed.

Lemma geb_trans x y z : geb x y = true -> geb y z = true -> geb x z = true.
Proof.
  rewrite !geb_cmp. intros (c1 & H1 & N1) (c2 & H2 & N2).
  exact (SFcompare_ge_trans _ _ _ c1 c2 H1 N1 H2 N2).
Qed.

(** [x >= y] and [y >= x] together are [x == y]. *)
Lemma geb_antisym_eqb x y : geb x y = true -> geb y x = true -> PrimFloat.eqb x y = true.
Proof.
  unfold geb. rewrite !leb_cmp, eqb_cmp, (cmp_antisym x y).
  destruct (cmp x y) as [[]|]; simpl; congruence.
Qed.

Lemma eqb_refl x : is_nan x = false -> PrimFloat.eqb x x = true.
Proof. unfold is_nan. destruct (PrimFloat.eqb x x); [reflexivity|discriminate]. Qed.

Lemma eqb_sym x y : PrimFloat.eqb x y = PrimFloat.eqb y x.
Proof.
  rewrite !eqb_cmp, (cmp_antisym x y). destruct (cmp x y) as [[]|]; reflexivity.
Qed.

(** Multiplication commutes, rounding included. *)
Lemma SFmul_comm prec emax a b : SFmul prec emax a b = SFmul prec emax b a.
Proof.
  destruct a as [sa| sa| |sa ma ea], b as [sb| sb| |sb mb eb]; simpl;
    rewrite ?(xorb_comm sa sb); try reflexivity.
  rewrite (Pos.mul_comm ma mb), (Z.add_comm ea eb). reflexivity.
Qed.

Lemma mul_comm (x y : float) : PrimFloat.mul x y = PrimFloat.mul y x.
Proof.
  apply Prim2SF_inj. rewrite !mul_spec. apply SFmul_comm.
Qed.

End PyFloat.

(** ** Python strings

    The symbols handled here are ASCII, so a [str] is modelled by [string]: the
    suffix tests and slices below never cut inside a character. *)

Module PyStr.

(** [s.endswith(suffix)] *)
Definition endswith (s suffix : string) : bool :=
  bool_decide (list_ascii_of_string suffix `suffix_of` list_ascii_of_string s).

(** [s[:-n]] for a length [n]: the slice ends [n] characters before the end
    of [s] (and is empty when [n] is 0 or exceeds the length of [s]). *)
Definition drop_last (n : nat) (s : string) : string :=
  match n with
  | O => EmptyString
  | _ => string_of_list_ascii (take (String.length s - n)%nat (list_ascii_of_string s))
  end.

(** [(a1, a2) <= (b1, b2)] on tuples of strings. *)
Definition pair_leb (a b : string * string) : bool :=
  match String.compare (fst a) (fst b) with
  | Lt => true
  | Gt => false
  | Eq => String.leb (snd a) (snd b)
  end.

Lemma endswith_true s x :
  endswith s x = true ->
  exists p, list_ascii_of_string s = p ++ list_ascii_of_string x.
Proof. unfold endswith. intros H. apply bool_decide_eq_true in H. exact H. Qed.

Lemma endswith_false s x :
  (forall p, list_ascii_of_string s <> p ++ list_ascii_of_string x) ->
  endswith s x = false.
Proof.
  intros H. unfold endswith. apply bool_decide_eq_false.
  intros [p Hp]. exact (H p Hp).
Qed.

(** Two suffixes of one string agree from the right. *)
Lemma suffixes_rev_agree (p q x y : list ascii) :
  p ++ x = q ++ y -> rev x ++ rev p = rev y ++ rev q.
Proof. intros H. rewrite <- !rev_app_distr, H. reflexivity. Qed.

Lemma drop_last_app p x :
  (0 < String.length x)%nat ->
  drop_last (String.length x) (string_of_list_ascii (p ++ list_ascii_of_string x))
  = string_of_list_ascii p.
Proof.
  intros Hx. unfold drop_last.
  destruct (String.length x) as [|n] eqn:Hn; [lia|].
  rewrite list_ascii_of_string_of_list_ascii.
  f_equal.
  assert (Hl : forall t, String.length t = List.length (list_ascii_of_string t)).
  { induction t as [|c t IH]; simpl; [reflexivity | rewrite IH; reflexivity]. }
  rewrite Hl, list_ascii_of_string_of_list_ascii, length_app, <- Hl, Hn.
  replace (List.length p + S n - S n)%nat with (List.length p) by lia.
  rewrite take_app_length. reflexivity.
Qed.

End PyStr.

(** ** [monitor.py]: base-asset extraction of the monitoring daemon *)

Module Monitor.

Fixpoint strip_loop (symbol : string) (l : list string) : string :=
  match l with
  | [] => symbol
  | suffix :: rest =>
      if PyStr.endswith symbol suffix
      then PyStr.drop_last (String.length suffix) symbol
      else strip_loop symbol rest
  end.

(** [extract_base] *)
Definition extract_base (symbol : string) : string :=
  strip_loop symbol [ "USDT"; "USD"; "PERP"; "-USDT-SWAP"; "-USD-SWAP" ]%string.

End Monitor.

(** ** [config.py]: the immutable configuration *)

Module Config.

Record TradingConfig := {
  min_net_yield_pct : float;
  min_funding_rate : float;
  max_position_usd : float;
  total_capital_usd : float;
  max_positions : Z;
  liq_buffer_pct : float;
  exit_funding_threshold : float;
  max_hold_hours : Z;
  stop_loss_pct : float;
}.

Record CostModel := {
  binance_maker : float;
  binance_taker : float;
  bybit_maker : float;
  bybit_taker : float;
  hyperliquid_maker : float;
  hyperliquid_taker : float;
  okx_maker : float;
  okx_taker : float;
  slippage_estimate : float;
  default_borrow_apr : float;
}.

(** [Config]; the per-exchange credentials ([exchanges]) take no part in the
    scoring and are left out. *)
Record Config := {
  trading : TradingConfig;
  costs : CostModel;
  symbol_whitelist : list string;
}.

Definition default_trading : TradingConfig := {|
  min_net_yield_pct := 50.0;
  min_funding_rate := -0.0015;
  max_position_usd := 1000.0;
  total_capital_usd := 10000.0;
  max_positions := 5;
  liq_buffer_pct := 50.0;
  exit_funding_threshold := -0.0001;
  max_hold_hours := 72;
  stop_loss_pct := 2.0;
|}.

Definition default_costs : CostModel := {|
  binance_maker := 0.0002;
  binance_taker := 0.0004;
  bybit_maker := 0.0002;
  bybit_taker := 0.00055;
  hyperliquid_maker := 0.0002;
  hyperliquid_taker := 0.0005;
  okx_maker := 0.0002;
  okx_taker := 0.0005;
  slippage_estimate := 0.0005;
  default_borrow_apr := 0.30;
|}.

Definition default_whitelist : list string :=
  [ "BTC"; "ETH"; "SOL"; "DOGE"; "XRP"; "ADA"; "AVAX"; "LINK";
    "DOT"; "MATIC"; "UNI"; "ATOM"; "LTC"; "BCH"; "APT"; "ARB";
    "OP"; "INJ"; "SUI"; "SEI"; "TIA"; "JUP"; "PYTH"; "JTO";
    "WIF"; "BONK"; "PEPE"; "SHIB"; "FIL"; "NEAR"; "RENDER" ]%string.

(** [load_config()]: the defaults (the environment only fills credentials). *)
Definition load_config : Config := {|
  trading := default_trading;
  costs := default_costs;
  symbol_whitelist := default_whitelist;
|}.

End Config.

(** ** [models/opportunity_scorer.py] *)

Module Scorer.
Import Config.
#[local] Open Scope float_scope.

Record Opportunity := {
  exchange : string;
  symbol : string;
  base_asset : string;
  funding_rate : float;
  funding_annualized : float;
  entry_cost : float;
  exit_cost : float;
  slippage_cost : float;
  borrow_cost_8h : float;
  net_yield_8h : float;
  net_yield_annualized : float;
  liquidity_score : float;
  timestamp : string;
}.

(** One funding-rate observation, the dict
    [{"exchange": str, "symbol": str, "rate": float, ...}]. *)
Record RateData := {
  rd_exchange : string;
  rd_symbol : string;
  rd_rate : float;
}.

(** [OpportunityScorer.get_fees]: the pair [(maker, taker)]. *)
Definition fee_map (costs : CostModel) : gmap string (float * float) :=
  list_to_map
    [ ("binance", (binance_maker costs, binance_taker costs));
      ("bybit", (bybit_maker costs, bybit_taker costs));
      ("hyperliquid", (hyperliquid_maker costs, hyperliquid_taker costs));
      ("okx", (okx_maker costs, okx_taker costs)) ]%string.

Definition get_fees (costs : CostModel) (exchange : string) : float * float :=
  default (0.0005, 0.0005) (fee_map costs !! exchange).

Definition suffixes : list string :=
  [ "USDT"; "USD"; "PERP"; "-USDT-SWAP"; "-USD-SWAP" ]%string.

(** The loop of [extract_base_asset]: the first suffix that [symbol] ends with
    is cut off. *)
Fixpoint strip_first (symbol : string) (l : list string) : string :=
  match l with
  | [] => symbol
  | suffix :: rest =>
      if PyStr.endswith symbol suffix
      then PyStr.drop_last (String.length suffix) symbol
      else strip_first symbol rest
  end.

(** [OpportunityScorer.extract_base_asset] *)
Definition extract_base_asset (symbol : string) : string :=
  strip_first symbol suffixes.

(** [OpportunityScorer.is_whitelisted] *)
Definition is_whitelisted (cfg : Config) (symbol : string) : bool :=
  bool_decide (extract_base_asset symbol ∈ symbol_whitelist cfg).

Definition major_assets : gset string :=
  {[ "BTC"; "ETH"; "SOL"; "XRP"; "DOGE" ]}%string.

(** [OpportunityScorer.calculate_opportunity].  [now] is the reading of
    [datetime.utcnow().isoformat()]. *)
Definition calculate_opportunity (cfg : Config) (now : string) (rate_data : RateData)
  : option Opportunity :=
  let exchange := rd_exchange rate_data in
  let symbol := rd_symbol rate_data in
  let funding_rate := rd_rate rate_data in
  if PyFloat.geb funding_rate 0 then None
  else if negb (is_whitelisted cfg symbol) then None
  else if PyFloat.gtb funding_rate (min_funding_rate (trading cfg)) then None
  else
    let base_asset := extract_base_asset symbol in
    let '(maker_fee, taker_fee) := get_fees (costs cfg) exchange in
    let entry_cost := 2 * taker_fee in
    let exit_cost := 2 * maker_fee in
    let slippage_cost := slippage_estimate (costs cfg) * 2 in
    let borrow_cost_8h := default_borrow_apr (costs cfg) / PyFloat.of_Z (3 * 365) in
    let funding_received := - funding_rate in
    let periods := 3 in
    let amortized_entry_exit := (entry_cost + exit_cost + slippage_cost) / periods in
    let net_yield_8h := funding_received - borrow_cost_8h - amortized_entry_exit in
    let net_yield_annualized := net_yield_8h * 3 * 365 * 100 in
    let liquidity_score :=
      if bool_decide (base_asset ∈ major_assets) then 0.9 else 0.5 in
    Some {|
      exchange := exchange;
      symbol := symbol;
      base_asset := base_asset;
      funding_rate := funding_rate;
      funding_annualized := funding_rate * 3 * 365 * 100;
      entry_cost := entry_cost;
      exit_cost := exit_cost;
      slippage_cost := slippage_cost;
      borrow_cost_8h := borrow_cost_8h;
      net_yield_8h := net_yield_8h;
      net_yield_annualized := net_yield_annualized;
      liquidity_score := liquidity_score;
      timestamp := now;
    |}.

(** The loop of [score_all]: the opportunities that are kept, in the order of
    the input.  [clock i] is the time read while the [i]-th rate is scored. *)
Fixpoint collect (cfg : Config) (clock : nat -> string) (i : nat) (rates : list RateData)
  : list Opportunity :=
  match rates with
  | [] => []
  | rate :: rest =>
      match calculate_opportunity cfg (clock i) rate with
      | Some opp =>
          if PyFloat.geb (net_yield_annualized opp) (min_net_yield_pct (trading cfg))
          then opp :: collect cfg clock (S i) rest
          else collect cfg clock (S i) rest
      | None => collect cfg clock (S i) rest
      end
  end.

(** [list.sort(key=lambda x: x.net_yield_annualized, reverse=True)].  Python's
    sort is stable, also under [reverse=True], and compares keys with [<]
    only: an element moves behind a later one only when its key is smaller.
    On keys that [<] orders totally (no NaN) this arrangement is unique
    ([stable_sorted_unique] below), and insertion from the right computes
    it. *)
Fixpoint insert_desc (x : Opportunity) (l : list Opportunity) : list Opportunity :=
  match l with
  | [] => [x]
  | y :: rest =>
      if PrimFloat.ltb (net_yield_annualized x) (net_yield_annualized y)
      then y :: insert_desc x rest
      else x :: y :: rest
  end.

Definition sort_desc (l : list Opportunity) : list Opportunity :=
  foldr insert_desc [] l.

(** [OpportunityScorer.score_all] *)
Definition score_all (cfg : Config) (clock : nat -> string) (rates : list RateData)
  : list Opportunity :=
  sort_desc (collect cfg clock 0 rates).

(** The ranking the specification words: descending net yield, ties by
    descending liquidity score, then ascending [(exchange, symbol)]. *)
Definition spec_ranked_before (a b : Opportunity) : bool :=
  PrimFloat.ltb (net_yield_annualized b) (net_yield_annualized a)
  || (PrimFloat.eqb (net_yield_annualized a) (net_yield_annualized b)
      && (PrimFloat.ltb (liquidity_score b) (liquidity_score a)
          || (PrimFloat.eqb (liquidity_score a) (liquidity_score b)
              && PyStr.pair_leb (exchange a, symbol a) (exchange b, symbol b)))).

Fixpoint spec_ranked (l : list Opportunity) : bool :=
  match l with
  | a :: (b :: _) as rest => spec_ranked_before a b && spec_ranked rest
  | _ => true
  end.

(** Descending by net yield alone. *)
Definition yield_geb (a b : Opportunity) : Prop :=
  PyFloat.geb (net_yield_annualized a) (net_yield_annualized b) = true.

(** The opportunities of a list whose net yield equals ([==]) [k]. *)
Definition with_yield (k : float) (l : list Opportunity) : list Opportunity :=
  List.filter (fun o => PrimFloat.eqb (net_yield_annualized o) k) l.

(** The net yield is a number (no NaN). *)
Definition yield_ok (o : Opportunity) : Prop :=
  PyFloat.is_nan (net_yield_annualized o) = false.

(** Two sample observations on one exchange at one rate. *)
Definition ada_binance : RateData :=
  {| rd_exchange := "binance"; rd_symbol := "ADAUSDT"; rd_rate := -0.002 |}.
Definition btc_binance : RateData :=
  {| rd_exchange := "binance"; rd_symbol := "BTCUSDT"; rd_rate := -0.002 |}.

(** *** Base-asset extraction *)

Lemma strip_first_first_match symbol pre x post :
  (forall y, y ∈ pre -> PyStr.endswith symbol y = false) ->
  PyStr.endswith symbol x = true ->
  strip_first symbol (pre ++ x :: post) = PyStr.drop_last (String.length x) symbol.
Proof.
  intros Hpre Hx. induction pre as [|y pre IH]; simpl.
  - rewrite Hx. reflexivity.
  - rewrite (Hpre y) by apply list_elem_of_here.
    apply IH. intros z Hz. apply Hpre. apply list_elem_of_further. exact Hz.
Qed.

(** Two different suffixes of the list never end the same symbol. *)
Ltac suffix_clash H :=
  apply PyStr.endswith_false; intros q Hq; rewrite H in Hq;
  apply PyStr.suffixes_rev_agree in Hq; simpl in Hq; discriminate Hq.

Lemma suffixes_exclusive symbol x y :
  x ∈ suffixes -> y ∈ suffixes -> x <> y ->
  PyStr.endswith symbol x = true -> PyStr.endswith symbol y = false.
Proof.
  intros Hx Hy Hne Hs. apply PyStr.endswith_true in Hs as [p Hp].
  unfold suffixes in Hx, Hy.
  rewrite !elem_of_cons, elem_of_nil in Hx, Hy.
  destruct Hx as [->|[->|[->|[->|[->|[]]]]]];
    destruct Hy as [->|[->|[->|[->|[->|[]]]]]];
    try congruence; suffix_clash Hp.
Qed.

Lemma extract_base_asset_any_match symbol x :
  x ∈ suffixes -> PyStr.endswith symbol x = true ->
  extract_base_asset symbol = PyStr.drop_last (String.length x) symbol.
Proof.
  intros Hx Hs. unfold extract_base_asset.
  apply list_elem_of_split in Hx as (pre & post & Heq). rewrite Heq.
  apply strip_first_first_match; [|exact Hs].
  intros y Hy. apply (suffixes_exclusive symbol x y); [| | |exact Hs].
  - rewrite Heq. apply elem_of_app. right. apply list_elem_of_here.
  - rewrite Heq. apply elem_of_app. left. exact Hy.
  - intros ->.
    assert (Hnd : NoDup suffixes) by (apply (bool_decide_unpack _); vm_compute; exact I).
    rewrite Heq in Hnd. apply NoDup_app in Hnd as (_ & Hd & _).
    apply (Hd y Hy). apply list_elem_of_here.
Qed.

Lemma extract_base_same symbol : Monitor.extract_base symbol = extract_base_asset symbol.
Proof. reflexivity. Qed.

(** C8.  Base-asset extraction cuts the first suffix of the ordered list
    USDT, USD, PERP, -USDT-SWAP, -USD-SWAP that the symbol ends with.  No two
    suffixes of the list end the same symbol, so whichever suffix matches is
    the one cut: a longer suffix is never pre-empted by a shorter one.  In
    particular "BTC-USDT-SWAP" yields "BTC" and not "BTC-USDT".  The daemon's
    [extract_base] computes the same function. *)
Theorem extract_base_asset_first_suffix :
  suffixes = [ "USDT"; "USD"; "PERP"; "-USDT-SWAP"; "-USD-SWAP" ]%string
  /\ (forall symbol pre x post,
        suffixes = pre ++ x :: post ->
        (forall y, y ∈ pre -> PyStr.endswith symbol y = false) ->
        PyStr.endswith symbol x = true ->
        extract_base_asset symbol = PyStr.drop_last (String.length x) symbol)
  /\ (forall symbol x y,
        x ∈ suffixes -> y ∈ suffixes ->
        PyStr.endswith symbol x = true -> PyStr.endswith symbol y = true ->
        (String.length y < String.length x)%nat ->
        extract_base_asset symbol = PyStr.drop_last (String.length x) symbol)
  /\ (forall symbol, (forall y, y ∈ suffixes -> PyStr.endswith symbol y = false) ->
        extract_base_asset symbol = symbol)
  /\ extract_base_asset "BTC-USDT-SWAP" = "BTC"%string
  /\ extract_base_asset "BTC-USDT-SWAP" <> "BTC-USDT"%string
  /\ (forall symbol, Monitor.extract_base symbol = extract_base_asset symbol).
Proof.
  split; [reflexivity|].
  split.
  { intros symbol pre x post Heq Hpre Hx. unfold extract_base_asset.
    rewrite Heq. apply strip_first_first_match; assumption. }
  split.
  { intros symbol x y Hx _ Hsx _ _. apply extract_base_asset_any_match; assumption. }
  split.
  { intros symbol Hnone. unfold extract_base_asset, suffixes. simpl.
    rewrite !Hnone; [reflexivity| | | | |];
      unfold suffixes; rewrite !elem_of_cons; auto 10. }
  split; [vm_compute; reflexivity|].
  split; [vm_compute; discriminate|].
  exact extract_base_same.
Qed.

Lemma extract_base_asset_first_suffix_witness :
  extract_base_asset "BTC-USDT-SWAP" = PyStr.drop_last 10 "BTC-USDT-SWAP"
  /\ extract_base_asset "SOLUSDT" = "SOL"%string.
Proof.
  destruct extract_base_asset_first_suffix as (_ & Hfirst & _ & _ & _ & _ & _).
  split.
  - apply (Hfirst "BTC-USDT-SWAP"%string [ "USDT"; "USD"; "PERP" ]%string
             "-USDT-SWAP"%string [ "-USD-SWAP"%string ]).
    + reflexivity.
    + intros y Hy. rewrite !elem_of_cons, elem_of_nil in Hy.
      destruct Hy as [->|[->|[->|[]]]]; vm_compute; reflexivity.
    + vm_compute; reflexivity.
  - rewrite (Hfirst "SOLUSDT"%string [] "USDT"%string
               [ "USD"; "PERP"; "-USDT-SWAP"; "-USD-SWAP" ]%string).
    + vm_compute; reflexivity.
    + reflexivity.
    + intros y Hy. apply elem_of_nil in Hy. contradiction.
    + vm_compute; reflexivity.
Defined.

(** *** The cost-adjusted yield *)

Lemma periods_per_year : PyFloat.of_Z (3 * 365) = 3 * 365.
Proof. vm_compute. reflexivity. Qed.

Lemma calculate_opportunity_passes cfg now rd :
  PrimFloat.ltb (rd_rate rd) 0 = true ->
  is_whitelisted cfg (rd_symbol rd) = true ->
  PyFloat.gtb (rd_rate rd) (min_funding_rate (trading cfg)) = false ->
  calculate_opportunity cfg now rd =
    let fees := get_fees (costs cfg) (rd_exchange rd) in
    let base := extract_base_asset (rd_symbol rd) in
    let net :=
      - rd_rate rd - default_borrow_apr (costs cfg) / PyFloat.of_Z (3 * 365)
      - (2 * snd fees + 2 * fst fees + slippage_estimate (costs cfg) * 2) / 3 in
    Some {|
      exchange := rd_exchange rd;
      symbol := rd_symbol rd;
      base_asset := base;
      funding_rate := rd_rate rd;
      funding_annualized := rd_rate rd * 3 * 365 * 100;
      entry_cost := 2 * snd fees;
      exit_cost := 2 * fst fees;
      slippage_cost := slippage_estimate (costs cfg) * 2;
      borrow_cost_8h := default_borrow_apr (costs cfg) / PyFloat.of_Z (3 * 365);
      net_yield_8h := net;
      net_yield_annualized := net * 3 * 365 * 100;
      liquidity_score := if bool_decide (base ∈ major_assets) then 0.9 else 0.5;
      timestamp := now;
    |}.
Proof.
  intros Hneg Hwl Hmin. unfold calculate_opportunity.
  rewrite (PyFloat.ltb_geb_false _ _ Hneg), Hwl, Hmin. simpl.
  destruct (get_fees (costs cfg) (rd_exchange rd)) as [maker_fee taker_fee].
  reflexivity.
Qed.

(** C3.  For an observation with rate [r < 0] that passes the whitelist and
    the minimum-funding-rate filter, [calculate_opportunity] returns an
    opportunity whose costs and yields are given by the stated formulas, with
    the fees those of the observation's exchange.  Its annualized net yield
    is therefore determined by the rate, the exchange's entry in the cost
    model and the fixed hold of 3 periods: two calls that agree on them
    return the same net yield, whatever the symbol, the thresholds, the
    whitelist and the clock. *)
Theorem calculate_opportunity_net_yield cfg now rd :
  PrimFloat.ltb (rd_rate rd) 0 = true ->
  is_whitelisted cfg (rd_symbol rd) = true ->
  PyFloat.gtb (rd_rate rd) (min_funding_rate (trading cfg)) = false ->
  exists opp,
    calculate_opportunity cfg now rd = Some opp
    /\ (let r := rd_rate rd in
        let maker_fee := fst (get_fees (costs cfg) (rd_exchange rd)) in
        let taker_fee := snd (get_fees (costs cfg) (rd_exchange rd)) in
        entry_cost opp = 2 * taker_fee
        /\ exit_cost opp = 2 * maker_fee
        /\ slippage_cost opp = 2 * slippage_estimate (costs cfg)
        /\ borrow_cost_8h opp = default_borrow_apr (costs cfg) / (3 * 365)
        /\ net_yield_8h opp =
             (- r) - borrow_cost_8h opp
             - (entry_cost opp + exit_cost opp + slippage_cost opp) / 3
        /\ net_yield_annualized opp = net_yield_8h opp * 3 * 365 * 100)
    /\ (forall cfg' now' rd' opp',
          costs cfg' = costs cfg ->
          rd_exchange rd' = rd_exchange rd ->
          rd_rate rd' = rd_rate rd ->
          calculate_opportunity cfg' now' rd' = Some opp' ->
          net_yield_annualized opp' = net_yield_annualized opp).
Proof.
  intros Hneg Hwl Hmin.
  rewrite (calculate_opportunity_passes cfg now rd Hneg Hwl Hmin).
  eexists. split; [reflexivity|]. cbn -[PyFloat.of_Z Z.mul].
  split.
  { rewrite periods_per_year.
    repeat split; try reflexivity. apply PyFloat.mul_comm. }
  intros cfg' now' rd' opp' Hc He Hr Hopp.
  unfold calculate_opportunity in Hopp.
  rewrite Hc, He, Hr in Hopp.
  destruct (PyFloat.geb (rd_rate rd) 0); [discriminate|].
  destruct (negb (is_whitelisted cfg' (rd_symbol rd'))); [discriminate|].
  destruct (PyFloat.gtb (rd_rate rd) (min_funding_rate (trading cfg'))); [discriminate|].
  destruct (get_fees (costs cfg) (rd_exchange rd)) as [maker_fee taker_fee].
  injection Hopp as <-. reflexivity.
Qed.

Lemma calculate_opportunity_net_yield_witness :
  exists opp,
    calculate_opportunity load_config "2026-01-01T00:00:00"
      {| rd_exchange := "binance"; rd_symbol := "BTCUSDT"; rd_rate := -0.002 |}
    = Some opp
    /\ net_yield_annualized opp = 108.7.
Proof.
  destruct (calculate_opportunity_net_yield load_config "2026-01-01T00:00:00"
              {| rd_exchange := "binance"; rd_symbol := "BTCUSDT"; rd_rate := -0.002 |})
    as (opp & Hopp & _ & Hdet).
  - vm_compute; reflexivity.
  - vm_compute; reflexivity.
  - vm_compute; reflexivity.
  - exists opp. split; [exact Hopp|].
    vm_compute in Hopp. injection Hopp as <-. reflexivity.
Defined.

(** *** Ranking *)

(** Only opportunities whose yield reaches the minimum are kept; their yield
    is therefore a number. *)
Lemma collect_yield_ok cfg clock i rates : Forall yield_ok (collect cfg clock i rates).
Proof.
  revert i. induction rates as [|rate rest IH]; intros i; simpl.
  - constructor.
  - destruct (calculate_opportunity cfg (clock i) rate) as [opp|]; [|apply IH].
    destruct (PyFloat.geb (net_yield_annualized opp) (min_net_yield_pct (trading cfg)))
      eqn:Hge; [|apply IH].
    constructor; [|apply IH].
    unfold yield_ok. apply (PyFloat.leb_not_nan_r _ _ Hge).
Qed.

Lemma insert_desc_perm x l : insert_desc x l ≡ₚ x :: l.
Proof.
  induction l as [|y rest IH]; simpl; [reflexivity|].
  destruct (PrimFloat.ltb (net_yield_annualized x) (net_yield_annualized y)).
  - rewrite IH. apply Permutation_swap.
  - reflexivity.
Qed.

Lemma sort_desc_perm l : sort_desc l ≡ₚ l.
Proof.
  induction l as [|x l IH]; simpl; [reflexivity|].
  rewrite insert_desc_perm. rewrite IH. reflexivity.
Qed.

Lemma insert_desc_HdRel y x l :
  yield_geb y x -> HdRel yield_geb y l -> HdRel yield_geb y (insert_desc x l).
Proof.
  intros Hyx Hl. destruct l as [|z rest]; simpl.
  - constructor. exact Hyx.
  - destruct (PrimFloat.ltb (net_yield_annualized x) (net_yield_annualized z)).
    + constructor. inversion Hl; assumption.
    + constructor. exact Hyx.
Qed.

Lemma insert_desc_sorted x l :
  yield_ok x -> Forall yield_ok l ->
  Sorted yield_geb l -> Sorted yield_geb (insert_desc x l).
Proof.
  intros Hx Hl Hs. induction l as [|y rest IH]; simpl.
  - repeat constructor.
  - apply Forall_cons in Hl as [Hy Hrest].
    apply Sorted_inv in Hs as [Hs Hhd].
    destruct (PrimFloat.ltb (net_yield_annualized x) (net_yield_annualized y)) eqn:Hlt.
    + constructor; [apply IH; assumption|].
      apply insert_desc_HdRel; [|exact Hhd].
      apply PyFloat.ltb_geb_flip. exact Hlt.
    + constructor; [constructor; assumption|].
      constructor. apply PyFloat.not_ltb_geb; assumption.
Qed.

Lemma yield_geb_trans a b c : yield_geb a b -> yield_geb b c -> yield_geb a c.
Proof. apply PyFloat.geb_trans. Qed.

Lemma sort_desc_sorted l : Forall yield_ok l -> Sorted yield_geb (sort_desc l).
Proof.
  induction l as [|x l IH]; intros Hl; simpl; [constructor|].
  apply Forall_cons in Hl as [Hx Hl].
  apply insert_desc_sorted; [exact Hx| |apply IH; exact Hl].
  rewrite sort_desc_perm. exact Hl.
Qed.

(** Insertion never carries an opportunity past one of equal yield. *)
Lemma insert_desc_with_yield k x l :
  with_yield k (insert_desc x l) = with_yield k (x :: l).
Proof.
  induction l as [|y rest IH]; [reflexivity|]. simpl insert_desc.
  destruct (PrimFloat.ltb (net_yield_annualized x) (net_yield_annualized y)) eqn:Hlt;
    [|reflexivity].
  unfold with_yield in *. simpl in *. rewrite IH.
  destruct (PrimFloat.eqb (net_yield_annualized x) k) eqn:Hx;
    destruct (PrimFloat.eqb (net_yield_annualized y) k) eqn:Hy; try reflexivity.
  rewrite (PyFloat.eqb_eqb_not_ltb _ _ _ Hx Hy) in Hlt. discriminate.
Qed.

Lemma sort_desc_with_yield k l : with_yield k (sort_desc l) = with_yield k l.
Proof.
  induction l as [|x l IH]; [reflexivity|]. simpl sort_desc.
  rewrite insert_desc_with_yield. unfold with_yield in *. simpl. rewrite IH.
  reflexivity.
Qed.

(** Two lists of opportunities that are both sorted descending by net yield
    and that list the opportunities of every yield in the same order are the
    same list: the stable descending arrangement is unique, whichever stable
    sort computes it. *)
Lemma stable_sorted_unique l1 l2 :
  Forall yield_ok l1 -> Forall yield_ok l2 ->
  StronglySorted yield_geb l1 -> StronglySorted yield_geb l2 ->
  (forall k, with_yield k l1 = with_yield k l2) ->
  l1 = l2.
Proof.
  revert l2. induction l1 as [|a t1 IH]; intros l2 Hok1 Hok2 Hs1 Hs2 Hsame.
  - destruct l2 as [|b t2]; [reflexivity|].
    apply Forall_cons in Hok2 as [Hb _].
    specialize (Hsame (net_yield_annualized b)). unfold with_yield in Hsame.
    simpl in Hsame. rewrite (PyFloat.eqb_refl _ Hb) in Hsame. discriminate.
  - apply Forall_cons in Hok1 as [Ha Hok1].
    apply StronglySorted_inv in Hs1 as [Hs1 Hhd1].
    assert (Ha_in : a ∈ l2).
    { assert (Hin : a ∈ with_yield (net_yield_annualized a) l2).
      { rewrite <- Hsame. unfold with_yield. simpl.
        rewrite (PyFloat.eqb_refl _ Ha). apply list_elem_of_here. }
      unfold with_yield in Hin. apply list_elem_of_In, filter_In in Hin as [Hin _].
      apply list_elem_of_In. exact Hin. }
    destruct l2 as [|b t2]; [apply elem_of_nil in Ha_in; contradiction|].
    apply Forall_cons in Hok2 as [Hb Hok2].
    apply StronglySorted_inv in Hs2 as [Hs2 Hhd2].
    assert (Hb_in : b ∈ a :: t1).
    { assert (Hin : b ∈ with_yield (net_yield_annualized b) (a :: t1)).
      { rewrite Hsame. unfold with_yield. simpl.
        rewrite (PyFloat.eqb_refl _ Hb). apply list_elem_of_here. }
      unfold with_yield in Hin. apply list_elem_of_In, filter_In in Hin as [Hin _].
      apply list_elem_of_In. exact Hin. }
    assert (Hba : yield_geb b a).
    { apply elem_of_cons in Ha_in as [->|Hin].
      - unfold yield_geb. apply PyFloat.not_ltb_geb; try assumption.
        apply (PyFloat.eqb_eqb_not_ltb _ _ (net_yield_annualized b));
          apply PyFloat.eqb_refl; assumption.
      - rewrite Forall_forall in Hhd2. apply Hhd2. exact Hin. }
    assert (Hab : yield_geb a b).
    { apply elem_of_cons in Hb_in as [->|Hin].
      - exact Hba.
      - rewrite Forall_forall in Hhd1. apply Hhd1. exact Hin. }
    pose proof (PyFloat.geb_antisym_eqb _ _ Hab Hba) as Heq.
    assert (Hhead : a = b).
    { pose proof (Hsame (net_yield_annualized a)) as Hk. unfold with_yield in Hk.
      simpl in Hk. rewrite (PyFloat.eqb_refl _ Ha) in Hk.
      rewrite (PyFloat.eqb_sym _ _), Heq in Hk. injection Hk as Hk _. exact Hk. }
    subst b. f_equal. apply IH; try assumption.
    intros k. pose proof (Hsame k) as Hk. unfold with_yield in Hk |- *. simpl in Hk.
    destruct (PrimFloat.eqb (net_yield_annualized a) k); [injection Hk as Hk|]; exact Hk.
Qed.

(** C4 (as the code has it).  [score_all] returns the kept opportunities
    sorted descending by net yield; the sort is stable, so opportunities of
    equal net yield stay in the order of the input.  Neither the liquidity
    score nor [(exchange, symbol)] takes part in the ranking. *)
Theorem score_all_sorted_stable cfg clock rates :
  StronglySorted yield_geb (score_all cfg clock rates)
  /\ score_all cfg clock rates ≡ₚ collect cfg clock 0 rates
  /\ (forall k, with_yield k (score_all cfg clock rates)
                = with_yield k (collect cfg clock 0 rates)).
Proof.
  unfold score_all. split; [|split].
  - apply Sorted_StronglySorted; [exact yield_geb_trans|].
    apply sort_desc_sorted. apply collect_yield_ok.
  - apply sort_desc_perm.
  - intros k. apply sort_desc_with_yield.
Qed.

(** Two observations of equal net yield, the one of lower liquidity score
    first in the input: [score_all] returns them in that order, which the
    tie-breaking rule of the specification forbids. *)
Lemma score_all_ties_not_ranked :
  let out := score_all load_config (fun _ => "2026-01-01T00:00:00"%string)
               [ada_binance; btc_binance] in
  List.map (fun o => (symbol o, net_yield_annualized o, liquidity_score o)) out
    = [ ("ADAUSDT"%string, 108.7, 0.5); ("BTCUSDT"%string, 108.7, 0.9) ]
  /\ spec_ranked out = false.
Proof. vm_compute. split; reflexivity. Qed.

End Scorer.

(** ** [backtest.py]: the lifecycle replay

    The replay is stated over the arithmetic it uses, so that its accounting
    can be read both in binary64, which is what Python computes, and in exact
    rational arithmetic, where sums may be regrouped. *)

Module Backtest.

(** The arithmetic of the replay: [int] to float conversion, the four
    operations, unary minus, [<] and [==]. *)
Class Num (F : Type) := {
  of_Z : Z -> F;
  add : F -> F -> F;
  sub : F -> F -> F;
  mul : F -> F -> F;
  div : F -> F -> F;
  neg : F -> F;
  ltb : F -> F -> bool;
  eqb : F -> F -> bool;
}.

(** Python's and numpy's binary64. *)
#[export] Instance float_num : Num float := {|
  of_Z := PyFloat.of_Z;
  add := PrimFloat.add;
  sub := PrimFloat.sub;
  mul := PrimFloat.mul;
  div := PrimFloat.div;
  neg := PrimFloat.opp;
  ltb := PrimFloat.ltb;
  eqb := PrimFloat.eqb;
|}.

(** Exact rationals (a quotient by zero is 0 there; the replay's accounting
    of funding never divides). *)
#[export] Instance Qc_num : Num Qc := {|
  of_Z := fun z => Q2Qc (inject_Z z);
  add := Qcplus;
  sub := Qcminus;
  mul := Qcmult;
  div := Qcdiv;
  neg := Qcopp;
  ltb := fun x y => negb (Qle_bool (this y) (this x));
  eqb := fun x y => Qeq_bool (this x) (this y);
|}.

(** Addition without rounding: sums may be regrouped and reordered. *)
Definition exact_add {F : Type} (N : Num F) : Prop :=
  (forall x : F, add (of_Z 0) x = x)
  /\ (forall x y : F, add x y = add y x)
  /\ (forall x y z : F, add (add x y) z = add x (add y z)).

(** The value of a Python variable that starts as the [int] 0 and is then
    updated with floats. *)
Inductive Number (F : Type) : Type :=
| PyInt (z : Z)
| Float64 (x : F).
Arguments PyInt {F} z.
Arguments Float64 {F} x.

Inductive Exn : Type :=
| ZeroDivisionError
| OutOfBoundsDatetime.

Section Engine.
Context {F : Type} {N : Num F}.

Record BacktestConfig := {
  entry_threshold : F;
  exit_threshold : F;
  entry_cost : F;
  exit_cost : F;
  slippage : F;
  borrow_rate_8h : F;
  position_size : F;
  max_positions : Z;
}.

(** One record of the funding history: [fundingTime] in milliseconds, the
    rate, and the symbol when the record carries one. *)
Record Row := {
  fundingTime : Z;
  fundingRate : F;
  row_symbol : option string;
}.

Record Trade := {
  entry_time : Z;
  exit_time : Z;
  periods : Z;
  avg_funding : F;
  funding_collected : F;
  costs : F;
  pnl : F;
  pnl_pct : F;
}.

(** The simulation state of [run_backtest]. *)
Record State := {
  position_open : bool;
  entry_rate : F;
  entry_idx : nat;
  trades : list Trade;
  total_pnl : Number F;
  total_funding : Number F;
  total_costs : Number F;
}.

Definition to_float (n : Number F) : F :=
  match n with
  | PyInt z => of_Z z
  | Float64 x => x
  end.

(** [n += x] for a float [x]. *)
Definition iadd (n : Number F) (x : F) : Number F :=
  Float64 (add (to_float n) x).

(** [sum(...)] of floats: from the [int] 0, left to right. *)
Definition py_sum (l : list F) : F := fold_left add l (of_Z 0).

(** [df.sort_values("timestamp").reset_index(drop=True)]: the rows by
    ascending time.  Rows of equal time are kept in their order here;
    pandas does not fix it (its default sort is not stable and may reorder
    equal times in frames of more than 16 rows). *)
Fixpoint insert_row (r : Row) (l : list Row) : list Row :=
  match l with
  | [] => [r]
  | r' :: rest =>
      if (fundingTime r' <? fundingTime r)%Z then r' :: insert_row r rest
      else r :: l
  end.

Definition sort_values (l : list Row) : list Row := foldr insert_row [] l.

(** The funding of one row: [-rate * config.position_size]. *)
Definition funding_of (cfg : BacktestConfig) (row : Row) : F :=
  mul (neg (fundingRate row)) (position_size cfg).

(** [sum(-df.iloc[j]["fundingRate"] * config.position_size
         for j in range(entry_idx, i+1))] *)
Definition trade_funding_of (cfg : BacktestConfig) (df : list Row) (entry_idx i : nat) : F :=
  py_sum (List.map (funding_of cfg) (take (S i - entry_idx) (drop entry_idx df))).

Definition init : State := {|
  position_open := false;
  entry_rate := of_Z 0;
  entry_idx := 0;
  trades := [];
  total_pnl := PyInt 0;
  total_funding := PyInt 0;
  total_costs := PyInt 0;
|}.

(** [df.iloc[j]["timestamp"]] *)
Definition timestamp_at (df : list Row) (j : nat) : Z :=
  match df !! j with
  | Some r => fundingTime r
  | None => 0
  end.

(** The body of the loop over [df.iterrows()], at index [i]. *)
Definition step (cfg : BacktestConfig) (df : list Row) (i : nat) (row : Row) (st : State)
  : State :=
  let rate := fundingRate row in
  if negb (position_open st) then
    if ltb rate (entry_threshold cfg) then
      {| position_open := true;
         entry_rate := rate;
         entry_idx := i;
         trades := trades st;
         total_pnl := total_pnl st;
         total_funding := total_funding st;
         total_costs :=
           iadd (total_costs st)
                (mul (add (entry_cost cfg) (slippage cfg)) (position_size cfg)) |}
    else st
  else
    let funding_received := mul (neg rate) (position_size cfg) in
    let total_funding1 := iadd (total_funding st) funding_received in
    let total_costs1 :=
      iadd (total_costs st) (mul (borrow_rate_8h cfg) (position_size cfg)) in
    if ltb (exit_threshold cfg) rate then
      let total_costs2 := iadd total_costs1 (mul (exit_cost cfg) (position_size cfg)) in
      let periods := (Z.of_nat i - Z.of_nat (entry_idx st))%Z in
      let trade_funding := trade_funding_of cfg df (entry_idx st) i in
      let trade_costs :=
        add (mul (add (add (entry_cost cfg) (exit_cost cfg)) (slippage cfg))
                 (position_size cfg))
            (mul (mul (borrow_rate_8h cfg) (position_size cfg)) (of_Z periods)) in
      let trade_pnl := sub trade_funding trade_costs in
      {| position_open := false;
         entry_rate := entry_rate st;
         entry_idx := entry_idx st;
         trades :=
           trades st ++
           [ {| entry_time := timestamp_at df (entry_idx st);
                exit_time := fundingTime row;
                periods := periods;
                avg_funding := entry_rate st;
                funding_collected := trade_funding;
                costs := trade_costs;
                pnl := trade_pnl;
                pnl_pct := mul (div trade_pnl (position_size cfg)) (of_Z 100) |} ];
         total_pnl := iadd (total_pnl st) trade_pnl;
         total_funding := total_funding1;
         total_costs := total_costs2 |}
    else
      {| position_open := true;
         entry_rate := entry_rate st;
         entry_idx := entry_idx st;
         trades := trades st;
         total_pnl := total_pnl st;
         total_funding := total_funding1;
         total_costs := total_costs1 |}.

(** The loop, over the rows from index [i] on. *)
Fixpoint run_loop (cfg : BacktestConfig) (df : list Row) (i : nat) (rows : list Row)
  (st : State) : State :=
  match rows with
  | [] => st
  | row :: rest => run_loop cfg df (S i) rest (step cfg df i row st)
  end.

Definition simulate (cfg : BacktestConfig) (df : list Row) : State :=
  run_loop cfg df 0 df init.

(** The states after each iteration, for reading a run step by step. *)
Fixpoint trace_loop (cfg : BacktestConfig) (df : list Row) (i : nat) (rows : list Row)
  (st : State) : list State :=
  match rows with
  | [] => []
  | row :: rest =>
      let st' := step cfg df i row st in
      st' :: trace_loop cfg df (S i) rest st'
  end.

Definition trace (cfg : BacktestConfig) (df : list Row) : list State :=
  trace_loop cfg df 0 df init.

(** The dict that [run_backtest] returns. *)
Record Result := {
  symbol : string;
  period_days : Z;
  data_points : Z;
  total_trades : Z;
  r_total_funding : Number F;
  r_total_costs : Number F;
  r_total_pnl : Number F;
  pnl_per_trade : Number F;
  win_rate : Number F;
  avg_hold_periods : Number F;
  annualized_return : Number F;
  r_trades : list Trade;
}.

Inductive Outcome : Type :=
| NoData                        (* [{"error": "No data"}] *)
| Metrics (r : Result)
| Raise (e : Exn).

(** [(df["timestamp"].iloc[-1] - df["timestamp"].iloc[0]).days or 1] *)
Definition days_of (df : list Row) : Z :=
  let d := ((timestamp_at df (length df - 1) - timestamp_at df 0) / 86400000)%Z in
  if (d =? 0)%Z then 1%Z else d.

(** [total_pnl / len(trades) if trades else 0] *)
Definition pnl_per_trade_of (total_pnl : Number F) (trades : list Trade) : Number F :=
  match trades with
  | [] => PyInt 0
  | _ => Float64 (div (to_float total_pnl) (of_Z (Z.of_nat (length trades))))
  end.

(** [sum(1 for t in trades if t["pnl"] > 0) / len(trades) * 100 if trades else 0] *)
Definition win_rate_of (trades : list Trade) : Number F :=
  match trades with
  | [] => PyInt 0
  | _ =>
      let wins := length (List.filter (fun t => ltb (of_Z 0) (pnl t)) trades) in
      Float64 (mul (div (of_Z (Z.of_nat wins)) (of_Z (Z.of_nat (length trades))))
                   (of_Z 100))
  end.

(** [sum(t["periods"] for t in trades) / len(trades) if trades else 0] *)
Definition avg_hold_periods_of (trades : list Trade) : Number F :=
  match trades with
  | [] => PyInt 0
  | _ =>
      Float64 (div (of_Z (fold_left Z.add (List.map periods trades) 0%Z))
                   (of_Z (Z.of_nat (length trades))))
  end.

(** [total_pnl / config.position_size].  While no trade has completed,
    [total_pnl] is still the [int] 0 and Python's own division applies,
    which raises on a zero divisor; afterwards it is a numpy float64, whose
    division follows IEEE. *)
Definition pnl_over_size (total_pnl : Number F) (size : F) : Exn + F :=
  match total_pnl with
  | PyInt z => if eqb size (of_Z 0) then inl ZeroDivisionError
               else inr (div (of_Z z) size)
  | Float64 x => inr (div x size)
  end.

(** [(total_pnl / config.position_size) * (365 / days) * 100 if days else 0] *)
Definition annualized_return_of (cfg : BacktestConfig) (total_pnl : Number F) (days : Z)
  : Exn + Number F :=
  if (days =? 0)%Z then inr (PyInt 0)
  else
    match pnl_over_size total_pnl (position_size cfg) with
    | inl e => inl e
    | inr q =>
        inr (Float64 (mul (mul q (div (of_Z 365) (of_Z days))) (of_Z 100)))
    end.

(** [trades[-10:]] *)
Definition last_ten (trades : list Trade) : list Trade :=
  drop (length trades - 10) trades.

(** [funding_data[0].get("symbol", "unknown")] *)
Definition symbol_of (funding_data : list Row) : string :=
  match funding_data with
  | r :: _ => default "unknown"%string (row_symbol r)
  | [] => "unknown"%string
  end.

(** pandas keeps a timestamp and a difference of timestamps as an int64
    number of nanoseconds.  A number of milliseconds fits when its absolute
    value is at most 9223372036854 (the years 1677 to 2262, or 292 years of
    difference).  The records hold their times as int64 numbers. *)
Definition MAX_MS : Z := 9223372036854.

Definition in_bounds (ms : Z) : bool := (- MAX_MS <=? ms)%Z && (ms <=? MAX_MS)%Z.

(** [pd.to_datetime(df["fundingTime"], unit="ms")] returns when every time
    fits, and raises [OutOfBoundsDatetime] otherwise. *)
Definition to_datetime_ok (funding_data : list Row) : bool :=
  forallb (fun r => in_bounds (fundingTime r)) funding_data.

(** [df["timestamp"].iloc[-1] - df["timestamp"].iloc[0]] returns when the
    difference fits, and raises [OutOfBoundsDatetime] otherwise. *)
Definition timedelta_ok (df : list Row) : bool :=
  in_bounds (timestamp_at df (length df - 1) - timestamp_at df 0).

(** [run_backtest] *)
Definition run_backtest (funding_data : list Row) (cfg : BacktestConfig) : Outcome :=
  match funding_data with
  | [] => NoData
  | _ =>
      if to_datetime_ok funding_data then
        let df := sort_values funding_data in
        let st := simulate cfg df in
        if timedelta_ok df then
          let days := days_of df in
          match annualized_return_of cfg (total_pnl st) days with
          | inl e => Raise e
          | inr annualized =>
              Metrics {|
                symbol := symbol_of funding_data;
                period_days := days;
                data_points := Z.of_nat (length df);
                total_trades := Z.of_nat (length (trades st));
                r_total_funding := total_funding st;
                r_total_costs := total_costs st;
                r_total_pnl := total_pnl st;
                pnl_per_trade := pnl_per_trade_of (total_pnl st) (trades st);
                win_rate := win_rate_of (trades st);
                avg_hold_periods := avg_hold_periods_of (trades st);
                annualized_return := annualized;
                r_trades := last_ten (trades st);
              |}
          end
        else Raise OutOfBoundsDatetime
      else Raise OutOfBoundsDatetime
  end.

(** The state in which the loop of [run_backtest] ends. *)
Definition final_state (funding_data : list Row) (cfg : BacktestConfig) : State :=
  simulate cfg (sort_values funding_data).

End Engine.

Arguments BacktestConfig F : clear implicits.
Arguments Row F : clear implicits.
Arguments Trade F : clear implicits.
Arguments State F : clear implicits.
Arguments Result F : clear implicits.
Arguments Outcome F : clear implicits.

(** [BacktestConfig()]: the defaults. *)
Definition default_config : BacktestConfig float := {|
  entry_threshold := (-0.0015)%float;
  exit_threshold := (-0.0005)%float;
  entry_cost := 0.001%float;
  exit_cost := 0.0004%float;
  slippage := 0.001%float;
  borrow_rate_8h := 0.000274%float;
  position_size := 1000%float;
  max_positions := 3;
|}.

(** A series of rates as funding records eight hours apart. *)
Definition series {F : Type} (rates : list F) : list (Row F) :=
  imap (fun i r => {| fundingTime := Z.of_nat i * 28800000;
                      fundingRate := r;
                      row_symbol := Some "BTCUSDT"%string |}) rates.

(** The run of the specification's example, and a configuration whose
    position size is 0. *)
Definition example_series : list (Row float) :=
  series [ (-0.002)%float; (-0.0018)%float; (-0.0002)%float; 0.0%float ].

Definition zero_size_config : BacktestConfig float := {|
  entry_threshold := (-0.0015)%float;
  exit_threshold := (-0.0005)%float;
  entry_cost := 0.001%float;
  exit_cost := 0.0004%float;
  slippage := 0.001%float;
  borrow_rate_8h := 0.000274%float;
  position_size := 0%float;
  max_positions := 3;
|}.

(** A configuration without entry cost and slippage, and two series that
    differ in their last rate only: the first ends with a position just
    opened, the second ends idle. *)
Definition free_entry_config : BacktestConfig float := {|
  entry_threshold := (-0.0015)%float;
  exit_threshold := (-0.0005)%float;
  entry_cost := 0%float;
  exit_cost := 0.0004%float;
  slippage := 0%float;
  borrow_rate_8h := 0.000274%float;
  position_size := 1000%float;
  max_positions := 3;
|}.

Definition ends_open_series : list (Row float) :=
  series [ (-0.002)%float; 0.0%float; (-0.002)%float ].

Definition ends_idle_series : list (Row float) :=
  series [ (-0.002)%float; 0.0%float; 0.0%float ].

(** One trade whose sums round, no position left open. *)
Definition rounding_series : list (Row float) :=
  series [ (-0.0023)%float; (-0.0019)%float; (-0.0001)%float ].

(** One trade, then a second position that is still open and has accrued
    funding when the series ends. *)
Definition reopened_series : list (Row float) :=
  series [ (-0.002)%float; 0.0%float; (-0.002)%float; (-0.0018)%float ].

(** The same replay in exact rationals. *)
Definition exact_config : BacktestConfig Qc := {|
  entry_threshold := Q2Qc (-15 # 10000);
  exit_threshold := Q2Qc (-5 # 10000);
  entry_cost := Q2Qc (1 # 1000);
  exit_cost := Q2Qc (4 # 10000);
  slippage := Q2Qc (1 # 1000);
  borrow_rate_8h := Q2Qc (274 # 1000000);
  position_size := Q2Qc 1000;
  max_positions := 3;
|}.

Definition exact_series : list (Row Qc) :=
  series [ Q2Qc (-2 # 1000); Q2Qc (-18 # 10000); Q2Qc (-2 # 10000); Q2Qc 0;
           Q2Qc (-3 # 1000); Q2Qc 0 ].

(** The entry accrual as the specification words it: [entry_cost + slippage]
    is added to the costs. *)
Definition spec_entry_accrual {F : Type} {N : Num F}
  (cfg : BacktestConfig F) (before after : State F) : Prop :=
  to_float (total_costs after)
  = add (to_float (total_costs before)) (add (entry_cost cfg) (slippage cfg)).

(** No rate of the series lies strictly below the entry threshold. *)
Definition never_below {F : Type} {N : Num F}
  (cfg : BacktestConfig F) (rows : list (Row F)) : Prop :=
  Forall (fun row => ltb (fundingRate row) (entry_threshold cfg) = false) rows.

(** The state before iteration [i] of the loop. *)
Definition state_at {F : Type} {N : Num F}
  (cfg : BacktestConfig F) (df : list (Row F)) (i : nat) : State F :=
  run_loop cfg df 0 (take i df) init.

(** The record appended to [trades] when iteration [i] closes the position. *)
Definition closing_trade {F : Type} {N : Num F}
  (cfg : BacktestConfig F) (df : list (Row F)) (i : nat) (row : Row F) (st : State F)
  : Trade F :=
  let periods := (Z.of_nat i - Z.of_nat (entry_idx st))%Z in
  let trade_funding := trade_funding_of cfg df (entry_idx st) i in
  let trade_costs :=
    add (mul (add (add (entry_cost cfg) (exit_cost cfg)) (slippage cfg))
             (position_size cfg))
        (mul (mul (borrow_rate_8h cfg) (position_size cfg)) (of_Z periods)) in
  let trade_pnl := sub trade_funding trade_costs in
  {| entry_time := timestamp_at df (entry_idx st);
     exit_time := fundingTime row;
     periods := periods;
     avg_funding := entry_rate st;
     funding_collected := trade_funding;
     costs := trade_costs;
     pnl := trade_pnl;
     pnl_pct := mul (div trade_pnl (position_size cfg)) (of_Z 100) |}.

(** What a recorded trade says of the rows it spans: it was entered at an
    index [e] and closed at a later index [x], its [avg_funding] is the rate
    of the entry row, and its [funding_collected] is the sum of the funding
    of the rows [e], ..., [x], both included. *)
Definition trade_spans {F : Type} {N : Num F}
  (cfg : BacktestConfig F) (df : list (Row F)) (t : Trade F) : Prop :=
  exists (e x : nat) (r : Row F),
    (e < x < length df)%nat
    /\ df !! e = Some r
    /\ avg_funding t = fundingRate r
    /\ entry_time t = fundingTime r
    /\ exit_time t = timestamp_at df x
    /\ periods t = (Z.of_nat x - Z.of_nat e)%Z
    /\ funding_collected t =
         py_sum (List.map (funding_of cfg) (take (S x - e) (drop e df))).

(** The sum of the trades' [funding_collected], and of the funding of their
    entry periods. *)
Definition collected_sum {F : Type} {N : Num F} (ts : list (Trade F)) : F :=
  py_sum (List.map funding_collected ts).

Definition entry_funding_sum {F : Type} {N : Num F}
  (cfg : BacktestConfig F) (ts : list (Trade F)) : F :=
  py_sum (List.map (fun t => mul (neg (avg_funding t)) (position_size cfg)) ts).

(** The funding accrued so far by a position that is open before iteration
    [i]: that of the rows after its entry. *)
Definition pending_funding {F : Type} {N : Num F}
  (cfg : BacktestConfig F) (df : list (Row F)) (i : nat) (st : State F) : F :=
  if position_open st
  then py_sum (List.map (funding_of cfg) (take (i - S (entry_idx st)) (drop (S (entry_idx st)) df)))
  else of_Z 0.

(** The relation the specification words between the trades' collected
    funding and [total_funding]: they differ by exactly the entry-period
    funding of the trades. *)
Definition spec_funding_gap {F : Type} {N : Num F}
  (cfg : BacktestConfig F) (st : State F) : Prop :=
  sub (collected_sum (trades st)) (to_float (total_funding st))
  = entry_funding_sum cfg (trades st).

Section Properties.
Context {F : Type} {N : Num F}.
Implicit Types (cfg : BacktestConfig F) (df rows : list (Row F)) (st : State F).

Lemma insert_row_perm (r : Row F) rows : insert_row r rows ≡ₚ r :: rows.
Proof.
  induction rows as [|r' rest IH]; simpl; [reflexivity|].
  destruct (fundingTime r' <? fundingTime r)%Z; [|reflexivity].
  rewrite IH. apply Permutation_swap.
Qed.

Lemma sort_values_perm rows : sort_values rows ≡ₚ rows.
Proof.
  induction rows as [|r rest IH]; simpl; [reflexivity|].
  rewrite insert_row_perm, IH. reflexivity.
Qed.

Lemma sort_values_length rows : length (sort_values rows) = length rows.
Proof. apply Permutation_length, sort_values_perm. Qed.

(** *** The transitions *)

Lemma step_idle_stay cfg df i row st :
  position_open st = false ->
  ltb (fundingRate row) (entry_threshold cfg) = false ->
  step cfg df i row st = st.
Proof. intros Ho Hr. unfold step. rewrite Ho, Hr. reflexivity. Qed.

Lemma step_idle_enter cfg df i row st :
  position_open st = false ->
  ltb (fundingRate row) (entry_threshold cfg) = true ->
  step cfg df i row st =
    {| position_open := true;
       entry_rate := fundingRate row;
       entry_idx := i;
       trades := trades st;
       total_pnl := total_pnl st;
       total_funding := total_funding st;
       total_costs :=
         iadd (total_costs st)
              (mul (add (entry_cost cfg) (slippage cfg)) (position_size cfg)) |}.
Proof. intros Ho Hr. unfold step. rewrite Ho, Hr. reflexivity. Qed.

Lemma step_open_accrues cfg df i row st :
  position_open st = true ->
  let st' := step cfg df i row st in
  total_funding st' = iadd (total_funding st) (mul (neg (fundingRate row)) (position_size cfg))
  /\ total_costs st' =
       (let held := iadd (total_costs st) (mul (borrow_rate_8h cfg) (position_size cfg)) in
        if ltb (exit_threshold cfg) (fundingRate row)
        then iadd held (mul (exit_cost cfg) (position_size cfg))
        else held)
  /\ position_open st' = negb (ltb (exit_threshold cfg) (fundingRate row))
  /\ entry_idx st' = entry_idx st
  /\ entry_rate st' = entry_rate st.
Proof.
  intros Ho. unfold step. rewrite Ho. simpl.
  destruct (ltb (exit_threshold cfg) (fundingRate row)); simpl; auto.
Qed.

Lemma step_open_hold cfg df i row st :
  position_open st = true ->
  ltb (exit_threshold cfg) (fundingRate row) = false ->
  step cfg df i row st =
    {| position_open := true;
       entry_rate := entry_rate st;
       entry_idx := entry_idx st;
       trades := trades st;
       total_pnl := total_pnl st;
       total_funding := iadd (total_funding st) (funding_of cfg row);
       total_costs :=
         iadd (total_costs st) (mul (borrow_rate_8h cfg) (position_size cfg)) |}.
Proof. intros Ho Hx. unfold step. rewrite Ho, Hx. reflexivity. Qed.

Lemma step_open_exit cfg df i row st :
  position_open st = true ->
  ltb (exit_threshold cfg) (fundingRate row) = true ->
  step cfg df i row st =
    {| position_open := false;
       entry_rate := entry_rate st;
       entry_idx := entry_idx st;
       trades := trades st ++ [ closing_trade cfg df i row st ];
       total_pnl := iadd (total_pnl st) (pnl (closing_trade cfg df i row st));
       total_funding := iadd (total_funding st) (funding_of cfg row);
       total_costs :=
         iadd (iadd (total_costs st) (mul (borrow_rate_8h cfg) (position_size cfg)))
              (mul (exit_cost cfg) (position_size cfg)) |}.
Proof. intros Ho Hx. unfold step. rewrite Ho, Hx. reflexivity. Qed.

(** *** A series that never crosses the entry threshold *)

Lemma run_loop_never_below cfg df i rows st :
  position_open st = false -> never_below cfg rows ->
  run_loop cfg df i rows st = st.
Proof.
  intros Ho Hn. revert i. induction Hn as [|row rest Hr Hrest IH]; intros i; simpl.
  - reflexivity.
  - rewrite (step_idle_stay cfg df i row st Ho Hr). apply IH.
Qed.

Lemma trace_loop_never_below cfg df i rows st :
  position_open st = false -> never_below cfg rows ->
  Forall (fun s => s = st) (trace_loop cfg df i rows st).
Proof.
  intros Ho Hn. revert i. induction Hn as [|row rest Hr Hrest IH]; intros i; simpl.
  - constructor.
  - rewrite (step_idle_stay cfg df i row st Ho Hr). constructor; [reflexivity|apply IH].
Qed.

Lemma never_below_sorted cfg rows :
  never_below cfg rows -> never_below cfg (sort_values rows).
Proof. unfold never_below. rewrite sort_values_perm. auto. Qed.

Lemma days_of_nonzero df : days_of df <> 0%Z.
Proof.
  unfold days_of.
  destruct (((timestamp_at df (length df - 1) - timestamp_at df 0) / 86400000) =? 0)%Z
    eqn:Hd; [discriminate|].
  apply Z.eqb_neq in Hd. exact Hd.
Qed.

(** *** The loop, iteration by iteration *)

Lemma run_loop_app cfg df i rows1 rows2 st :
  run_loop cfg df i (rows1 ++ rows2) st
  = run_loop cfg df (i + length rows1) rows2 (run_loop cfg df i rows1 st).
Proof.
  revert i st. induction rows1 as [|row rest IH]; intros i st; simpl.
  - rewrite Nat.add_0_r. reflexivity.
  - rewrite IH. f_equal. lia.
Qed.

Lemma state_at_0 cfg df : state_at cfg df 0 = init.
Proof. reflexivity. Qed.

Lemma state_at_S cfg df i row :
  df !! i = Some row ->
  state_at cfg df (S i) = step cfg df i row (state_at cfg df i).
Proof.
  intros Hrow. unfold state_at.
  rewrite (take_S_r df i row Hrow), run_loop_app. simpl.
  rewrite length_take_le; [reflexivity|].
  apply lookup_lt_Some in Hrow. lia.
Qed.

Lemma state_at_end cfg df : state_at cfg df (length df) = simulate cfg df.
Proof. unfold state_at, simulate. rewrite firstn_all. reflexivity. Qed.

(** An open position was entered at an earlier index, at the rate of that
    row. *)
Lemma open_entry_earlier cfg df i :
  (i <= length df)%nat ->
  position_open (state_at cfg df i) = true ->
  (entry_idx (state_at cfg df i) < i)%nat
  /\ exists r, df !! entry_idx (state_at cfg df i) = Some r
               /\ entry_rate (state_at cfg df i) = fundingRate r.
Proof.
  induction i as [|i IH]; intros Hi Ho.
  - rewrite state_at_0 in Ho. discriminate.
  - destruct (lookup_lt_is_Some_2 df i ltac:(lia)) as [row Hrow].
    rewrite (state_at_S cfg df i row Hrow) in Ho |- *.
    destruct (position_open (state_at cfg df i)) eqn:Hprev.
    + destruct (step_open_accrues cfg df i row _ Hprev) as (_ & _ & _ & He & Hr).
      rewrite He, Hr. destruct (IH ltac:(lia) eq_refl) as (Hlt & r & Hr' & Hrate).
      split; [lia|]. exists r. auto.
    + destruct (ltb (fundingRate row) (entry_threshold cfg)) eqn:Hent.
      * rewrite (step_idle_enter cfg df i row _ Hprev Hent). simpl.
        split; [lia|]. exists row. auto.
      * rewrite (step_idle_stay cfg df i row _ Hprev Hent) in Ho. congruence.
Qed.

(** A position that is open before iteration [i] has recorded no trade and
    realised no P&L since it was entered. *)
Lemma open_since_entry cfg df i :
  (i <= length df)%nat ->
  position_open (state_at cfg df i) = true ->
  let e := entry_idx (state_at cfg df i) in
  position_open (state_at cfg df e) = false
  /\ trades (state_at cfg df i) = trades (state_at cfg df e)
  /\ total_pnl (state_at cfg df i) = total_pnl (state_at cfg df e).
Proof.
  induction i as [|i IH]; intros Hi Ho.
  - rewrite state_at_0 in Ho. discriminate.
  - destruct (lookup_lt_is_Some_2 df i ltac:(lia)) as [row Hrow].
    rewrite (state_at_S cfg df i row Hrow) in Ho |- *.
    destruct (position_open (state_at cfg df i)) eqn:Hprev.
    + specialize (IH ltac:(lia) eq_refl).
      unfold step in Ho |- *. rewrite Hprev in Ho |- *. simpl in Ho |- *.
      destruct (ltb (exit_threshold cfg) (fundingRate row)); [discriminate|].
      simpl. exact IH.
    + destruct (ltb (fundingRate row) (entry_threshold cfg)) eqn:Hent.
      * rewrite (step_idle_enter cfg df i row _ Hprev Hent). simpl. auto.
      * rewrite (step_idle_stay cfg df i row _ Hprev Hent) in Ho. congruence.
Qed.

(** *** Cutting the series *)

Lemma slice_take df n e i :
  (S i <= n)%nat ->
  take (S i - e) (drop e (take n df)) = take (S i - e) (drop e df).
Proof.
  intros Hi. rewrite skipn_firstn_comm, take_take. f_equal. lia.
Qed.

(** An iteration reads the frame up to its own index only. *)
Lemma step_frame cfg df n i row st :
  (i < n)%nat ->
  (position_open st = true -> (entry_idx st < i)%nat) ->
  step cfg (take n df) i row st = step cfg df i row st.
Proof.
  intros Hi He. unfold step.
  destruct (position_open st) eqn:Ho; simpl; [|reflexivity].
  specialize (He eq_refl).
  unfold trade_funding_of, timestamp_at.
  rewrite (slice_take df n (entry_idx st) i) by lia.
  rewrite lookup_take_lt by lia. reflexivity.
Qed.

Lemma state_at_frame cfg df n i :
  (i <= n)%nat -> (i <= length df)%nat ->
  state_at cfg (take n df) i = state_at cfg df i.
Proof.
  induction i as [|i IH]; intros Hn Hl; [reflexivity|].
  destruct (lookup_lt_is_Some_2 df i ltac:(lia)) as [row Hrow].
  rewrite (state_at_S cfg df i row Hrow).
  rewrite (state_at_S cfg (take n df) i row)
    by (rewrite lookup_take_lt by lia; exact Hrow).
  rewrite IH by lia.
  apply step_frame; [lia|].
  intros Ho. apply (open_entry_earlier cfg df i ltac:(lia) Ho).
Qed.

Lemma simulate_take cfg df n :
  (n <= length df)%nat -> simulate cfg (take n df) = state_at cfg df n.
Proof.
  intros Hn. rewrite <- state_at_end, length_take_le by exact Hn.
  apply state_at_frame; lia.
Qed.

(** A position still open when the series ends: the trades and the
    realised P&L are those of the series cut before its entry. *)
Lemma open_at_end_excluded cfg (funding_data : list (Row F)) :
  position_open (final_state funding_data cfg) = true ->
  let df := sort_values funding_data in
  let e := entry_idx (final_state funding_data cfg) in
  let before := simulate cfg (take e df) in
  (e < length df)%nat
  /\ position_open before = false
  /\ trades (final_state funding_data cfg) = trades before
  /\ total_pnl (final_state funding_data cfg) = total_pnl before.
Proof.
  intros Ho. cbv zeta. unfold final_state in *.
  set (df := sort_values funding_data) in *.
  rewrite <- state_at_end in Ho |- *.
  destruct (open_entry_earlier cfg df (length df) (le_n _) Ho) as (Hlt & _).
  destruct (open_since_entry cfg df (length df) (le_n _) Ho) as (Hidle & Htr & Hpnl).
  rewrite simulate_take by lia. auto.
Qed.

(** C7 (as the code has it).  On a non-empty series none of whose rates
    lies strictly below the entry threshold, with a position size that is
    not zero, and with times that pandas can hold (every [fundingTime] fits
    a timestamp, and the last minus the first fits a difference of
    timestamps), [run_backtest] opens no position, records no trade and
    returns a result whose [pnl_per_trade], [win_rate] and
    [avg_hold_periods] are the integer 0; no fault is raised. *)
Theorem never_entering_is_neutral cfg (funding_data : list (Row F)) :
  funding_data <> [] ->
  never_below cfg funding_data ->
  eqb (position_size cfg) (of_Z 0) = false ->
  to_datetime_ok funding_data = true ->
  timedelta_ok (sort_values funding_data) = true ->
  Forall (fun s => position_open s = false /\ trades s = [])
         (trace cfg (sort_values funding_data))
  /\ exists r,
       run_backtest funding_data cfg = Metrics r
       /\ total_trades r = 0%Z
       /\ r_trades r = []
       /\ pnl_per_trade r = PyInt 0
       /\ win_rate r = PyInt 0
       /\ avg_hold_periods r = PyInt 0.
Proof.
  intros Hne Hnb Hsize Htimes Hspan.
  pose proof (never_below_sorted cfg funding_data Hnb) as Hsorted.
  split.
  - unfold trace.
    eapply Forall_impl;
      [apply (trace_loop_never_below cfg _ 0 _ init eq_refl Hsorted)|].
    intros s ->. split; reflexivity.
  - unfold run_backtest. destruct funding_data as [|row rest]; [congruence|].
    rewrite Htimes, Hspan.
    unfold simulate.
    rewrite (run_loop_never_below cfg _ 0 _ init eq_refl Hsorted).
    unfold annualized_return_of.
    destruct (days_of (sort_values (row :: rest)) =? 0)%Z eqn:Hd.
    + apply Z.eqb_eq in Hd. destruct (days_of_nonzero _ Hd).
    + simpl. rewrite Hsize.
      eexists. split; [reflexivity|]. simpl. repeat split; reflexivity.
Qed.

End Properties.

Lemma never_entering_is_neutral_witness :
  exists r,
    run_backtest (series [ 0.0%float; (-0.001)%float ]) default_config = Metrics r
    /\ total_trades r = 0%Z
    /\ pnl_per_trade r = PyInt 0.
Proof.
  destruct (never_entering_is_neutral default_config
              (series [ 0.0%float; (-0.001)%float ]))
    as (_ & r & Hr & Htrades & _ & Hpnl & _).
  - discriminate.
  - repeat constructor.
  - vm_compute; reflexivity.
  - reflexivity.
  - reflexivity.
  - exists r. auto.
Defined.

(** With a position size of 0 the annualized return divides the integer 0
    by zero: [run_backtest] raises instead of returning the neutral metrics. *)
Lemma zero_size_raises :
  series [ 0.0%float ] <> []
  /\ never_below zero_size_config (series [ 0.0%float ])
  /\ run_backtest (series [ 0.0%float ]) zero_size_config = Raise ZeroDivisionError.
Proof.
  split; [discriminate|]. split; [repeat constructor|].
  vm_compute. reflexivity.
Qed.

(** A time beyond the year 2262 stops the run before the loop, and two times
    further apart than 292 years stop it after the loop, whatever the rates
    and the position size are. *)
Lemma out_of_bounds_times_raise :
  run_backtest
    [ {| fundingTime := 0; fundingRate := 0.0%float; row_symbol := None |};
      {| fundingTime := 10000000000000000; fundingRate := 0.0%float;
         row_symbol := None |} ] default_config
  = Raise OutOfBoundsDatetime
  /\ run_backtest
       [ {| fundingTime := - MAX_MS; fundingRate := 0.0%float; row_symbol := None |};
         {| fundingTime := 1; fundingRate := 0.0%float; row_symbol := None |} ]
       default_config
     = Raise OutOfBoundsDatetime.
Proof. split; vm_compute; reflexivity. Qed.

(** *** The example run *)

(** C5 (as the code has it).  On the series [-0.002, -0.0018, -0.0002, 0.0]
    with the default thresholds -0.0015 and -0.0005, the replay opens one
    position at index 0 and closes it at index 2: one trade is recorded, of
    2 periods.  The entry adds [(entry_cost + slippage) * position_size] to
    the costs; each later period in which the position is open adds
    [-rate * position_size] to the funding and
    [borrow_rate_8h * position_size] to the costs (and the closing period
    [exit_cost * position_size] as well).  The accrual rules hold for every
    configuration and state. *)
Theorem example_run_one_trade :
  let cfg := default_config in
  let df := sort_values example_series in
  let tr := trace cfg df in
  df = example_series
  /\ List.map position_open tr = [ true; true; false; false ]
  /\ List.map (fun s => length (trades s)) tr = [ 0; 0; 1; 1 ]%nat
  /\ (exists s0, tr !! 0%nat = Some s0 /\ entry_idx s0 = 0%nat)
  /\ (exists r t,
        run_backtest example_series cfg = Metrics r
        /\ total_trades r = 1%Z
        /\ r_trades r = [ t ]
        /\ trades (final_state example_series cfg) = [ t ]
        /\ periods t = 2%Z
        /\ entry_time t = timestamp_at df 0
        /\ exit_time t = timestamp_at df 2)
  /\ (let c0 := iadd (PyInt 0)
                   (mul (add (entry_cost cfg) (slippage cfg)) (position_size cfg)) in
      let c1 := iadd c0 (mul (borrow_rate_8h cfg) (position_size cfg)) in
      let c2 := iadd (iadd c1 (mul (borrow_rate_8h cfg) (position_size cfg)))
                     (mul (exit_cost cfg) (position_size cfg)) in
      List.map total_costs tr = [ c0; c1; c2; c2 ])
  /\ (let f1 := iadd (PyInt 0) (mul (neg (-0.0018)%float) (position_size cfg)) in
      let f2 := iadd f1 (mul (neg (-0.0002)%float) (position_size cfg)) in
      List.map total_funding tr = [ PyInt 0; f1; f2; f2 ])
  /\ (forall (cfg' : BacktestConfig float) df' i row st,
        position_open st = false ->
        ltb (fundingRate row) (entry_threshold cfg') = true ->
        let st' := step cfg' df' i row st in
        position_open st' = true /\ entry_idx st' = i
        /\ entry_rate st' = fundingRate row
        /\ total_funding st' = total_funding st
        /\ total_costs st' =
             iadd (total_costs st)
                  (mul (add (entry_cost cfg') (slippage cfg')) (position_size cfg')))
  /\ (forall (cfg' : BacktestConfig float) df' i row st,
        position_open st = true ->
        let st' := step cfg' df' i row st in
        total_funding st' =
          iadd (total_funding st) (mul (neg (fundingRate row)) (position_size cfg'))
        /\ total_costs st' =
             (let held := iadd (total_costs st)
                               (mul (borrow_rate_8h cfg') (position_size cfg')) in
              if ltb (exit_threshold cfg') (fundingRate row)
              then iadd held (mul (exit_cost cfg') (position_size cfg'))
              else held)).
Proof.
  intros cfg df tr.
  split; [vm_compute; reflexivity|].
  split; [vm_compute; reflexivity|].
  split; [vm_compute; reflexivity|].
  split; [eexists; split; vm_compute; reflexivity|].
  split.
  { eexists. eexists. split; [vm_compute; reflexivity|].
    repeat split; vm_compute; reflexivity. }
  split; [vm_compute; reflexivity|].
  split; [vm_compute; reflexivity|].
  split.
  - intros cfg' df' i row st Ho Hr st'. subst st'.
    rewrite (step_idle_enter cfg' df' i row st Ho Hr). simpl. auto.
  - intros cfg' df' i row st Ho st'.
    destruct (step_open_accrues cfg' df' i row st Ho) as (Hf & Hc & _).
    split; assumption.
Qed.

Lemma example_run_one_trade_witness :
  let st' := step default_config example_series 0
               {| fundingTime := 0; fundingRate := (-0.002)%float; row_symbol := None |}
               init in
  position_open st' = true /\ total_costs st' = Float64 2%float.
Proof.
  destruct example_run_one_trade as (_ & _ & _ & _ & _ & _ & _ & Henter & _).
  destruct (Henter default_config example_series 0%nat
              {| fundingTime := 0; fundingRate := (-0.002)%float; row_symbol := None |}
              init) as (Ho & _ & _ & _ & Hc).
  - reflexivity.
  - vm_compute; reflexivity.
  - split; [exact Ho|]. rewrite Hc. vm_compute. reflexivity.
Defined.

(** At the entry of the example run the costs grow by 2.0, which is
    [(entry_cost + slippage) * position_size], and not by
    [entry_cost + slippage] = 0.002. *)
Lemma example_entry_accrual_scaled :
  exists s0,
    trace default_config (sort_values example_series) !! 0%nat = Some s0
    /\ position_open s0 = true
    /\ to_float (total_costs s0) = 2%float
    /\ add (to_float (total_costs (@init float _)))
           (add (entry_cost default_config) (slippage default_config)) = 0.002%float
    /\ ~ spec_entry_accrual default_config init s0.
Proof.
  eexists. split; [vm_compute; reflexivity|].
  split; [reflexivity|].
  split; [vm_compute; reflexivity|].
  split; [vm_compute; reflexivity|].
  unfold spec_entry_accrual. intros H.
  apply (f_equal (fun x => PrimFloat.eqb x 2%float)) in H.
  vm_compute in H. discriminate H.
Qed.

(** *** A position still open at the end *)

(** Two runs with the same outcome, one ending with an open position and one
    ending idle. *)
Lemma same_outcome_open_and_idle :
  position_open (final_state ends_open_series free_entry_config) = true
  /\ position_open (final_state ends_idle_series free_entry_config) = false
  /\ run_backtest ends_open_series free_entry_config
     = run_backtest ends_idle_series free_entry_config.
Proof. vm_compute. repeat split; reflexivity. Qed.

(** C6 (as the code has it).  When a position is still open at the last
    observation, the completed-trade statistics are those of the series cut
    before that position's entry: it adds no trade record and no realised
    P&L, and the trade count, the listed trades, [total_pnl],
    [pnl_per_trade], [win_rate] and [avg_hold_periods] of the result do not
    depend on it.  The result does not report the open position: a run that
    ends open and a run that ends idle can return the same result. *)
Theorem open_at_end_excluded_unreported (cfg : BacktestConfig float)
  (funding_data : list (Row float)) :
  position_open (final_state funding_data cfg) = true ->
  (let df := sort_values funding_data in
   let e := entry_idx (final_state funding_data cfg) in
   let before := simulate cfg (take e df) in
   (e < length df)%nat
   /\ position_open before = false
   /\ trades (final_state funding_data cfg) = trades before
   /\ total_pnl (final_state funding_data cfg) = total_pnl before
   /\ forall r, run_backtest funding_data cfg = Metrics r ->
        total_trades r = Z.of_nat (length (trades before))
        /\ r_trades r = last_ten (trades before)
        /\ r_total_pnl r = total_pnl before
        /\ pnl_per_trade r = pnl_per_trade_of (total_pnl before) (trades before)
        /\ win_rate r = win_rate_of (trades before)
        /\ avg_hold_periods r = avg_hold_periods_of (trades before))
  /\ (exists (cfg0 : BacktestConfig float) (ends_open ends_idle : list (Row float)),
        position_open (final_state ends_open cfg0) = true
        /\ position_open (final_state ends_idle cfg0) = false
        /\ run_backtest ends_open cfg0 = run_backtest ends_idle cfg0).
Proof.
  intros Ho. split.
  - destruct (open_at_end_excluded cfg funding_data Ho) as (He & Hidle & Htr & Hpnl).
    cbv zeta in *. repeat (split; [assumption|]).
    intros r Hr. unfold final_state in *. unfold run_backtest in Hr.
    destruct funding_data as [|row rest]; [discriminate|]. cbv zeta in Hr.
    destruct (to_datetime_ok (row :: rest)); [|discriminate].
    destruct (timedelta_ok (sort_values (row :: rest))); [|discriminate].
    destruct (annualized_return_of cfg (total_pnl (simulate cfg (sort_values (row :: rest))))
                (days_of (sort_values (row :: rest)))) as [e|a]; [discriminate|].
    injection Hr as <-.
    cbn [total_trades r_trades r_total_pnl pnl_per_trade win_rate avg_hold_periods].
    change (insert_row row (sort_values rest)) with (sort_values (row :: rest)).
    rewrite Htr, Hpnl. repeat split; reflexivity.
  - exists free_entry_config, ends_open_series, ends_idle_series.
    exact same_outcome_open_and_idle.
Qed.

Lemma open_at_end_excluded_unreported_witness :
  trades (final_state ends_open_series default_config)
  = trades (simulate default_config (take 2 (sort_values ends_open_series)))
  /\ total_pnl (final_state ends_open_series default_config)
     = total_pnl (simulate default_config (take 2 (sort_values ends_open_series))).
Proof.
  destruct (open_at_end_excluded_unreported default_config ends_open_series)
    as ((_ & _ & Htr & Hpnl & _) & _).
  - vm_compute; reflexivity.
  - split; [exact Htr | exact Hpnl].
Defined.

(** No reading of the result tells whether a position is still open. *)
Lemma open_position_not_reported :
  ~ exists report : Outcome float -> bool,
      forall (funding_data : list (Row float)) (cfg : BacktestConfig float),
        report (run_backtest funding_data cfg)
        = position_open (final_state funding_data cfg).
Proof.
  intros (report & Hreport).
  destruct same_outcome_open_and_idle as (Hopen & Hidle & Hsame).
  pose proof (Hreport ends_open_series free_entry_config) as H1.
  pose proof (Hreport ends_idle_series free_entry_config) as H2.
  rewrite Hsame, H2, Hidle in H1. rewrite Hopen in H1. discriminate H1.
Qed.

(** *** The accounting of funding *)

Section Accounting.
Context {F : Type} {N : Num F}.
Implicit Types (cfg : BacktestConfig F) (df rows : list (Row F)) (st : State F).

Lemma py_sum_snoc (l : list F) (x : F) : py_sum (l ++ [x]) = add (py_sum l) x.
Proof. unfold py_sum. rewrite fold_left_app. reflexivity. Qed.

(** Every recorded trade spans the rows from its entry to its exit. *)
Lemma trades_span cfg df i :
  (i <= length df)%nat ->
  Forall (trade_spans cfg df) (trades (state_at cfg df i)).
Proof.
  induction i as [|i IH]; intros Hi.
  - rewrite state_at_0. constructor.
  - destruct (lookup_lt_is_Some_2 df i ltac:(lia)) as [row Hrow].
    rewrite (state_at_S cfg df i row Hrow).
    specialize (IH ltac:(lia)).
    destruct (position_open (state_at cfg df i)) eqn:Hprev.
    + destruct (open_entry_earlier cfg df i ltac:(lia) Hprev) as (Hlt & r & Hr & Hrate).
      unfold step. rewrite Hprev. simpl.
      destruct (ltb (exit_threshold cfg) (fundingRate row)); simpl; [|exact IH].
      apply Forall_app. split; [exact IH|].
      constructor; [|constructor].
      exists (entry_idx (state_at cfg df i)), i, r. simpl.
      unfold timestamp_at. rewrite Hr, Hrow.
      repeat split; try reflexivity; try assumption; lia.
    + destruct (ltb (fundingRate row) (entry_threshold cfg)) eqn:Hent.
      * rewrite (step_idle_enter cfg df i row _ Hprev Hent). exact IH.
      * rewrite (step_idle_stay cfg df i row _ Hprev Hent). exact IH.
Qed.

(** Funding is added to [total_funding] in the iterations that find the
    position open, which all come after the entry. *)
Lemma total_funding_step cfg df i row :
  df !! i = Some row ->
  total_funding (state_at cfg df (S i))
  = (if position_open (state_at cfg df i)
     then iadd (total_funding (state_at cfg df i)) (funding_of cfg row)
     else total_funding (state_at cfg df i))
  /\ (position_open (state_at cfg df i) = true ->
      (entry_idx (state_at cfg df i) < i)%nat).
Proof.
  intros Hrow. rewrite (state_at_S cfg df i row Hrow).
  assert (Hi : (i < length df)%nat) by (apply lookup_lt_Some in Hrow; exact Hrow).
  split.
  - destruct (position_open (state_at cfg df i)) eqn:Hprev.
    + apply (step_open_accrues cfg df i row _ Hprev).
    + unfold step. rewrite Hprev. simpl.
      destruct (ltb (fundingRate row) (entry_threshold cfg)); reflexivity.
  - intros Ho. apply (open_entry_earlier cfg df i ltac:(lia) Ho).
Qed.

(** The rows after the entry, up to and including row [i]. *)
Lemma held_rows_snoc df e i row :
  (e < i)%nat -> df !! i = Some row ->
  take (S i - S e) (drop (S e) df) = take (i - S e) (drop (S e) df) ++ [row].
Proof.
  intros He Hrow.
  replace (S i - S e)%nat with (S (i - S e)) by lia.
  apply take_S_r. rewrite lookup_drop.
  replace (S e + (i - S e))%nat with i by lia. exact Hrow.
Qed.

Lemma spanned_rows df e i r row :
  (e < i)%nat -> df !! e = Some r -> df !! i = Some row ->
  take (S i - e) (drop e df) = r :: take (i - S e) (drop (S e) df) ++ [row].
Proof.
  intros He Hr Hrow.
  rewrite (drop_S df r e Hr).
  replace (S i - e)%nat with (S (S i - S e)) by lia.
  rewrite firstn_cons, (held_rows_snoc df e i row He Hrow). reflexivity.
Qed.

Section Exact.
Hypothesis Hexact : exact_add N.

Lemma add_0_l (x : F) : add (of_Z 0) x = x.
Proof. apply Hexact. Qed.

Lemma add_comm (x y : F) : add x y = add y x.
Proof. apply Hexact. Qed.

Lemma add_assoc (x y z : F) : add (add x y) z = add x (add y z).
Proof. apply Hexact. Qed.

Lemma add_0_r (x : F) : add x (of_Z 0) = x.
Proof. rewrite add_comm. apply add_0_l. Qed.

Lemma py_sum_cons (x : F) (l : list F) : py_sum (x :: l) = add x (py_sum l).
Proof.
  induction l as [|y l IH] using rev_ind.
  - unfold py_sum. simpl. rewrite add_0_l, add_0_r. reflexivity.
  - rewrite app_comm_cons, !py_sum_snoc, IH. apply add_assoc.
Qed.

Lemma balance_hold (a fi sef sfc p : F) :
  add a sef = add sfc p -> add (add a fi) sef = add sfc (add p fi).
Proof.
  intros K.
  rewrite add_assoc, (add_comm fi sef), <- add_assoc, K. apply add_assoc.
Qed.

Lemma balance_exit (a fi sef fe sfc p : F) :
  add a sef = add sfc p ->
  add (add a fi) (add sef fe) = add (add sfc (add fe (add p fi))) (of_Z 0).
Proof.
  intros K.
  rewrite add_0_r, <- add_assoc, (balance_hold a fi sef sfc p K).
  rewrite add_assoc, (add_comm (add p fi) fe). reflexivity.
Qed.

(** Without rounding, the funding booked in [total_funding] and the
    entry-period funding of the trades add up to the funding collected
    by the trades and the funding pending in the open position. *)
Lemma funding_balance cfg df i :
  (i <= length df)%nat ->
  let st := state_at cfg df i in
  add (to_float (total_funding st)) (entry_funding_sum cfg (trades st))
  = add (collected_sum (trades st)) (pending_funding cfg df i st).
Proof.
  induction i as [|i IH]; intros Hi; cbv zeta.
  - rewrite state_at_0. reflexivity.
  - destruct (lookup_lt_is_Some_2 df i ltac:(lia)) as [row Hrow].
    rewrite (state_at_S cfg df i row Hrow).
    specialize (IH ltac:(lia)). cbv zeta in IH.
    unfold pending_funding in IH |- *.
    destruct (position_open (state_at cfg df i)) eqn:Hprev.
    + destruct (open_entry_earlier cfg df i ltac:(lia) Hprev) as (Hlt & r & Hr & Hrate).
      destruct (ltb (exit_threshold cfg) (fundingRate row)) eqn:Hx.
      * rewrite (step_open_exit cfg df i row _ Hprev Hx).
        cbn [position_open trades total_funding entry_idx].
        unfold entry_funding_sum, collected_sum, iadd. cbn [to_float].
        rewrite !map_app. cbn [List.map]. rewrite !py_sum_snoc.
        unfold closing_trade. cbn [avg_funding funding_collected].
        rewrite Hrate. unfold trade_funding_of.
        rewrite (spanned_rows df _ i r row Hlt Hr Hrow).
        rewrite map_cons, map_app. cbn [List.map]. rewrite py_sum_cons, py_sum_snoc.
        apply balance_exit. exact IH.
      * rewrite (step_open_hold cfg df i row _ Hprev Hx).
        cbn [position_open trades total_funding entry_idx].
        unfold iadd. cbn [to_float].
        rewrite (held_rows_snoc df _ i row Hlt Hrow).
        rewrite map_app. cbn [List.map]. rewrite py_sum_snoc.
        apply balance_hold. exact IH.
    + destruct (ltb (fundingRate row) (entry_threshold cfg)) eqn:Hent.
      * rewrite (step_idle_enter cfg df i row _ Hprev Hent). simpl.
        rewrite Nat.sub_diag. simpl. exact IH.
      * rewrite (step_idle_stay cfg df i row _ Hprev Hent), Hprev. exact IH.
Qed.

End Exact.

(** C10 (as the code has it).  Each completed trade's
    [funding_collected] is the sum of [-fundingRate * position_size] over
    the rows from its entry through its exit, both included, so it
    contains the entry period's funding.  [total_funding] grows only in
    iterations that find a position open, all of them after that
    position's entry, whether or not the position is ever closed.  In
    arithmetic without rounding, and when no position is left open at the
    end, the trades' [funding_collected] add up to [total_funding] plus
    the entry-period funding of every trade. *)
Theorem funding_accounting cfg (funding_data : list (Row F)) :
  let df := sort_values funding_data in
  let st := final_state funding_data cfg in
  st = state_at cfg df (length df)
  /\ Forall (trade_spans cfg df) (trades st)
  /\ (forall i row,
        df !! i = Some row ->
        total_funding (state_at cfg df (S i))
        = (if position_open (state_at cfg df i)
           then iadd (total_funding (state_at cfg df i)) (funding_of cfg row)
           else total_funding (state_at cfg df i))
        /\ (position_open (state_at cfg df i) = true ->
            (entry_idx (state_at cfg df i) < i)%nat))
  /\ (exact_add N ->
      position_open st = false ->
      collected_sum (trades st)
      = add (to_float (total_funding st)) (entry_funding_sum cfg (trades st))).
Proof.
  cbv zeta. unfold final_state.
  set (df := sort_values funding_data).
  rewrite <- (state_at_end cfg df).
  split; [reflexivity|].
  split; [apply trades_span; lia|].
  split; [apply total_funding_step|].
  intros Hexact Hidle.
  pose proof (funding_balance Hexact cfg df (length df) (le_n _)) as Hb.
  cbv zeta in Hb. unfold pending_funding in Hb. rewrite Hidle in Hb.
  rewrite Hb. symmetry. apply (add_0_r Hexact).
Qed.

End Accounting.

Lemma Qc_exact_add : exact_add Qc_num.
Proof.
  split; [|split]; simpl.
  - intros x. apply Qcplus_0_l.
  - intros x y. apply Qcplus_comm.
  - intros x y z. symmetry. apply Qcplus_assoc.
Qed.

Lemma funding_accounting_witness :
  let st := final_state exact_series exact_config in
  length (trades st) = 2%nat
  /\ collected_sum (trades st)
     = add (to_float (total_funding st)) (entry_funding_sum exact_config (trades st)).
Proof.
  destruct (funding_accounting exact_config exact_series) as (_ & _ & _ & Hsum).
  split.
  - vm_compute. reflexivity.
  - apply Hsum.
    + exact Qc_exact_add.
    + vm_compute. reflexivity.
Defined.

(** A trade entered at a nonzero rate, followed by a position that is still
    open at the end: [total_funding] holds funding of the open position, and
    the gap to the trade's collected funding is not the entry-period
    funding. *)
Lemma funding_gap_with_open_position :
  let st := final_state reopened_series default_config in
  List.map avg_funding (trades st) = [ (-0.002)%float ]
  /\ collected_sum (trades st) = 2%float
  /\ to_float (total_funding st) = 1.8%float
  /\ entry_funding_sum default_config (trades st) = 2%float
  /\ ~ spec_funding_gap default_config st.
Proof.
  cbv zeta.
  split; [vm_compute; reflexivity|].
  split; [vm_compute; reflexivity|].
  split; [vm_compute; reflexivity|].
  split; [vm_compute; reflexivity|].
  unfold spec_funding_gap. intros H.
  apply (f_equal (fun x => PrimFloat.ltb x 1%float)) in H.
  vm_compute in H. discriminate H.
Qed.

(** In binary64 the sums round: even with no position left open, the gap
    between the collected funding and [total_funding] need not be the
    entry-period funding to the last bit. *)
Lemma funding_gap_rounds :
  let st := final_state rounding_series default_config in
  position_open st = false
  /\ collected_sum (trades st) = 4.2999999999999989%float
  /\ to_float (total_funding st) = 2%float
  /\ entry_funding_sum default_config (trades st) = 2.2999999999999998%float
  /\ ~ spec_funding_gap default_config st
  /\ collected_sum (trades st)
     <> add (to_float (total_funding st)) (entry_funding_sum default_config (trades st)).
Proof.
  cbv zeta.
  split; [vm_compute; reflexivity|].
  split; [vm_compute; reflexivity|].
  split; [vm_compute; reflexivity|].
  split; [vm_compute; reflexivity|].
  split.
  - unfold spec_funding_gap. intros H.
    apply (f_equal (fun x => PrimFloat.eqb x 2.2999999999999998%float)) in H.
    vm_compute in H. discriminate H.
  - intros H.
    apply (f_equal (fun x => PrimFloat.eqb x 4.2999999999999989%float)) in H.
    vm_compute in H. discriminate H.
Qed.

End Backtest.

(** ** [execution/executor.py]: the two-leg executor

    An exception is modelled by its class and message.  A clock reading gives
    [time.time()] together with the two integers the code derives from it.
    Every [place_order] is taken to run without suspending, so the two legs
    that [asyncio.gather] starts run one after the other, the long leg first;
    each exchange name is taken to have a client object of its own. *)

Module Executor.
#[local] Open Scope float_scope.

Record PyExn := {
  exn_class : string;
  exn_msg : string;
}.

Definition KeyError (key : string) : PyExn :=
  {| exn_class := "KeyError"; exn_msg := key |}.
Definition ValueError (msg : string) : PyExn :=
  {| exn_class := "ValueError"; exn_msg := msg |}.
Definition ZeroDivisionError : PyExn :=
  {| exn_class := "ZeroDivisionError"; exn_msg := "float division by zero" |}.
Definition TypeError : PyExn :=
  {| exn_class := "TypeError"; exn_msg := "unsupported operand type(s)" |}.

Record Clock := {
  time_f : float;     (* [time.time()] *)
  time_s : Z;         (* [int(time.time())] *)
  time_ms : Z;        (* [int(time.time()*1000)] *)
}.

Inductive Side := LONG | SHORT.
Inductive OrderType := MARKET | LIMIT.

#[export] Instance Side_eq_dec : EqDecision Side.
Proof. solve_decision. Defined.

Record Order := {
  o_exchange : string;
  o_symbol : string;
  o_side : Side;
  o_size : float;
  order_type : OrderType;
  price : option float;
  order_id : option string;
  o_status : string;
  fill_price : option float;
  filled_size : float;
}.

(** [Order(exchange=..., symbol=..., side=..., size=..., order_type=...)] *)
Definition new_order (exchange symbol : string) (side : Side) (size : float)
  (order_type : OrderType) : Order :=
  {| o_exchange := exchange;
     o_symbol := symbol;
     o_side := side;
     o_size := size;
     order_type := order_type;
     price := None;
     order_id := None;
     o_status := "pending";
     fill_price := None;
     filled_size := 0 |}.

Record Position := {
  p_exchange : string;
  p_symbol : string;
  p_side : Side;
  p_size : float;
  entry_price : option float;
  p_entry_time : float;
  p_pnl : float;
  p_funding_collected : float;
}.

(** [Position(exchange=..., ..., entry_time=...)] *)
Definition new_position (exchange symbol : string) (side : Side) (size : float)
  (entry_price : option float) (entry_time : float) : Position :=
  {| p_exchange := exchange;
     p_symbol := symbol;
     p_side := side;
     p_size := size;
     entry_price := entry_price;
     p_entry_time := entry_time;
     p_pnl := 0;
     p_funding_collected := 0 |}.

Record ArbPosition := {
  id : string;
  long_leg : Position;
  short_leg : Position;
  base_asset : string;
  entry_time : float;
  target_funding_rate : float;
  total_funding_collected : float;
  total_pnl : float;
  status : string;
}.

(** [pos.status = value] *)
Definition set_status (value : string) (pos : ArbPosition) : ArbPosition :=
  {| id := id pos;
     long_leg := long_leg pos;
     short_leg := short_leg pos;
     base_asset := base_asset pos;
     entry_time := entry_time pos;
     target_funding_rate := target_funding_rate pos;
     total_funding_collected := total_funding_collected pos;
     total_pnl := total_pnl pos;
     status := value |}.

(** [ExchangeClient]: an object with a state of its own and a [place_order]
    that either returns the order or raises.  (The executor calls no other
    method of the interface.) *)
Record ExchangeClient := {
  client_state : Type;
  client_now : client_state;
  place_order : client_state -> Clock -> Order -> client_state * (PyExn + Order);
}.

(** [client.place_order(order)]: the client after the call and the outcome. *)
Definition call_place_order (c : ExchangeClient) (clock : Clock) (order : Order)
  : ExchangeClient * (PyExn + Order) :=
  let '(s', res) := place_order c (client_now c) clock order in
  ({| client_state := client_state c; client_now := s'; place_order := place_order c |},
   res).

(** *** [SimulatedClient] *)

Record SimState := {
  sim_exchange : string;
  balance : float;
  positions : gmap string Position;
  orders : list Order;
}.

(** [SimulatedClient.place_order] *)
Definition sim_place_order (self : SimState) (clock : Clock) (order : Order)
  : SimState * (PyExn + Order) :=
  let fill :=
    match price order with
    | Some p => if PrimFloat.eqb p 0 then 100 else p
    | None => 100
    end in
  let order' :=
    {| o_exchange := o_exchange order;
       o_symbol := o_symbol order;
       o_side := o_side order;
       o_size := o_size order;
       order_type := order_type order;
       price := price order;
       order_id := Some ("sim_" +:+ pretty (time_ms clock))%string;
       o_status := "filled";
       fill_price := Some fill;
       filled_size := o_size order |} in
  let filled := filled_size order' in
  let updated : PyExn + gmap string Position :=
    match positions self !! o_symbol order with
    | Some pos =>
        if decide (p_side pos = o_side order) then
          let new_size := p_size pos + filled in
          match entry_price pos with
          | None => inl TypeError
          | Some ep =>
              if PrimFloat.eqb new_size 0 then inl ZeroDivisionError
              else
                inr (<[o_symbol order :=
                         {| p_exchange := p_exchange pos;
                            p_symbol := p_symbol pos;
                            p_side := p_side pos;
                            p_size := new_size;
                            entry_price := Some ((ep * p_size pos + fill * filled) / new_size);
                            p_entry_time := p_entry_time pos;
                            p_pnl := p_pnl pos;
                            p_funding_collected := p_funding_collected pos |}]>
                       (positions self))
          end
        else if PyFloat.geb filled (p_size pos) then
          inr (delete (o_symbol order) (positions self))
        else
          inr (<[o_symbol order :=
                   {| p_exchange := p_exchange pos;
                      p_symbol := p_symbol pos;
                      p_side := p_side pos;
                      p_size := p_size pos - filled;
                      entry_price := entry_price pos;
                      p_entry_time := p_entry_time pos;
                      p_pnl := p_pnl pos;
                      p_funding_collected := p_funding_collected pos |}]>
                 (positions self))
    | None =>
        inr (<[o_symbol order :=
                 new_position (sim_exchange self) (o_symbol order) (o_side order)
                   filled (Some fill) (time_f clock)]>
               (positions self))
    end in
  match updated with
  | inl e => (self, inl e)
  | inr positions' =>
      ({| sim_exchange := sim_exchange self;
          balance := balance self;
          positions := positions';
          orders := orders self ++ [order'] |},
       inr order')
  end.

(** [SimulatedClient(exchange)] *)
Definition SimulatedClient (exchange : string) : ExchangeClient :=
  {| client_state := SimState;
     client_now := {| sim_exchange := exchange; balance := 10000;
                      positions := ∅; orders := [] |};
     place_order := sim_place_order |}.

(** A client whose [place_order] raises, as a venue that times out does. *)
Definition FailingClient (e : PyExn) : ExchangeClient :=
  {| client_state := unit;
     client_now := tt;
     place_order := fun s _ _ => (s, inl e) |}.

(** A client that fills half of every order. *)
Definition HalfFillClient : ExchangeClient :=
  {| client_state := unit;
     client_now := tt;
     place_order := fun s clock order =>
       (s, inr {| o_exchange := o_exchange order;
                  o_symbol := o_symbol order;
                  o_side := o_side order;
                  o_size := o_size order;
                  order_type := order_type order;
                  price := price order;
                  order_id := Some "half"%string;
                  o_status := "partially_filled";
                  fill_price := Some 100;
                  filled_size := o_size order / 2 |}) |}.

(** *** [ArbExecutor] *)

(** The executor with the [ArbPosition] objects it has created.  An
    [ArbPosition] is an object: [objects] holds them by reference (the index),
    and [active_positions] maps a position id to a reference, so that a
    caller who kept the reference returned by [open_position] sees what
    [close_position] writes into the object. *)
Record ArbExecutor := {
  clients : gmap string ExchangeClient;
  active_positions : gmap string nat;
  objects : list ArbPosition;
}.

(** [ArbExecutor(clients)] *)
Definition new_executor (clients : gmap string ExchangeClient) : ArbExecutor :=
  {| clients := clients; active_positions := ∅; objects := [] |}.

(** Every active position refers to an object. *)
Definition well_formed (self : ArbExecutor) : Prop :=
  forall pos_id ref, active_positions self !! pos_id = Some ref ->
                     is_Some (objects self !! ref).

(** One leg: the client of [exchange] places [order]. *)
Definition place_leg (clients : gmap string ExchangeClient) (clock : Clock)
  (exchange : string) (order : Order)
  : gmap string ExchangeClient * (PyExn + Order) :=
  match clients !! exchange with
  | Some client =>
      let '(client', res) := call_place_order client clock order in
      (<[exchange := client']> clients, res)
  | None => (clients, inl (KeyError exchange))
  end.

(** [await asyncio.gather(long_client.place_order(long_order),
                          short_client.place_order(short_order))]:
    both legs run; the first fault, if any, is raised to the caller. *)
Definition gather_legs (clients : gmap string ExchangeClient) (clock : Clock)
  (long_exchange : string) (long_order : Order)
  (short_exchange : string) (short_order : Order)
  : gmap string ExchangeClient * (PyExn + Order * Order) :=
  let '(clients1, long_res) := place_leg clients clock long_exchange long_order in
  let '(clients2, short_res) := place_leg clients1 clock short_exchange short_order in
  (clients2,
   match long_res, short_res with
   | inl e, _ => inl e
   | inr _, inl e => inl e
   | inr long_result, inr short_result => inr (long_result, short_result)
   end).

(** [ArbExecutor.open_position]; a returned position is given by reference. *)
Definition open_position (self : ArbExecutor) (clock : Clock)
  (long_exchange short_exchange symbol base_asset : string)
  (size_usd funding_rate : float) : ArbExecutor * (PyExn + nat) :=
  match clients self !! long_exchange with
  | None => (self, inl (KeyError long_exchange))
  | Some _ =>
  match clients self !! short_exchange with
  | None => (self, inl (KeyError short_exchange))
  | Some _ =>
      let size := size_usd / 100 in
      let long_order := new_order long_exchange symbol LONG size MARKET in
      let short_order := new_order short_exchange symbol SHORT size MARKET in
      match gather_legs (clients self) clock
              long_exchange long_order short_exchange short_order with
      | (clients', inl e) =>
          ({| clients := clients';
              active_positions := active_positions self;
              objects := objects self |},
           inl e)
      | (clients', inr (long_result, short_result)) =>
          let pos_id := ("arb_" +:+ pretty (time_s clock))%string in
          let arb_pos :=
            {| id := pos_id;
               long_leg :=
                 new_position long_exchange symbol LONG
                   (filled_size long_result) (fill_price long_result) (time_f clock);
               short_leg :=
                 new_position short_exchange symbol SHORT
                   (filled_size short_result) (fill_price short_result) (time_f clock);
               base_asset := base_asset;
               entry_time := time_f clock;
               target_funding_rate := funding_rate;
               total_funding_collected := 0;
               total_pnl := 0;
               status := "open" |} in
          let ref := length (objects self) in
          ({| clients := clients';
              active_positions := <[pos_id := ref]> (active_positions self);
              objects := objects self ++ [arb_pos] |},
           inr ref)
      end
  end
  end.

(** The dict that [close_position] returns. *)
Record CloseSummary := {
  cs_pos_id : string;
  cs_total_funding : float;
  cs_total_pnl : float;
}.

(** [ArbExecutor.close_position] *)
Definition close_position (self : ArbExecutor) (clock : Clock) (pos_id : string)
  : ArbExecutor * (PyExn + CloseSummary) :=
  match active_positions self !! pos_id with
  | None => (self, inl (ValueError ("Position " +:+ pos_id +:+ " not found")))
  | Some ref =>
  match objects self !! ref with
  | None => (self, inl (KeyError pos_id))   (* no such state: see [well_formed] *)
  | Some pos =>
  match clients self !! p_exchange (long_leg pos) with
  | None => (self, inl (KeyError (p_exchange (long_leg pos))))
  | Some _ =>
  match clients self !! p_exchange (short_leg pos) with
  | None => (self, inl (KeyError (p_exchange (short_leg pos))))
  | Some _ =>
      let close_long :=
        new_order (p_exchange (long_leg pos)) (p_symbol (long_leg pos)) SHORT
          (p_size (long_leg pos)) MARKET in
      let close_short :=
        new_order (p_exchange (short_leg pos)) (p_symbol (short_leg pos)) LONG
          (p_size (short_leg pos)) MARKET in
      match gather_legs (clients self) clock
              (p_exchange (long_leg pos)) close_long
              (p_exchange (short_leg pos)) close_short with
      | (clients', inl e) =>
          ({| clients := clients';
              active_positions := active_positions self;
              objects := objects self |},
           inl e)
      | (clients', inr _) =>
          ({| clients := clients';
              active_positions := delete pos_id (active_positions self);
              objects := <[ref := set_status "closed" pos]> (objects self) |},
           inr {| cs_pos_id := pos_id;
                  cs_total_funding := total_funding_collected pos;
                  cs_total_pnl := total_pnl pos |})
      end
  end
  end
  end
  end.

(** The executor of [test_executor], and a clock reading. *)
Definition test_clients : gmap string ExchangeClient :=
  <["binance" := SimulatedClient "binance"]>
    (<["bybit" := SimulatedClient "bybit"]> ∅).

Definition test_clock : Clock :=
  {| time_f := 1700000000.5; time_s := 1700000000; time_ms := 1700000000500 |}.

Definition timeout_error : PyExn :=
  {| exn_class := "TimeoutError"; exn_msg := "order timed out" |}.

(** The fault the specification names for a leg imbalance. *)
Definition spec_is_leg_imbalance (e : PyExn) : bool :=
  String.eqb (exn_class e) "LegImbalanceError".

(** The delta-neutrality the specification words: the two legs' sizes differ
    by no more than [tolerance]. *)
Definition spec_sizes_match (tolerance : float) (pos : ArbPosition) : bool :=
  PrimFloat.leb (PrimFloat.abs (p_size (long_leg pos) - p_size (short_leg pos))) tolerance.

(** The executors used as examples: the short venue times out, or fills
    half of the order. *)
Definition short_fails_executor : ArbExecutor :=
  new_executor (<["bybit" := FailingClient timeout_error]> test_clients).

Definition short_half_executor : ArbExecutor :=
  new_executor (<["bybit" := HalfFillClient]> test_clients).

(** The executor of [test_executor] after its [open_position]. *)
Definition opened_executor : ArbExecutor :=
  fst (open_position (new_executor test_clients) test_clock
         "binance" "bybit" "SOLUSDT" "SOL" 1000 (-0.002)).

(** *** The two legs *)

Lemma place_leg_found clients clock exchange order client :
  clients !! exchange = Some client ->
  place_leg clients clock exchange order
  = (<[exchange := fst (call_place_order client clock order)]> clients,
     snd (call_place_order client clock order)).
Proof.
  intros Hc. unfold place_leg. rewrite Hc.
  destruct (call_place_order client clock order). reflexivity.
Qed.

Lemma gather_legs_both clients clock le lo se so lc sc :
  clients !! le = Some lc ->
  <[le := fst (call_place_order lc clock lo)]> clients !! se = Some sc ->
  gather_legs clients clock le lo se so
  = (<[se := fst (call_place_order sc clock so)]>
       (<[le := fst (call_place_order lc clock lo)]> clients),
     match snd (call_place_order lc clock lo), snd (call_place_order sc clock so) with
     | inl e, _ => inl e
     | inr _, inl e => inl e
     | inr long_result, inr short_result => inr (long_result, short_result)
     end).
Proof.
  intros Hl Hs. unfold gather_legs.
  rewrite (place_leg_found clients clock le lo lc Hl).
  rewrite (place_leg_found _ clock se so sc Hs). reflexivity.
Qed.

(** The short client as the long leg leaves it. *)
Lemma short_client_found (clients : gmap string ExchangeClient) le se
  (lc' : ExchangeClient) :
  is_Some (clients !! le) -> is_Some (clients !! se) ->
  is_Some (<[le := lc']> clients !! se).
Proof.
  intros _ Hs. destruct (decide (le = se)) as [->|Hne].
  - rewrite lookup_insert_eq. eauto.
  - rewrite lookup_insert_ne by exact Hne. exact Hs.
Qed.

(** A short client found after the long leg was there before it. *)
Lemma short_client_before (clients : gmap string ExchangeClient) le se
  (lc lc' sc : ExchangeClient) :
  clients !! le = Some lc ->
  <[le := lc']> clients !! se = Some sc ->
  is_Some (clients !! se).
Proof.
  intros Hl Hs. destruct (decide (le = se)) as [<-|Hne].
  - eauto.
  - rewrite lookup_insert_ne in Hs by exact Hne. eauto.
Qed.

(** [SimulatedClient] fills every order it accepts in full. *)
Lemma sim_place_order_fills self clock order self' result :
  sim_place_order self clock order = (self', inr result) ->
  filled_size result = o_size order /\ o_status result = "filled"%string.
Proof.
  unfold sim_place_order. intros H.
  repeat match type of H with
         | context [match ?x with _ => _ end] => destruct x
         end;
    try discriminate; injection H as _ <-; split; reflexivity.
Qed.

(** *** Opening a position *)

(** C1 (as the code has it).  When the long leg's [place_order] returns and
    the short leg's [place_order] raises a fault [e], [open_position] raises
    that same fault [e] to its caller: nothing is returned, no
    [ArbPosition] is created and [active_positions] is unchanged.  The fault
    is the venue's own; the executor wraps it in no fault of its own, and
    the long leg stays filled at its venue. *)
Theorem open_position_short_leg_fault (self : ArbExecutor) (clock : Clock)
  (long_exchange short_exchange symbol base_asset : string)
  (size_usd funding_rate : float)
  (long_client short_client : ExchangeClient) (long_result : Order) (e : PyExn) :
  let size := size_usd / 100 in
  let long_order := new_order long_exchange symbol LONG size MARKET in
  let short_order := new_order short_exchange symbol SHORT size MARKET in
  let clients1 :=
    <[long_exchange := fst (call_place_order long_client clock long_order)]>
      (clients self) in
  clients self !! long_exchange = Some long_client ->
  snd (call_place_order long_client clock long_order) = inr long_result ->
  clients1 !! short_exchange = Some short_client ->
  snd (call_place_order short_client clock short_order) = inl e ->
  exists self',
    open_position self clock long_exchange short_exchange symbol base_asset
      size_usd funding_rate = (self', inl e)
    /\ active_positions self' = active_positions self
    /\ objects self' = objects self
    /\ clients self' =
         <[short_exchange := fst (call_place_order short_client clock short_order)]>
           clients1.
Proof.
  intros size long_order short_order clients1 Hl Hlong Hs Hshort.
  destruct (short_client_before _ _ _ _ _ _ Hl Hs) as [sc0 Hs0].
  unfold open_position. rewrite Hl, Hs0.
  fold size. fold long_order. fold short_order.
  rewrite (gather_legs_both (clients self) clock long_exchange long_order
             short_exchange short_order long_client short_client Hl Hs).
  rewrite Hlong, Hshort.
  eexists. split; [reflexivity|]. simpl. auto.
Qed.

Lemma open_position_short_leg_fault_witness :
  exists self',
    open_position short_fails_executor test_clock
      "binance" "bybit" "SOLUSDT" "SOL" 1000 (-0.002) = (self', inl timeout_error)
    /\ active_positions self' = ∅.
Proof.
  destruct (open_position_short_leg_fault short_fails_executor test_clock
              "binance" "bybit" "SOLUSDT" "SOL" 1000 (-0.002)
              (SimulatedClient "binance") (FailingClient timeout_error)
              (match snd (call_place_order (SimulatedClient "binance") test_clock
                            (new_order "binance" "SOLUSDT" LONG (1000 / 100) MARKET)) with
               | inr o => o
               | inl _ => new_order "" "" LONG 0 MARKET
               end)
              timeout_error)
    as (self' & Hopen & Hact & _).
  - vm_compute; reflexivity.
  - vm_compute; reflexivity.
  - vm_compute; reflexivity.
  - reflexivity.
  - exists self'. split; [exact Hopen|]. rewrite Hact. reflexivity.
Defined.

(** The short venue times out after the long venue has filled: the caller
    receives the [TimeoutError] itself, which is no [LegImbalanceError]. *)
Lemma short_leg_fault_is_not_leg_imbalance :
  let long_order := new_order "binance" "SOLUSDT" LONG (1000 / 100) MARKET in
  (exists o, snd (call_place_order (SimulatedClient "binance") test_clock long_order)
             = inr o)
  /\ snd (open_position short_fails_executor test_clock
            "binance" "bybit" "SOLUSDT" "SOL" 1000 (-0.002)) = inl timeout_error
  /\ exn_class timeout_error = "TimeoutError"%string
  /\ spec_is_leg_imbalance timeout_error = false.
Proof.
  cbv zeta. split; [eexists; vm_compute; reflexivity|].
  split; [vm_compute; reflexivity|]. split; reflexivity.
Qed.

(** C2 (as the code has it).  An [ArbPosition] produced by [open_position]
    records as the size of each leg the [filled_size] that the leg's venue
    reported, and is registered under its id.  When both venues fill the
    order in full, as [SimulatedClient] does, both legs have the size
    [size_usd / 100] and so the same size.  No tolerance is consulted:
    whenever both venues return an order, whatever sizes they report as
    filled, a position is produced and no fault is raised. *)
Theorem open_position_leg_sizes (self : ArbExecutor) (clock : Clock)
  (long_exchange short_exchange symbol base_asset : string)
  (size_usd funding_rate : float) :
  let size := size_usd / 100 in
  let long_order := new_order long_exchange symbol LONG size MARKET in
  let short_order := new_order short_exchange symbol SHORT size MARKET in
  let out := open_position self clock long_exchange short_exchange symbol base_asset
               size_usd funding_rate in
  (forall (self' : ArbExecutor) (ref : nat),
      out = (self', inr ref) ->
      exists (pos : ArbPosition) (long_client short_client : ExchangeClient)
             (long_result short_result : Order),
        clients self !! long_exchange = Some long_client
        /\ snd (call_place_order long_client clock long_order) = inr long_result
        /\ <[long_exchange := fst (call_place_order long_client clock long_order)]>
             (clients self) !! short_exchange = Some short_client
        /\ snd (call_place_order short_client clock short_order) = inr short_result
        /\ objects self' !! ref = Some pos
        /\ active_positions self' !! id pos = Some ref
        /\ status pos = "open"%string
        /\ p_size (long_leg pos) = filled_size long_result
        /\ p_size (short_leg pos) = filled_size short_result
        /\ (filled_size long_result = o_size long_order ->
            filled_size short_result = o_size short_order ->
            p_size (long_leg pos) = size /\ p_size (short_leg pos) = size
            /\ p_size (long_leg pos) = p_size (short_leg pos)))
  /\ (forall (long_client short_client : ExchangeClient) (long_result short_result : Order),
        clients self !! long_exchange = Some long_client ->
        snd (call_place_order long_client clock long_order) = inr long_result ->
        <[long_exchange := fst (call_place_order long_client clock long_order)]>
          (clients self) !! short_exchange = Some short_client ->
        snd (call_place_order short_client clock short_order) = inr short_result ->
        exists self', out = (self', inr (length (objects self)))).
Proof.
  intros size long_order short_order out. subst out. split.
  - intros self' ref Hopen. unfold open_position in Hopen.
    destruct (clients self !! long_exchange) as [lc|] eqn:Hl; [|discriminate].
    destruct (clients self !! short_exchange) as [sc0|] eqn:Hs0; [|discriminate].
    fold size in Hopen. fold long_order in Hopen. fold short_order in Hopen.
    destruct (short_client_found (clients self) long_exchange short_exchange
                (fst (call_place_order lc clock long_order))) as [sc Hs]; eauto.
    rewrite (gather_legs_both (clients self) clock long_exchange long_order
               short_exchange short_order lc sc Hl Hs) in Hopen.
    destruct (snd (call_place_order lc clock long_order)) as [e|long_result] eqn:Hlong;
      [discriminate|].
    destruct (snd (call_place_order sc clock short_order)) as [e|short_result] eqn:Hshort;
      [discriminate|].
    injection Hopen as <- <-.
    eexists _, lc, sc, long_result, short_result.
    split; [reflexivity|]. split; [exact Hlong|]. split; [exact Hs|].
    split; [exact Hshort|]. cbn [objects active_positions].
    split; [apply list_lookup_middle; reflexivity|].
    cbn [id status long_leg short_leg new_position p_size].
    split; [apply lookup_insert_eq|].
    split; [reflexivity|]. split; [reflexivity|]. split; [reflexivity|].
    intros -> ->. simpl. auto.
  - intros lc sc long_result short_result Hl Hlong Hs Hshort.
    destruct (short_client_before _ _ _ _ _ _ Hl Hs) as [sc0 Hs0].
    unfold open_position. rewrite Hl, Hs0.
    fold size. fold long_order. fold short_order.
    rewrite (gather_legs_both (clients self) clock long_exchange long_order
               short_exchange short_order lc sc Hl Hs).
    rewrite Hlong, Hshort. eexists. reflexivity.
Qed.

Lemma open_position_leg_sizes_witness :
  exists pos,
    objects opened_executor !! 0%nat = Some pos
    /\ p_size (long_leg pos) = 10 /\ p_size (short_leg pos) = 10.
Proof.
  destruct (open_position_leg_sizes (new_executor test_clients)
              test_clock "binance" "bybit" "SOLUSDT" "SOL" 1000 (-0.002))
    as (Hsizes & _).
  destruct (Hsizes opened_executor 0%nat)
    as (pos & lc & sc & lr & sr & _ & _ & _ & _ & Hobj & _ & _ & _ & _ & _).
  - vm_compute; reflexivity.
  - exists pos. split; [exact Hobj|].
    vm_compute in Hobj. injection Hobj as <-. split; reflexivity.
Defined.

(** A short venue that fills half of the order: [open_position] returns a
    position of 10 units long against 5 units short, and raises nothing. *)
Lemma half_filled_short_leg_accepted :
  let out := open_position short_half_executor test_clock
               "binance" "bybit" "SOLUSDT" "SOL" 1000 (-0.002) in
  snd out = inr 0%nat
  /\ List.map (fun pos => (p_size (long_leg pos), p_size (short_leg pos), status pos))
       (objects (fst out)) = [ (10, 5, "open"%string) ]
  /\ List.map (spec_sizes_match 1) (objects (fst out)) = [ false ].
Proof. vm_compute. repeat split; reflexivity. Qed.

(** *** Closing a position *)

Lemma new_executor_well_formed clients : well_formed (new_executor clients).
Proof. intros pos_id ref H. simpl in H. rewrite lookup_empty in H. discriminate. Qed.

Lemma open_position_well_formed self clock le se symbol base size_usd rate :
  well_formed self ->
  well_formed (fst (open_position self clock le se symbol base size_usd rate)).
Proof.
  intros Hwf. unfold open_position.
  destruct (clients self !! le); [|exact Hwf].
  destruct (clients self !! se); [|exact Hwf].
  destruct (gather_legs _ _ _ _ _ _) as [clients' [err|[long_result short_result]]];
    simpl; [exact Hwf|].
  intros pos_id ref. unfold well_formed in Hwf. simpl.
  destruct (decide ("arb_" +:+ pretty (time_s clock) = pos_id)) as [<-|Hne].
  - rewrite lookup_insert_eq. intros [= <-].
    rewrite list_lookup_middle by reflexivity. eauto.
  - rewrite lookup_insert_ne by exact Hne. intros H.
    destruct (Hwf pos_id ref H) as [pos Hpos].
    rewrite (lookup_app_l_Some _ _ _ _ Hpos). eauto.
Qed.

Lemma close_position_well_formed self clock pos_id :
  well_formed self -> well_formed (fst (close_position self clock pos_id)).
Proof.
  intros Hwf. unfold close_position.
  destruct (active_positions self !! pos_id) as [ref|]; [|exact Hwf].
  destruct (objects self !! ref) as [pos|]; [|exact Hwf].
  destruct (clients self !! p_exchange (long_leg pos)); [|exact Hwf].
  destruct (clients self !! p_exchange (short_leg pos)); [|exact Hwf].
  destruct (gather_legs _ _ _ _ _ _) as [clients' [err|legs]]; simpl; [exact Hwf|].
  intros pos_id' ref' H. simpl in H.
  apply lookup_delete_Some in H as [_ H].
  apply lookup_lt_is_Some_2. cbn [objects]. rewrite length_insert.
  apply lookup_lt_is_Some_1. exact (Hwf pos_id' ref' H).
Qed.

(** C9.  [close_position] on an id that is no key of [active_positions]
    raises a [ValueError] and changes nothing.  On an id that is present,
    when both closing orders fill, it writes the status "closed" into the
    position, removes the id from [active_positions] and returns a summary
    with the id and the position's [total_funding_collected] and
    [total_pnl]. *)
Theorem close_position_spec (self : ArbExecutor) (clock : Clock) (pos_id : string) :
  (active_positions self !! pos_id = None ->
   exists e,
     close_position self clock pos_id = (self, inl e)
     /\ exn_class e = "ValueError"%string)
  /\ (forall (ref : nat) (pos : ArbPosition) (long_client short_client : ExchangeClient)
             (long_result short_result : Order),
        let close_long :=
          new_order (p_exchange (long_leg pos)) (p_symbol (long_leg pos)) SHORT
            (p_size (long_leg pos)) MARKET in
        let close_short :=
          new_order (p_exchange (short_leg pos)) (p_symbol (short_leg pos)) LONG
            (p_size (short_leg pos)) MARKET in
        let clients1 :=
          <[p_exchange (long_leg pos) :=
              fst (call_place_order long_client clock close_long)]> (clients self) in
        active_positions self !! pos_id = Some ref ->
        objects self !! ref = Some pos ->
        clients self !! p_exchange (long_leg pos) = Some long_client ->
        snd (call_place_order long_client clock close_long) = inr long_result ->
        clients1 !! p_exchange (short_leg pos) = Some short_client ->
        snd (call_place_order short_client clock close_short) = inr short_result ->
        exists self',
          close_position self clock pos_id
          = (self', inr {| cs_pos_id := pos_id;
                           cs_total_funding := total_funding_collected pos;
                           cs_total_pnl := total_pnl pos |})
          /\ objects self' !! ref = Some (set_status "closed" pos)
          /\ status (set_status "closed" pos) = "closed"%string
          /\ active_positions self' = delete pos_id (active_positions self)
          /\ active_positions self' !! pos_id = None).
Proof.
  split.
  - intros Hnone. unfold close_position. rewrite Hnone.
    eexists. split; reflexivity.
  - intros ref pos lc sc long_result short_result close_long close_short clients1
      Hact Hobj Hl Hlong Hs Hshort.
    destruct (short_client_before _ _ _ _ _ _ Hl Hs) as [sc0 Hs0].
    unfold close_position. rewrite Hact, Hobj, Hl, Hs0.
    fold close_long. fold close_short.
    rewrite (gather_legs_both (clients self) clock _ close_long _ close_short
               lc sc Hl Hs).
    rewrite Hlong, Hshort.
    eexists. split; [reflexivity|]. cbn [objects active_positions].
    split.
    { apply list_lookup_insert_eq. apply lookup_lt_Some in Hobj. exact Hobj. }
    split; [reflexivity|]. split; [reflexivity|].
    apply lookup_delete_eq.
Qed.

Lemma close_position_spec_witness :
  (exists e, close_position opened_executor test_clock "arb_0" = (opened_executor, inl e)
             /\ exn_class e = "ValueError"%string)
  /\ (exists self',
        fst (close_position opened_executor test_clock "arb_1700000000") = self'
        /\ snd (close_position opened_executor test_clock "arb_1700000000")
           = inr {| cs_pos_id := "arb_1700000000";
                    cs_total_funding := 0; cs_total_pnl := 0 |}
        /\ active_positions self' !! "arb_1700000000"%string = None).
Proof.
  split.
  - destruct (close_position_spec opened_executor test_clock "arb_0") as (Hmiss & _).
    apply Hmiss. vm_compute. reflexivity.
  - destruct (close_position_spec opened_executor test_clock "arb_1700000000")
      as (_ & Hclose).
    edestruct (Hclose 0%nat) as (self' & Heq & _ & _ & _ & Hgone).
    + vm_compute; reflexivity.
    + vm_compute; reflexivity.
    + vm_compute; reflexivity.
    + vm_compute; reflexivity.
    + vm_compute; reflexivity.
    + vm_compute; reflexivity.
    + exists self'. rewrite Heq. split; [reflexivity|]. split; [reflexivity|].
      exact Hgone.
Defined.

End Executor.

(** ** More on Python floats: NaN *)

Module PyFloatNaN.
Import PyFloat.

Lemma is_nan_spec x : is_nan x = true <-> Prim2SF x = S754_nan.
Proof.
  unfold is_nan. rewrite eqb_cmp. unfold cmp. split.
  - intros H. destruct (Prim2SF x) as [s|s| |s m e] eqn:Hx; try reflexivity.
    + rewrite SFcompare_refl in H by discriminate. discriminate.
    + rewrite SFcompare_refl in H by discriminate. discriminate.
    + rewrite SFcompare_refl in H by discriminate. discriminate.
  - intros ->. reflexivity.
Qed.

Lemma is_nan_false_spec x : is_nan x = false <-> Prim2SF x <> S754_nan.
Proof.
  rewrite <- is_nan_spec. destruct (is_nan x); split; congruence.
Qed.

(** A NaN operand makes the result a NaN. *)
Lemma is_nan_opp x : is_nan x = true -> is_nan (PrimFloat.opp x) = true.
Proof. rewrite !is_nan_spec, opp_spec. intros ->. reflexivity. Qed.

Lemma is_nan_sub_l x y : is_nan x = true -> is_nan (PrimFloat.sub x y) = true.
Proof. rewrite !is_nan_spec, sub_spec. intros ->. reflexivity. Qed.

Lemma is_nan_mul_l x y : is_nan x = true -> is_nan (PrimFloat.mul x y) = true.
Proof. rewrite !is_nan_spec, mul_spec. intros ->. reflexivity. Qed.

Lemma is_nan_add_l x y : is_nan x = true -> is_nan (PrimFloat.add x y) = true.
Proof. rewrite !is_nan_spec, add_spec. intros ->. reflexivity. Qed.

Lemma is_nan_add_r x y : is_nan y = true -> is_nan (PrimFloat.add x y) = true.
Proof.
  rewrite !is_nan_spec, add_spec. intros ->. destruct (Prim2SF x); reflexivity.
Qed.

(** A float that is [>=] another is no NaN, nor is the other. *)
Lemma geb_not_nan x y : geb x y = true -> is_nan x = false /\ is_nan y = false.
Proof.
  intros H. apply geb_cmp in H as (c & Hc & _). split.
  - rewrite (cmp_antisym y x) in Hc.
    destruct (cmp y x) as [c'|] eqn:Hyx; [|discriminate].
    unfold is_nan. rewrite eqb_cmp, (cmp_some_refl_r _ _ _ Hyx). reflexivity.
  - unfold is_nan. rewrite eqb_cmp, (cmp_some_refl_r _ _ _ Hc). reflexivity.
Qed.

Lemma zero_not_nan : is_nan 0 = false.
Proof. reflexivity. Qed.

(** A number that is not [>= y] is [< y]. *)
Lemma not_geb_ltb x y :
  is_nan x = false -> is_nan y = false -> geb x y = false -> PrimFloat.ltb x y = true.
Proof.
  intros Hx Hy. destruct (cmp_total x y Hx Hy) as [c Hc].
  unfold geb. rewrite ltb_cmp, leb_cmp, (cmp_antisym x y), Hc.
  destruct c; simpl; congruence.
Qed.

(** [x < y] and [x > y] exclude each other and [x == y]. *)
Lemma ltb_not_gtb x y : PrimFloat.ltb x y = true -> gtb x y = false.
Proof.
  unfold gtb. rewrite !ltb_cmp, (cmp_antisym x y).
  destruct (cmp x y) as [[]|]; simpl; congruence.
Qed.

Lemma eqb_not_ltb x y : PrimFloat.eqb x y = true -> PrimFloat.ltb x y = false /\ gtb x y = false.
Proof.
  unfold gtb. rewrite eqb_cmp, !ltb_cmp, (cmp_antisym x y).
  destruct (cmp x y) as [[]|]; simpl; split; congruence.
Qed.

Lemma eqb_geb x y : PrimFloat.eqb x y = true -> geb x y = true.
Proof.
  unfold geb. rewrite eqb_cmp, leb_cmp, (cmp_antisym x y).
  destruct (cmp x y) as [[]|]; simpl; congruence.
Qed.

End PyFloatNaN.

(** ** [models/opportunity_scorer.py]: the filter pipeline as a whole *)

Module ScorerProps.
Import Config Scorer.
#[local] Open Scope float_scope.

Lemma list_ascii_of_string_app (a b : string) :
  list_ascii_of_string (a +:+ b) = list_ascii_of_string a ++ list_ascii_of_string b.
Proof. induction a as [|c a IH]; simpl; [reflexivity|]. rewrite IH. reflexivity. Qed.

Lemma endswith_app (base x : string) : PyStr.endswith (base +:+ x) x = true.
Proof.
  unfold PyStr.endswith. apply bool_decide_eq_true.
  exists (list_ascii_of_string base). apply list_ascii_of_string_app.
Qed.

Lemma suffixes_nonempty x : x ∈ suffixes -> (0 < String.length x)%nat.
Proof.
  unfold suffixes. rewrite !elem_of_cons, elem_of_nil.
  intros [->|[->|[->|[->|[->|[]]]]]]; simpl; lia.
Qed.

(** X2.  Cutting a listed suffix undoes appending it: for every base and
    every suffix of the list, the base asset of [base + suffix] is [base],
    also when [base] itself ends with a suffix or is empty; so a symbol is
    whitelisted exactly when the text before its suffix is in the whitelist. *)
Theorem extract_base_asset_round_trip (cfg : Config) (base x : string) :
  x ∈ suffixes ->
  extract_base_asset (base +:+ x) = base
  /\ Monitor.extract_base (base +:+ x) = base
  /\ is_whitelisted cfg (base +:+ x) = bool_decide (base ∈ symbol_whitelist cfg).
Proof.
  intros Hx.
  assert (Hbase : extract_base_asset (base +:+ x) = base).
  { rewrite (extract_base_asset_any_match (base +:+ x) x Hx (endswith_app base x)).
    rewrite <- (string_of_list_ascii_of_string (base +:+ x)).
    rewrite list_ascii_of_string_app.
    rewrite (PyStr.drop_last_app _ x (suffixes_nonempty x Hx)).
    apply string_of_list_ascii_of_string. }
  split; [exact Hbase|]. split.
  - rewrite extract_base_same. exact Hbase.
  - unfold is_whitelisted. rewrite Hbase. reflexivity.
Qed.

Lemma extract_base_asset_round_trip_witness :
  extract_base_asset ("BTCUSDT" +:+ "USDT") = "BTCUSDT"%string
  /\ extract_base_asset ("" +:+ "-USD-SWAP") = ""%string.
Proof.
  split.
  - apply (extract_base_asset_round_trip load_config "BTCUSDT" "USDT").
    unfold suffixes. rewrite !elem_of_cons. auto.
  - apply (extract_base_asset_round_trip load_config "" "-USD-SWAP").
    unfold suffixes. rewrite !elem_of_cons. auto 10.
Defined.

(** *** Fees *)

(** *** What [score_all] returns *)

Lemma calculate_opportunity_Some cfg now rd o :
  calculate_opportunity cfg now rd = Some o ->
  PyFloat.geb (rd_rate rd) 0 = false
  /\ is_whitelisted cfg (rd_symbol rd) = true
  /\ PyFloat.gtb (rd_rate rd) (min_funding_rate (trading cfg)) = false
  /\ exchange o = rd_exchange rd
  /\ symbol o = rd_symbol rd
  /\ funding_rate o = rd_rate rd
  /\ base_asset o = extract_base_asset (rd_symbol rd)
  /\ timestamp o = now
  /\ net_yield_annualized o =
       (- rd_rate rd - borrow_cost_8h o
        - (entry_cost o + exit_cost o + slippage_cost o) / 3) * 3 * 365 * 100.
Proof.
  unfold calculate_opportunity. intros H.
  destruct (PyFloat.geb (rd_rate rd) 0); [discriminate|].
  destruct (is_whitelisted cfg (rd_symbol rd)); [|discriminate].
  destruct (PyFloat.gtb (rd_rate rd) (min_funding_rate (trading cfg))); [discriminate|].
  simpl in H. destruct (get_fees (costs cfg) (rd_exchange rd)) as [maker_fee taker_fee].
  injection H as <-. simpl. repeat split; reflexivity.
Qed.

(** The opportunities kept by the loop, by the position of their observation. *)
Lemma collect_elem cfg clock i rates o :
  o ∈ collect cfg clock i rates <->
  exists j rd,
    rates !! j = Some rd
    /\ calculate_opportunity cfg (clock (i + j)%nat) rd = Some o
    /\ PyFloat.geb (net_yield_annualized o) (min_net_yield_pct (trading cfg)) = true.
Proof.
  revert i. induction rates as [|rate rest IH]; intros i; simpl.
  - rewrite elem_of_nil. split; [contradiction|]. intros (j & rd & H & _).
    rewrite lookup_nil in H. discriminate.
  - assert (Hrest :
      o ∈ collect cfg clock (S i) rest <->
      exists j rd, (rate :: rest) !! S j = Some rd
        /\ calculate_opportunity cfg (clock (i + S j)%nat) rd = Some o
        /\ PyFloat.geb (net_yield_annualized o) (min_net_yield_pct (trading cfg)) = true).
    { rewrite IH. split; intros (j & rd & H1 & H2 & H3); exists j, rd; simpl in *;
        rewrite ?Nat.add_succ_r in *; auto. }
    assert (Hsplit :
      (exists j rd, (rate :: rest) !! j = Some rd
        /\ calculate_opportunity cfg (clock (i + j)%nat) rd = Some o
        /\ PyFloat.geb (net_yield_annualized o) (min_net_yield_pct (trading cfg)) = true)
      <-> (calculate_opportunity cfg (clock i) rate = Some o
           /\ PyFloat.geb (net_yield_annualized o) (min_net_yield_pct (trading cfg)) = true)
          \/ o ∈ collect cfg clock (S i) rest).
    { rewrite Hrest. split.
      - intros (j & rd & H1 & H2 & H3). destruct j as [|j].
        + simpl in H1. injection H1 as <-. rewrite Nat.add_0_r in H2. left. auto.
        + right. exists j, rd. auto.
      - intros [[H2 H3]|(j & rd & H1 & H2 & H3)].
        + exists 0%nat, rate. rewrite Nat.add_0_r. auto.
        + exists (S j), rd. auto. }
    rewrite Hsplit.
    destruct (calculate_opportunity cfg (clock i) rate) as [opp|] eqn:Hopp.
    + destruct (PyFloat.geb (net_yield_annualized opp) (min_net_yield_pct (trading cfg)))
        eqn:Hge.
      * rewrite elem_of_cons. split.
        -- intros [->|Hin]; [left; auto|right; exact Hin].
        -- intros [[[= ->] _]|Hin]; [left; reflexivity|right; exact Hin].
      * split; [intros Hin; right; exact Hin|].
        intros [[[= ->] Hge']|Hin]; [congruence|exact Hin].
    + split; [intros Hin; right; exact Hin|].
      intros [[Hd _]|Hin]; [discriminate|exact Hin].
Qed.

(** A NaN rate gives a NaN net yield. *)
Lemma nan_rate_nan_yield (r b c : float) :
  PyFloat.is_nan r = true ->
  PyFloat.is_nan ((- r - b - c) * 3 * 365 * 100) = true.
Proof.
  intros Hr.
  repeat apply PyFloatNaN.is_nan_mul_l. repeat apply PyFloatNaN.is_nan_sub_l.
  apply PyFloatNaN.is_nan_opp. exact Hr.
Qed.

(** X1.  Every opportunity in the list that [score_all] returns comes from an
    observation of the input, whose exchange, symbol and rate it carries; its
    funding rate is a number strictly below 0 and not above the minimum
    funding rate, its base asset is the one extracted from the symbol and is
    in the whitelist, and its annualized net yield reaches the configured
    minimum. *)
Theorem score_all_guarantees cfg clock rates o :
  o ∈ score_all cfg clock rates ->
  (exists i rd,
     rates !! i = Some rd
     /\ exchange o = rd_exchange rd /\ symbol o = rd_symbol rd
     /\ funding_rate o = rd_rate rd /\ timestamp o = clock i)
  /\ PrimFloat.ltb (funding_rate o) 0 = true
  /\ PyFloat.gtb (funding_rate o) (min_funding_rate (trading cfg)) = false
  /\ base_asset o = extract_base_asset (symbol o)
  /\ base_asset o ∈ symbol_whitelist cfg
  /\ PyFloat.geb (net_yield_annualized o) (min_net_yield_pct (trading cfg)) = true.
Proof.
  intros Hin. unfold score_all in Hin. rewrite sort_desc_perm in Hin.
  apply collect_elem in Hin as (j & rd & Hrd & Hcalc & Hge).
  destruct (calculate_opportunity_Some _ _ _ _ Hcalc)
    as (Hneg & Hwl & Hmin & Hex & Hsym & Hrate & Hbase & Hts & Hyield).
  split; [exists j, rd; auto|].
  rewrite Hrate, Hbase, Hsym. split; [|split; [exact Hmin|split; [reflexivity|split]]].
  - apply PyFloatNaN.not_geb_ltb; [|reflexivity|exact Hneg].
    destruct (PyFloat.is_nan (rd_rate rd)) eqn:Hnan; [|reflexivity].
    apply PyFloatNaN.geb_not_nan in Hge as [Hy _].
    rewrite Hyield, (nan_rate_nan_yield _ _ _ Hnan) in Hy. discriminate.
  - unfold is_whitelisted in Hwl. apply bool_decide_eq_true in Hwl. exact Hwl.
  - exact Hge.
Qed.

Lemma score_all_guarantees_witness :
  exists o,
    o ∈ score_all load_config (fun _ => "t"%string) [ada_binance; btc_binance]
    /\ PrimFloat.ltb (funding_rate o) 0 = true.
Proof.
  assert (Hex : exists o,
             o ∈ score_all load_config (fun _ => "t"%string) [ada_binance; btc_binance]).
  { destruct (score_all load_config (fun _ => "t"%string) [ada_binance; btc_binance])
      as [|o rest] eqn:E; [vm_compute in E; discriminate E|].
    exists o. apply list_elem_of_here. }
  destruct Hex as [o Hin].
  exists o. split; [exact Hin|].
  destruct (score_all_guarantees load_config (fun _ => "t"%string)
              [ada_binance; btc_binance] o Hin) as (_ & Hneg & _).
  exact Hneg.
Defined.

(** X4.  [score_all] keeps exactly the observations that pass the pipeline:
    an opportunity is returned if and only if it is what
    [calculate_opportunity] makes of some observation of the input and its net
    yield reaches the minimum.  Nothing is added and no passing observation is
    dropped: the result is never longer than the input. *)
Theorem score_all_keeps_exactly cfg clock rates :
  (forall o,
      o ∈ score_all cfg clock rates <->
      exists i rd,
        rates !! i = Some rd
        /\ calculate_opportunity cfg (clock i) rd = Some o
        /\ PyFloat.geb (net_yield_annualized o) (min_net_yield_pct (trading cfg)) = true)
  /\ (length (score_all cfg clock rates) <= length rates)%nat.
Proof.
  split.
  - intros o. unfold score_all. rewrite sort_desc_perm. apply (collect_elem cfg clock 0).
  - unfold score_all. rewrite sort_desc_perm.
    generalize 0%nat. induction rates as [|rate rest IH]; intros i; simpl; [lia|].
    destruct (calculate_opportunity cfg (clock i) rate) as [opp|].
    + destruct (PyFloat.geb _ _); simpl; specialize (IH (S i)); lia.
    + specialize (IH (S i)). lia.
Qed.

Lemma score_all_keeps_exactly_witness :
  exists o,
    o ∈ score_all load_config (fun _ => "t"%string) [ada_binance; btc_binance]
    /\ symbol o = "BTCUSDT"%string.
Proof.
  destruct (score_all_keeps_exactly load_config (fun _ => "t"%string)
              [ada_binance; btc_binance]) as (Hiff & _).
  destruct (calculate_opportunity load_config "t" btc_binance) as [o|] eqn:E;
    [|vm_compute in E; discriminate E].
  exists o. split.
  - apply Hiff. exists 1%nat, btc_binance. split; [reflexivity|]. split; [exact E|].
    vm_compute in E. injection E as <-. vm_compute. reflexivity.
  - vm_compute in E. injection E as <-. reflexivity.
Defined.

End ScorerProps.

(** ** Python's stable sort on a float key, descending

    [sorted(l, key=..., reverse=True)] and [l.sort(key=..., reverse=True)]:
    the sort compares keys with [<] only and is stable, also when reversed. *)

Module PySort.
Section ByKey.
Context {A : Type} (key : A -> float).

Fixpoint insert_desc_by (x : A) (l : list A) : list A :=
  match l with
  | [] => [x]
  | y :: rest =>
      if PrimFloat.ltb (key x) (key y) then y :: insert_desc_by x rest
      else x :: y :: rest
  end.

Definition sort_desc_by (l : list A) : list A := foldr insert_desc_by [] l.

Definition key_ok (a : A) : Prop := PyFloat.is_nan (key a) = false.
Definition key_geb (a b : A) : Prop := PyFloat.geb (key a) (key b) = true.
Definition with_key (k : float) (l : list A) : list A :=
  List.filter (fun a => PrimFloat.eqb (key a) k) l.

Lemma insert_desc_by_perm x l : insert_desc_by x l ≡ₚ x :: l.
Proof.
  induction l as [|y rest IH]; simpl; [reflexivity|].
  destruct (PrimFloat.ltb (key x) (key y)); [|reflexivity].
  rewrite IH. apply Permutation_swap.
Qed.

Lemma sort_desc_by_perm l : sort_desc_by l ≡ₚ l.
Proof.
  induction l as [|x l IH]; simpl; [reflexivity|].
  rewrite insert_desc_by_perm, IH. reflexivity.
Qed.

Lemma insert_desc_by_HdRel y x l :
  key_geb y x -> HdRel key_geb y l -> HdRel key_geb y (insert_desc_by x l).
Proof.
  intros Hyx Hl. destruct l as [|z rest]; simpl.
  - constructor. exact Hyx.
  - destruct (PrimFloat.ltb (key x) (key z)).
    + constructor. inversion Hl; assumption.
    + constructor. exact Hyx.
Qed.

Lemma insert_desc_by_sorted x l :
  key_ok x -> Forall key_ok l -> Sorted key_geb l -> Sorted key_geb (insert_desc_by x l).
Proof.
  intros Hx Hl Hs. induction l as [|y rest IH]; simpl.
  - repeat constructor.
  - apply Forall_cons in Hl as [Hy Hrest].
    apply Sorted_inv in Hs as [Hs Hhd].
    destruct (PrimFloat.ltb (key x) (key y)) eqn:Hlt.
    + constructor; [apply IH; assumption|].
      apply insert_desc_by_HdRel; [|exact Hhd].
      apply PyFloat.ltb_geb_flip. exact Hlt.
    + constructor; [constructor; assumption|].
      constructor. apply PyFloat.not_ltb_geb; assumption.
Qed.

Lemma key_geb_trans a b c : key_geb a b -> key_geb b c -> key_geb a c.
Proof. apply PyFloat.geb_trans. Qed.

(** A list whose keys are numbers is sorted into descending order. *)
Lemma sort_desc_by_sorted l :
  Forall key_ok l -> StronglySorted key_geb (sort_desc_by l).
Proof.
  intros Hl. apply Sorted_StronglySorted; [exact key_geb_trans|].
  induction l as [|x l IH]; simpl; [constructor|].
  apply Forall_cons in Hl as [Hx Hl].
  apply insert_desc_by_sorted; [exact Hx| |apply IH; exact Hl].
  rewrite sort_desc_by_perm. exact Hl.
Qed.

Lemma insert_desc_by_with_key k x l :
  with_key k (insert_desc_by x l) = with_key k (x :: l).
Proof.
  induction l as [|y rest IH]; [reflexivity|]. simpl insert_desc_by.
  destruct (PrimFloat.ltb (key x) (key y)) eqn:Hlt; [|reflexivity].
  unfold with_key in *. simpl in *. rewrite IH.
  destruct (PrimFloat.eqb (key x) k) eqn:Hx;
    destruct (PrimFloat.eqb (key y) k) eqn:Hy; try reflexivity.
  rewrite (PyFloat.eqb_eqb_not_ltb _ _ _ Hx Hy) in Hlt. discriminate.
Qed.

(** Elements of equal key keep their order. *)
Lemma sort_desc_by_with_key k l : with_key k (sort_desc_by l) = with_key k l.
Proof.
  induction l as [|x l IH]; [reflexivity|]. simpl sort_desc_by.
  rewrite insert_desc_by_with_key. unfold with_key in *. simpl. rewrite IH.
  reflexivity.
Qed.

End ByKey.
End PySort.

(** ** [monitor.py]: the alert scan *)

Module MonitorScan.
Import Scorer.
#[local] Open Scope float_scope.

Definition ALERT_FUNDING_THRESHOLD : float := -0.0015.
Definition MIN_NET_YIELD_APR : float := 30.
Definition ROUND_TRIP_COST : float := 0.0024.
Definition BORROW_8H : float := 0.000274.

Definition WHITELIST : gset string :=
  {[ "BTC"; "ETH"; "SOL"; "DOGE"; "XRP"; "ADA"; "AVAX"; "LINK";
     "DOT"; "MATIC"; "UNI"; "ATOM"; "LTC"; "BCH"; "APT"; "ARB";
     "OP"; "INJ"; "SUI"; "SEI"; "TIA"; "JUP"; "PYTH"; "JTO";
     "WIF"; "BONK"; "PEPE"; "SHIB"; "FIL"; "NEAR"; "RENDER" ]}%string.

(** [calculate_net_yield]; the [0] returned for a rate [>= 0] is the integer,
    which compares and prints as the float 0.0 does. *)
Definition calculate_net_yield (funding_rate : float) : float :=
  if PyFloat.geb funding_rate 0 then 0
  else
    let funding_received := - funding_rate in
    let amortized_cost := ROUND_TRIP_COST / 3 in
    let net_8h := funding_received - BORROW_8H - amortized_cost in
    net_8h * 3 * 365 * 100.

(** An entry of the list [find_opportunities] returns: the observation
    ([**r]) with the three keys added to it. *)
Record Alert := {
  a_exchange : string;
  a_symbol : string;
  a_rate : float;
  base : string;
  annualized : float;
  net_yield_apr : float;
}.

(** The loop of [find_opportunities]. *)
Fixpoint scan (rates : list RateData) : list Alert :=
  match rates with
  | [] => []
  | r :: rest =>
      let base := Monitor.extract_base (rd_symbol r) in
      if negb (bool_decide (base ∈ WHITELIST)) then scan rest
      else if PyFloat.geb (rd_rate r) ALERT_FUNDING_THRESHOLD then scan rest
      else
        let net_yield := calculate_net_yield (rd_rate r) in
        if PyFloat.geb net_yield MIN_NET_YIELD_APR then
          {| a_exchange := rd_exchange r;
             a_symbol := rd_symbol r;
             a_rate := rd_rate r;
             base := base;
             annualized := rd_rate r * 3 * 365 * 100;
             net_yield_apr := net_yield |} :: scan rest
        else scan rest
  end.

(** [find_opportunities] *)
Definition find_opportunities (rates : list RateData) : list Alert :=
  PySort.sort_desc_by net_yield_apr (scan rates).

Definition sample_rates : list RateData :=
  [ {| rd_exchange := "binance"; rd_symbol := "SOLUSDT"; rd_rate := -0.002 |};
    {| rd_exchange := "okx"; rd_symbol := "BTC-USDT-SWAP"; rd_rate := -0.003 |};
    {| rd_exchange := "bybit"; rd_symbol := "ETHUSDT"; rd_rate := -0.0015 |};
    {| rd_exchange := "bybit"; rd_symbol := "FOOUSDT"; rd_rate := -0.01 |} ].

(** The alert that the loop makes of an observation. *)
Definition alert_of (r : RateData) : Alert :=
  {| a_exchange := rd_exchange r;
     a_symbol := rd_symbol r;
     a_rate := rd_rate r;
     base := Monitor.extract_base (rd_symbol r);
     annualized := rd_rate r * 3 * 365 * 100;
     net_yield_apr := calculate_net_yield (rd_rate r) |}.

(** The test the loop applies to an observation. *)
Definition kept (r : RateData) : bool :=
  bool_decide (Monitor.extract_base (rd_symbol r) ∈ WHITELIST)
  && negb (PyFloat.geb (rd_rate r) ALERT_FUNDING_THRESHOLD)
  && PyFloat.geb (calculate_net_yield (rd_rate r)) MIN_NET_YIELD_APR.

Lemma scan_filter rates : scan rates = List.map alert_of (List.filter kept rates).
Proof.
  induction rates as [|r rest IH]; [reflexivity|].
  cbn [scan List.filter]. unfold kept at 1.
  destruct (bool_decide (Monitor.extract_base (rd_symbol r) ∈ WHITELIST));
    cbn [negb andb]; [|exact IH].
  destruct (PyFloat.geb (rd_rate r) ALERT_FUNDING_THRESHOLD);
    cbn [negb andb]; [exact IH|].
  destruct (PyFloat.geb (calculate_net_yield (rd_rate r)) MIN_NET_YIELD_APR);
    cbn [negb andb List.map]; [|exact IH].
  rewrite IH. reflexivity.
Qed.

(** A yield of at least 30 is computed by the formula, from a rate that is a
    number. *)
Lemma yield_reached (r : float) :
  PyFloat.geb (calculate_net_yield r) MIN_NET_YIELD_APR = true ->
  PyFloat.geb r 0 = false
  /\ calculate_net_yield r = (- r - BORROW_8H - ROUND_TRIP_COST / 3) * 3 * 365 * 100
  /\ PyFloat.is_nan r = false.
Proof.
  unfold calculate_net_yield. destruct (PyFloat.geb r 0) eqn:Hge.
  - intros H. vm_compute in H. discriminate H.
  - intros H. split; [reflexivity|]. split; [reflexivity|].
    destruct (PyFloat.is_nan r) eqn:Hnan; [|reflexivity].
    apply PyFloatNaN.geb_not_nan in H as [Hy _].
    rewrite (ScorerProps.nan_rate_nan_yield _ _ _ Hnan) in Hy. discriminate.
Qed.

(** X5.  Every alert that [find_opportunities] returns comes from an
    observation of the input, whose exchange, symbol and rate it carries; its
    base asset is in the daemon's whitelist, its rate is a number strictly
    below the alert threshold of -0.0015 (a rate equal to the threshold is not
    reported), its net yield is the one the cost formula gives for that rate
    and is at least 30, and [annualized] is the rate times 3 * 365 * 100. *)
Theorem find_opportunities_guarantees rates a :
  a ∈ find_opportunities rates ->
  (exists i rd,
     rates !! i = Some rd
     /\ a_exchange a = rd_exchange rd /\ a_symbol a = rd_symbol rd
     /\ a_rate a = rd_rate rd)
  /\ base a = Monitor.extract_base (a_symbol a)
  /\ base a ∈ WHITELIST
  /\ PrimFloat.ltb (a_rate a) ALERT_FUNDING_THRESHOLD = true
  /\ PrimFloat.eqb (a_rate a) ALERT_FUNDING_THRESHOLD = false
  /\ net_yield_apr a = (- a_rate a - BORROW_8H - ROUND_TRIP_COST / 3) * 3 * 365 * 100
  /\ PyFloat.geb (net_yield_apr a) MIN_NET_YIELD_APR = true
  /\ annualized a = a_rate a * 3 * 365 * 100.
Proof.
  unfold find_opportunities. rewrite PySort.sort_desc_by_perm, scan_filter.
  intros Hin. apply list_elem_of_In, in_map_iff in Hin as (rd & <- & Hrd).
  apply filter_In in Hrd as [Hrd Hkept]. unfold kept in Hkept.
  apply andb_true_iff in Hkept as [Hkept Hyield].
  apply andb_true_iff in Hkept as [Hwl Hthr].
  apply bool_decide_eq_true in Hwl. apply negb_true_iff in Hthr.
  destruct (yield_reached _ Hyield) as (Hneg & Hformula & Hnum).
  assert (Hlt : PrimFloat.ltb (rd_rate rd) ALERT_FUNDING_THRESHOLD = true)
    by (apply PyFloatNaN.not_geb_ltb; [exact Hnum|reflexivity|exact Hthr]).
  split.
  { apply list_elem_of_In, list_elem_of_lookup in Hrd as [i Hi].
    exists i, rd. cbn [alert_of a_exchange a_symbol a_rate]. auto. }
  cbn [alert_of a_exchange a_symbol a_rate base annualized net_yield_apr].
  repeat split; try assumption.
  destruct (PrimFloat.eqb (rd_rate rd) ALERT_FUNDING_THRESHOLD) eqn:Heq; [|reflexivity].
  apply PyFloatNaN.eqb_not_ltb in Heq as [Hn _]. congruence.
Qed.

Lemma find_opportunities_guarantees_witness :
  exists a,
    a ∈ find_opportunities sample_rates
    /\ PrimFloat.ltb (a_rate a) ALERT_FUNDING_THRESHOLD = true.
Proof.
  assert (Hex : exists a, a ∈ find_opportunities sample_rates).
  { destruct (find_opportunities sample_rates) as [|a rest] eqn:E;
      [vm_compute in E; discriminate E|].
    exists a. apply list_elem_of_here. }
  destruct Hex as [a Hin]. exists a. split; [exact Hin|].
  destruct (find_opportunities_guarantees sample_rates a Hin) as (_ & _ & _ & Hlt & _).
  exact Hlt.
Defined.

Lemma scan_key_ok rates : Forall (PySort.key_ok net_yield_apr) (scan rates).
Proof.
  rewrite scan_filter. apply Forall_forall. intros a Hin.
  apply list_elem_of_In, in_map_iff in Hin as (rd & <- & Hrd).
  apply filter_In in Hrd as [_ Hkept]. unfold kept in Hkept.
  apply andb_true_iff in Hkept as [_ Hyield].
  unfold PySort.key_ok. cbn [alert_of net_yield_apr].
  apply PyFloatNaN.geb_not_nan in Hyield as [Hy _]. exact Hy.
Qed.

(** X6.  [find_opportunities] reports exactly the observations that pass its
    three tests, each once per occurrence, sorted descending by net yield;
    alerts of equal net yield stay in the order of the input. *)
Theorem find_opportunities_sorted_stable rates :
  find_opportunities rates ≡ₚ List.map alert_of (List.filter kept rates)
  /\ StronglySorted (PySort.key_geb net_yield_apr) (find_opportunities rates)
  /\ (forall k, PySort.with_key net_yield_apr k (find_opportunities rates)
                = PySort.with_key net_yield_apr k
                    (List.map alert_of (List.filter kept rates))).
Proof.
  unfold find_opportunities. split; [|split].
  - rewrite PySort.sort_desc_by_perm, scan_filter. reflexivity.
  - apply PySort.sort_desc_by_sorted, scan_key_ok.
  - intros k. rewrite PySort.sort_desc_by_with_key, scan_filter. reflexivity.
Qed.

End MonitorScan.

(** ** [backtest.py]: the result as a whole *)

Module BacktestProps.
Import Backtest.

(** What the fields of a trade record say of each other. *)
Definition trade_consistent {F : Type} {N : Num F}
  (cfg : BacktestConfig F) (t : Trade F) : Prop :=
  costs t =
    add (mul (add (add (entry_cost cfg) (exit_cost cfg)) (slippage cfg))
             (position_size cfg))
        (mul (mul (borrow_rate_8h cfg) (position_size cfg)) (of_Z (periods t)))
  /\ pnl t = sub (funding_collected t) (costs t)
  /\ pnl_pct t = mul (div (pnl t) (position_size cfg)) (of_Z 100).

Section Totals.
Context {F : Type} {N : Num F}.
Implicit Types (cfg : BacktestConfig F) (df : list (Row F)) (st : State F).

(** The realised P&L is an integer exactly as long as no trade is recorded. *)
Definition pnl_tracks_trades st : Prop :=
  match trades st with
  | [] => total_pnl st = PyInt 0
  | _ => total_pnl st = Float64 (py_sum (List.map pnl (trades st)))
  end.

Lemma step_pnl_tracks_trades cfg df i row st :
  pnl_tracks_trades st -> Forall (trade_consistent cfg) (trades st) ->
  pnl_tracks_trades (step cfg df i row st)
  /\ Forall (trade_consistent cfg) (trades (step cfg df i row st)).
Proof.
  intros Hpnl Htr.
  destruct (position_open st) eqn:Ho.
  - destruct (ltb (exit_threshold cfg) (fundingRate row)) eqn:Hx.
    + rewrite (step_open_exit cfg df i row st Ho Hx). cbn [trades total_pnl]. split.
      * unfold pnl_tracks_trades in *. cbn [trades total_pnl].
        destruct (trades st) as [|t ts] eqn:Hts.
        -- rewrite Hpnl. reflexivity.
        -- rewrite Hpnl. cbn [app]. rewrite app_comm_cons, map_app.
           cbn [List.map]. unfold iadd. cbn [to_float].
           rewrite <- py_sum_snoc. reflexivity.
      * apply Forall_app. split; [exact Htr|]. constructor; [|constructor].
        unfold trade_consistent, closing_trade. cbn. auto.
    + rewrite (step_open_hold cfg df i row st Ho Hx). split; assumption.
  - destruct (ltb (fundingRate row) (entry_threshold cfg)) eqn:Hent.
    + rewrite (step_idle_enter cfg df i row st Ho Hent). split; assumption.
    + rewrite (step_idle_stay cfg df i row st Ho Hent). split; assumption.
Qed.

Lemma state_pnl_tracks_trades cfg df i :
  (i <= length df)%nat ->
  pnl_tracks_trades (state_at cfg df i)
  /\ Forall (trade_consistent cfg) (trades (state_at cfg df i)).
Proof.
  induction i as [|i IH]; intros Hi.
  - rewrite state_at_0. split; [reflexivity|constructor].
  - destruct (lookup_lt_is_Some_2 df i ltac:(lia)) as [row Hrow].
    rewrite (state_at_S cfg df i row Hrow).
    destruct (IH ltac:(lia)) as [Hp Ht].
    apply step_pnl_tracks_trades; assumption.
Qed.

(** X7.  The realised P&L of a run is the sum, taken left to right from 0,
    of the P&L of all its completed trades, in whatever arithmetic the run
    uses; each trade's P&L is its collected funding minus its costs, its costs
    are the entry, exit and slippage cost plus the borrow cost of the periods
    it was held, all scaled by the position size, and its [pnl_pct] is its P&L
    over the position size times 100.  The result lists only the last ten
    trades while [total_trades] and [total_pnl] cover all of them. *)
Theorem total_pnl_is_sum_of_trades cfg (funding_data : list (Row F)) :
  let st := final_state funding_data cfg in
  to_float (total_pnl st) = py_sum (List.map pnl (trades st))
  /\ Forall (trade_consistent cfg) (trades st)
  /\ (forall r, run_backtest funding_data cfg = Metrics r ->
        to_float (r_total_pnl r) = py_sum (List.map pnl (trades st))
        /\ total_trades r = Z.of_nat (length (trades st))
        /\ length (r_trades r) = Nat.min 10 (length (trades st))
        /\ r_trades r `suffix_of` trades st).
Proof.
  cbv zeta. unfold final_state.
  set (df := sort_values funding_data).
  rewrite <- (state_at_end cfg df).
  destruct (state_pnl_tracks_trades cfg df (length df) (le_n _)) as [Hp Ht].
  assert (Hsum : to_float (total_pnl (state_at cfg df (length df)))
                 = py_sum (List.map pnl (trades (state_at cfg df (length df))))).
  { unfold pnl_tracks_trades in Hp.
    destruct (trades (state_at cfg df (length df))) as [|t ts];
      rewrite Hp; reflexivity. }
  split; [exact Hsum|]. split; [exact Ht|].
  intros r Hr. unfold run_backtest in Hr.
  destruct funding_data as [|row rest]; [discriminate|]. cbv zeta in Hr.
  fold df in Hr. rewrite <- (state_at_end cfg df) in Hr.
  destruct (to_datetime_ok (row :: rest)); [|discriminate].
  destruct (timedelta_ok df); [|discriminate].
  destruct (annualized_return_of cfg _ _) as [e|a]; [discriminate|].
  injection Hr as <-. cbn [r_total_pnl total_trades r_trades].
  split; [exact Hsum|]. split; [reflexivity|]. unfold last_ten. split.
  - rewrite length_drop. lia.
  - apply suffix_drop.
Qed.

(** The times of the records as a frame holds them: int64 numbers other
    than the least one, which pandas reads as no time at all. *)
Definition int64_times (funding_data : list (Row F)) : Prop :=
  Forall (fun r => (- 2 ^ 63 < fundingTime r < 2 ^ 63)%Z) funding_data.


End Totals.


Lemma total_pnl_is_sum_of_trades_witness :
  exists r,
    run_backtest example_series default_config = Metrics r
    /\ to_float (r_total_pnl r)
       = py_sum (List.map pnl (trades (final_state example_series default_config))).
Proof.
  destruct (total_pnl_is_sum_of_trades default_config example_series) as (_ & _ & Hres).
  destruct (run_backtest example_series default_config) as [|r|e] eqn:E;
    [vm_compute in E; discriminate E| |vm_compute in E; discriminate E].
  exists r. split; [reflexivity|]. apply Hres. reflexivity.
Defined.

(** *** The trades as first crossings *)

(** The entry test and the exit test of the loop. *)
Definition below_entry {F : Type} {N : Num F} (cfg : BacktestConfig F) (r : Row F) : bool :=
  ltb (fundingRate r) (entry_threshold cfg).

Definition above_exit {F : Type} {N : Num F} (cfg : BacktestConfig F) (r : Row F) : bool :=
  ltb (exit_threshold cfg) (fundingRate r).

(** No row with index in [lo, hi) passes the test [p]. *)
Definition none_in {F : Type} (df : list (Row F)) (p : Row F -> bool) (lo hi : nat) : Prop :=
  forall j r, (lo <= j < hi)%nat -> df !! j = Some r -> p r = false.

(** The trade [t] of a replay that is idle from row [lo] on: it is entered at
    the first row [e] from [lo] on whose rate is below the entry threshold and
    closed at the first row [x] after [e] whose rate is above the exit
    threshold. *)
Definition first_crossing {F : Type} {N : Num F}
  (cfg : BacktestConfig F) (df : list (Row F)) (lo e x : nat) (t : Trade F) : Prop :=
  (lo <= e < x)%nat /\ (x < length df)%nat
  /\ none_in df (below_entry cfg) lo e
  /\ (exists r, df !! e = Some r /\ below_entry cfg r = true
                /\ avg_funding t = fundingRate r /\ entry_time t = fundingTime r)
  /\ none_in df (above_exit cfg) (S e) x
  /\ (exists r, df !! x = Some r /\ above_exit cfg r = true
                /\ exit_time t = fundingTime r)
  /\ periods t = (Z.of_nat x - Z.of_nat e)%Z.

(** [crossings cfg df lo ts free]: replayed from row [lo], the trades [ts] are
    the successive first crossings, and the replay is idle again from row
    [free] on. *)
Inductive crossings {F : Type} {N : Num F} (cfg : BacktestConfig F) (df : list (Row F))
  : nat -> list (Trade F) -> nat -> Prop :=
| crossings_nil lo : crossings cfg df lo [] lo
| crossings_cons lo e x t ts free :
    first_crossing cfg df lo e x t ->
    crossings cfg df (S x) ts free ->
    crossings cfg df lo (t :: ts) free.

(** Where the replay stands after the last row: idle since row [free], or in
    a position entered at a first crossing and not yet closed. *)
Definition tail_state {F : Type} {N : Num F}
  (cfg : BacktestConfig F) (df : list (Row F)) (free i : nat) (st : State F) : Prop :=
  if position_open st then
    (free <= entry_idx st < i)%nat
    /\ none_in df (below_entry cfg) free (entry_idx st)
    /\ (exists r, df !! entry_idx st = Some r /\ below_entry cfg r = true
                  /\ entry_rate st = fundingRate r)
    /\ none_in df (above_exit cfg) (S (entry_idx st)) i
  else
    (free <= i)%nat /\ none_in df (below_entry cfg) free i.

Section Crossings.
Context {F : Type} {N : Num F}.
Implicit Types (cfg : BacktestConfig F) (df : list (Row F)) (st : State F).

Lemma crossings_snoc cfg df lo ts free e x t :
  crossings cfg df lo ts free ->
  first_crossing cfg df free e x t ->
  crossings cfg df lo (ts ++ [t]) (S x).
Proof.
  intros Hc Hf. induction Hc as [lo|lo e' x' t' ts free Hf' Hc IH]; simpl.
  - econstructor; [exact Hf|constructor].
  - econstructor; [exact Hf'|]. apply IH. exact Hf.
Qed.

Lemma crossings_bound cfg df lo ts free :
  crossings cfg df lo ts free ->
  (lo + 2 * length ts <= free)%nat
  /\ (ts <> [] -> free <= length df)%nat
  /\ Forall (fun t => (1 <= periods t)%Z) ts.
Proof.
  induction 1 as [lo|lo e x t ts free Hf Hc (IH1 & IH2 & IH3)]; simpl.
  - split; [lia|]. split; [congruence|constructor].
  - destruct Hf as (He & Hx & _ & _ & _ & _ & Hp).
    split; [lia|]. split.
    + intros _. destruct ts as [|t' ts']; [inversion Hc; subst; lia|].
      apply IH2. discriminate.
    + constructor; [lia|exact IH3].
Qed.

Lemma none_in_extend df (p : Row F -> bool) lo hi row :
  none_in df p lo hi -> df !! hi = Some row -> p row = false ->
  none_in df p lo (S hi).
Proof.
  intros Hn Hrow Hp j r Hj Hr. destruct (decide (j = hi)) as [->|Hne].
  - congruence.
  - apply (Hn j r); [lia|exact Hr].
Qed.

Lemma none_in_empty df (p : Row F -> bool) lo : none_in df p lo lo.
Proof. intros j r Hj. lia. Qed.

Lemma replay_invariant cfg df i :
  (i <= length df)%nat ->
  exists free,
    crossings cfg df 0 (trades (state_at cfg df i)) free
    /\ tail_state cfg df free i (state_at cfg df i).
Proof.
  induction i as [|i IH]; intros Hi.
  - rewrite state_at_0. exists 0%nat. split; [constructor|].
    unfold tail_state. simpl. split; [lia|apply none_in_empty].
  - destruct (lookup_lt_is_Some_2 df i ltac:(lia)) as [row Hrow].
    rewrite (state_at_S cfg df i row Hrow).
    destruct (IH ltac:(lia)) as (free & Hc & Ht). clear IH.
    unfold tail_state in Ht.
    destruct (position_open (state_at cfg df i)) eqn:Ho.
    + destruct Ht as (He & Hidle & (r & Hr & Hbelow & Hrate) & Hheld).
      destruct (ltb (exit_threshold cfg) (fundingRate row)) eqn:Hx.
      * rewrite (step_open_exit cfg df i row _ Ho Hx). cbn [trades].
        exists (S i). split.
        -- apply (crossings_snoc cfg df 0 _ free (entry_idx (state_at cfg df i)) i);
             [exact Hc|].
           unfold first_crossing, closing_trade. cbn.
           split; [lia|]. split; [lia|]. split; [exact Hidle|].
           split.
           { exists r. unfold timestamp_at. rewrite Hr. auto. }
           split; [exact Hheld|]. split; [|reflexivity].
           exists row. auto.
        -- unfold tail_state. cbn [position_open]. split; [lia|apply none_in_empty].
      * rewrite (step_open_hold cfg df i row _ Ho Hx). cbn [trades].
        exists free. split; [exact Hc|].
        unfold tail_state. cbn [position_open entry_idx entry_rate].
        split; [lia|]. split; [exact Hidle|]. split; [exists r; auto|].
        apply none_in_extend with (row := row); assumption.
    + destruct Ht as (Hfree & Hidle).
      destruct (ltb (fundingRate row) (entry_threshold cfg)) eqn:Hent.
      * rewrite (step_idle_enter cfg df i row _ Ho Hent). cbn [trades].
        exists free. split; [exact Hc|].
        unfold tail_state. cbn [position_open entry_idx entry_rate].
        split; [lia|]. split; [exact Hidle|]. split; [exists row; auto|].
        apply none_in_empty.
      * rewrite (step_idle_stay cfg df i row _ Ho Hent).
        exists free. split; [exact Hc|].
        unfold tail_state. rewrite Ho. split; [lia|].
        apply none_in_extend with (row := row); assumption.
Qed.

(** X9.  The trades of a run are exactly the successive first crossings of
    the frame: each is entered at the first row, after the previous exit,
    whose rate is below the entry threshold, and closed at the first later
    row whose rate is above the exit threshold; after the last trade the run
    is idle with no further entry, or holds a position entered at the next
    first crossing that no later row has closed.  Hence trades never overlap,
    every trade holds at least one period, and a frame of [n] rows yields at
    most [n / 2] trades. *)
Theorem trades_are_first_crossings cfg (funding_data : list (Row F)) :
  let df := sort_values funding_data in
  let st := final_state funding_data cfg in
  exists free,
    crossings cfg df 0 (trades st) free
    /\ tail_state cfg df free (length df) st
    /\ (2 * length (trades st) <= length funding_data)%nat
    /\ Forall (fun t => (1 <= periods t)%Z) (trades st).
Proof.
  cbv zeta. unfold final_state. set (df := sort_values funding_data).
  rewrite <- (state_at_end cfg df).
  destruct (replay_invariant cfg df (length df) (le_n _)) as (free & Hc & Ht).
  exists free. split; [exact Hc|]. split; [exact Ht|].
  destruct (crossings_bound cfg df 0 _ free Hc) as (Hb & Hlen & Hper).
  split; [|exact Hper].
  rewrite <- (sort_values_length funding_data). fold df.
  destruct (trades (state_at cfg df (length df))) as [|t ts] eqn:Hts; [simpl; lia|].
  specialize (Hlen ltac:(discriminate)). lia.
Qed.

End Crossings.

(** *** Time *)

Definition time_le {F : Type} (a b : Row F) : Prop := (fundingTime a <= fundingTime b)%Z.
Definition time_lt {F : Type} (a b : Row F) : Prop := (fundingTime a < fundingTime b)%Z.

Section Time.
Context {F : Type} {N : Num F}.
Implicit Types (cfg : BacktestConfig F) (df : list (Row F)) (st : State F).

Lemma insert_row_sorted (r : Row F) df :
  StronglySorted time_le df -> StronglySorted time_le (insert_row r df).
Proof.
  induction 1 as [|r' rest Hs IH Hhd]; simpl.
  - repeat constructor.
  - destruct (fundingTime r' <? fundingTime r)%Z eqn:Hlt.
    + apply Z.ltb_lt in Hlt. constructor; [exact IH|].
      rewrite insert_row_perm. constructor; [unfold time_le; lia|exact Hhd].
    + apply Z.ltb_ge in Hlt. constructor; [constructor; assumption|].
      constructor; [exact Hlt|].
      eapply Forall_impl; [exact Hhd|]. unfold time_le. intros a Ha. lia.
Qed.

Lemma sort_values_sorted (l : list (Row F)) : StronglySorted time_le (sort_values l).
Proof.
  induction l as [|r l IH]; simpl; [constructor|]. apply insert_row_sorted, IH.
Qed.

Lemma sorted_lookup_le df j k rj rk :
  StronglySorted time_le df -> (j <= k)%nat ->
  df !! j = Some rj -> df !! k = Some rk -> time_le rj rk.
Proof.
  intros Hs. revert j k. induction Hs as [|a rest Hs IH Hhd]; intros j k Hjk Hj Hk.
  - rewrite lookup_nil in Hj. discriminate.
  - destruct j as [|j], k as [|k]; simpl in Hj, Hk.
    + injection Hj as <-. injection Hk as <-. unfold time_le. lia.
    + injection Hj as <-. rewrite Forall_forall in Hhd. apply Hhd.
      apply list_elem_of_lookup. eauto.
    + lia.
    + apply (IH j k); [lia|assumption|assumption].
Qed.

Lemma days_of_positive df : StronglySorted time_le df -> df <> [] -> (1 <= days_of df)%Z.
Proof.
  intros Hs Hne. unfold days_of, timestamp_at.
  destruct (lookup_lt_is_Some_2 df 0) as [r0 H0];
    [destruct df; [congruence|simpl; lia]|].
  destruct (lookup_lt_is_Some_2 df (length df - 1)) as [r1 H1];
    [destruct df; [congruence|simpl; lia]|].
  rewrite H0, H1.
  pose proof (sorted_lookup_le df 0 (length df - 1) r0 r1 Hs ltac:(lia) H0 H1) as Hle.
  unfold time_le in Hle.
  assert (Hd : (0 <= (fundingTime r1 - fundingTime r0) / 86400000)%Z)
    by (apply Z.div_pos; lia).
  destruct ((fundingTime r1 - fundingTime r0) / 86400000 =? 0)%Z eqn:He; [lia|].
  apply Z.eqb_neq in He. lia.
Qed.

(** X10.  The loop of [run_backtest] sees the records in the order of their
    time: a rearrangement of the input with non-decreasing [fundingTime].  So
    whenever a result is returned, [period_days] is at least 1 (also for a
    single record), [data_points] is the number of input records, and every
    trade is closed at a time not before it was entered. *)
Theorem run_backtest_time_ordered cfg (funding_data : list (Row F)) :
  sort_values funding_data ≡ₚ funding_data
  /\ StronglySorted time_le (sort_values funding_data)
  /\ Forall (fun t => (entry_time t <= exit_time t)%Z)
            (trades (final_state funding_data cfg))
  /\ (forall r, run_backtest funding_data cfg = Metrics r ->
        (1 <= period_days r)%Z
        /\ data_points r = Z.of_nat (length funding_data)).
Proof.
  split; [apply sort_values_perm|]. split; [apply sort_values_sorted|].
  unfold final_state. set (df := sort_values funding_data).
  pose proof (sort_values_sorted funding_data) as Hs. fold df in Hs.
  split.
  - rewrite <- (state_at_end cfg df).
    eapply Forall_impl; [apply (trades_span cfg df (length df) (le_n _))|].
    intros t (e & x & r & Hex & Hr & _ & Hent & Hexit & _).
    rewrite Hent, Hexit. unfold timestamp_at.
    destruct (lookup_lt_is_Some_2 df x ltac:(lia)) as [rx Hx]. rewrite Hx.
    apply (sorted_lookup_le df e x r rx Hs ltac:(lia) Hr Hx).
  - intros r Hr. unfold run_backtest in Hr.
    destruct funding_data as [|row rest] eqn:Hdata; [discriminate|]. cbv zeta in Hr.
    fold df in Hr.
    destruct (to_datetime_ok (row :: rest)); [|discriminate].
    destruct (timedelta_ok df); [|discriminate].
    destruct (annualized_return_of cfg _ _) as [e|a]; [discriminate|].
    injection Hr as <-. cbn [period_days data_points]. split.
    + apply days_of_positive; [exact Hs|].
      intros Hnil. pose proof (sort_values_length (row :: rest)) as Hl.
      fold df in Hl. rewrite Hnil in Hl. discriminate.
    + unfold df. rewrite sort_values_length. reflexivity.
Qed.

Lemma to_datetime_ok_perm (l1 l2 : list (Row F)) :
  l1 ≡ₚ l2 -> to_datetime_ok l1 = to_datetime_ok l2.
Proof.
  unfold to_datetime_ok.
  induction 1 as [|r l l' _ IH|r r' l|l l' l'' _ IH1 _ IH2]; cbn [forallb].
  - reflexivity.
  - rewrite IH. reflexivity.
  - rewrite !andb_assoc, (andb_comm (in_bounds (fundingTime r'))). reflexivity.
  - rewrite IH1. exact IH2.
Qed.

Lemma strict_sorted_unique (l1 l2 : list (Row F)) :
  l1 ≡ₚ l2 -> StronglySorted time_lt l1 -> StronglySorted time_lt l2 -> l1 = l2.
Proof.
  revert l2. induction l1 as [|a t1 IH]; intros l2 Hp Hs1 Hs2.
  - apply Permutation_nil_l in Hp. congruence.
  - destruct l2 as [|b t2]; [apply Permutation_nil_r in Hp; discriminate|].
    apply StronglySorted_inv in Hs1 as [Hs1 Hhd1].
    apply StronglySorted_inv in Hs2 as [Hs2 Hhd2].
    rewrite Forall_forall in Hhd1, Hhd2.
    assert (Hab : a = b).
    { assert (Ha : a ∈ b :: t2) by (rewrite <- Hp; apply list_elem_of_here).
      assert (Hb : b ∈ a :: t1) by (rewrite Hp; apply list_elem_of_here).
      apply elem_of_cons in Ha as [Ha|Ha]; [exact Ha|].
      apply elem_of_cons in Hb as [Hb|Hb]; [congruence|].
      specialize (Hhd1 b Hb). specialize (Hhd2 a Ha). unfold time_lt in *. lia. }
    subst b. f_equal. apply IH; [|assumption|assumption].
    apply (Permutation_cons_inv Hp).
Qed.

Lemma sorted_distinct_strict df :
  StronglySorted time_le df -> NoDup (List.map fundingTime df) ->
  StronglySorted time_lt df.
Proof.
  induction 1 as [|a rest Hs IH Hhd]; intros Hnd; [constructor|].
  simpl in Hnd. apply NoDup_cons in Hnd as [Hna Hnd].
  constructor; [apply IH; exact Hnd|].
  rewrite Forall_forall in Hhd |- *. intros b Hb.
  specialize (Hhd b Hb). unfold time_le in Hhd. unfold time_lt.
  assert (fundingTime a <> fundingTime b).
  { intros Heq. apply Hna. rewrite Heq. apply list_elem_of_fmap_2. exact Hb. }
  lia.
Qed.

Lemma sort_values_strict (l : list (Row F)) :
  NoDup (List.map fundingTime l) -> StronglySorted time_lt (sort_values l).
Proof.
  intros Hnd. apply sorted_distinct_strict; [apply sort_values_sorted|].
  rewrite (sort_values_perm l). exact Hnd.
Qed.

(** X11.  When the records carry pairwise different times, the order in which
    they are passed does not matter: every rearrangement of the input is
    sorted into the same frame and ends in the same state, with no tie left
    for the sort to break, and the whole result is the same as soon as the
    symbol read off the first record is. *)
Theorem run_backtest_order_independent cfg (data1 data2 : list (Row F)) :
  data1 ≡ₚ data2 ->
  NoDup (List.map fundingTime data1) ->
  sort_values data1 = sort_values data2
  /\ StronglySorted time_lt (sort_values data1)
  /\ final_state data1 cfg = final_state data2 cfg
  /\ (symbol_of data1 = symbol_of data2 ->
      run_backtest data1 cfg = run_backtest data2 cfg).
Proof.
  intros Hp Hnd.
  assert (Hsame : sort_values data1 = sort_values data2).
  { apply strict_sorted_unique.
    - rewrite !sort_values_perm. exact Hp.
    - apply sort_values_strict. exact Hnd.
    - apply sort_values_strict. rewrite <- Hp. exact Hnd. }
  split; [exact Hsame|]. split; [apply sort_values_strict; exact Hnd|].
  split; [unfold final_state; rewrite Hsame; reflexivity|].
  intros Hsym. unfold run_backtest.
  destruct data1 as [|r1 rest1], data2 as [|r2 rest2].
  - reflexivity.
  - apply Permutation_nil_l in Hp. discriminate.
  - apply Permutation_nil_r in Hp. discriminate.
  - cbv zeta. rewrite Hsame, Hsym, (to_datetime_ok_perm _ _ Hp). reflexivity.
Qed.

End Time.

Lemma run_backtest_order_independent_witness :
  run_backtest (rev example_series) default_config
  = run_backtest example_series default_config.
Proof.
  apply (run_backtest_order_independent default_config (rev example_series)
           example_series).
  - symmetry. apply Permutation_rev.
  - apply (bool_decide_unpack _). vm_compute. exact I.
  - reflexivity.
Defined.

Lemma run_backtest_time_ordered_witness :
  exists r, run_backtest (series [ 0.0%float ]) default_config = Metrics r
            /\ (1 <= period_days r)%Z.
Proof.
  destruct (run_backtest_time_ordered default_config (series [ 0.0%float ]))
    as (_ & _ & _ & Hres).
  destruct (run_backtest (series [ 0.0%float ]) default_config) as [|r|e] eqn:E;
    [vm_compute in E; discriminate E| |vm_compute in E; discriminate E].
  exists r. split; [reflexivity|]. apply (Hres r eq_refl).
Defined.

End BacktestProps.

(** ** [deep_analysis.py]: the strategy simulation

    All numbers here are Python floats.  The records are replayed in the
    order given (the script gets them sorted by time from its fetch).

    The builtin [sum] of Python floats depends on the interpreter: CPython
    up to 3.11 adds from left to right, CPython from 3.12 on carries
    Neumaier's compensation along and adds it at the end.  The simulation
    is modelled for both. *)

Module DeepAnalysis.
#[local] Open Scope float_scope.
#[local] Existing Instance Backtest.float_num.

Inductive Exn : Type :=
| ZeroDivisionError.

(** One trade of [simulate_realistic_strategy]. *)
Record StratTrade := {
  st_periods : Z;
  st_hours : Z;
  st_funding : float;
  st_costs : float;
  st_pnl : float;
}.

(** The state of the loop over [enumerate(rates)]. *)
Record StratState := {
  in_position : bool;
  s_entry_idx : nat;
  s_trades : list StratTrade;
}.

Definition strat_init : StratState :=
  {| in_position := false; s_entry_idx := 0; s_trades := [] |}.

(** The two implementations of the builtin [sum] over floats. *)
Inductive SumImpl : Type :=
| PlainSum          (* CPython up to 3.11 *)
| CompensatedSum.   (* CPython from 3.12 on *)

(** One step of the compensated sum: the running sum [hi] and the
    compensation [lo]. *)
Definition cs_add (total : float * float) (x : float) : float * float :=
  let '(hi, lo) := total in
  let t := hi + x in
  if PrimFloat.leb (abs x) (abs hi) then (t, lo + ((hi - t) + x))
  else (t, lo + ((x - t) + hi)).

Definition is_finite (x : float) : bool := PrimFloat.ltb (abs x) infinity.

(** The compensation is added when it is not zero and finite. *)
Definition cs_to_double (total : float * float) : float :=
  let '(hi, lo) := total in
  if negb (PrimFloat.eqb lo 0) && is_finite lo then hi + lo else hi.

Section Simulation.
Variable impl : SumImpl.

(** [sum(...)] of floats, from the integer 0: the first float is added to
    the 0, the others to the running float. *)
Definition fsum (l : list float) : float :=
  match impl with
  | PlainSum => fold_left PrimFloat.add l 0
  | CompensatedSum =>
      match l with
      | [] => 0
      | x :: rest => cs_to_double (fold_left cs_add rest (0 + x, 0))
      end
  end.

(** [sum(-rates[j][0] * 1000 for j in range(entry_idx, i+1))] *)
Definition strat_funding (rates : list (float * Z)) (entry_idx i : nat) : float :=
  fsum (List.map (fun p => - fst p * 1000) (take (S i - entry_idx) (drop entry_idx rates))).

(** The body of the loop, for one strategy. *)
Definition strat_step (entry_thresh exit_thresh : float) (rates : list (float * Z))
  (i : nat) (rate : float) (st : StratState) : StratState :=
  let entry_cost := 1.0 in
  let exit_cost := 0.4 in
  let slippage := 0.5 in
  let borrow_8h := 0.274 in
  if negb (in_position st) then
    if PrimFloat.ltb rate entry_thresh then
      {| in_position := true; s_entry_idx := i; s_trades := s_trades st |}
    else st
  else
    if PrimFloat.ltb exit_thresh rate then
      let periods := (Z.of_nat i - Z.of_nat (s_entry_idx st))%Z in
      let funding := strat_funding rates (s_entry_idx st) i in
      let costs := entry_cost + exit_cost + slippage + (borrow_8h * PyFloat.of_Z periods) in
      let pnl := funding - costs in
      {| in_position := false;
         s_entry_idx := s_entry_idx st;
         s_trades :=
           s_trades st ++
           [ {| st_periods := periods;
                st_hours := (periods * 8)%Z;
                st_funding := funding;
                st_costs := costs;
                st_pnl := pnl |} ] |}
    else st.

Fixpoint strat_loop (entry_thresh exit_thresh : float) (rates : list (float * Z))
  (i : nat) (rest : list (float * Z)) (st : StratState) : StratState :=
  match rest with
  | [] => st
  | (rate, ts) :: rest' =>
      strat_loop entry_thresh exit_thresh rates (S i) rest'
        (strat_step entry_thresh exit_thresh rates i rate st)
  end.

(** The trades of one strategy. *)
Definition strat_trades (entry_thresh exit_thresh : float) (rates : list (float * Z))
  : list StratTrade :=
  s_trades (strat_loop entry_thresh exit_thresh rates 0 rates strat_init).

(** The dict stored per strategy.  [avg_hold_hours] divides integers. *)
Record StratResult := {
  sr_entry_threshold : float;
  sr_exit_threshold : float;
  sr_total_trades : Z;
  sr_trades_per_month : float;
  sr_total_pnl : float;
  sr_annualized_return : float;
  sr_win_rate : float;
  sr_avg_pnl_per_trade : float;
  sr_avg_hold_hours : float;
  sr_total_costs : float;
  sr_total_funding : float;
}.

(** A Python float division: it raises on a zero divisor. *)
Definition py_div (x y : float) : Exn + float :=
  if PrimFloat.eqb y 0 then inl ZeroDivisionError else inr (x / y).

(** The result of one strategy.  The entries are evaluated in the order of
    the dict display, so [trades_per_month] is computed before the guarded
    [annualized_return]. *)
Definition strat_result (entry_thresh exit_thresh : float) (rates : list (float * Z))
  : Exn + StratResult :=
  let trades := strat_trades entry_thresh exit_thresh rates in
  let total_pnl := fsum (List.map st_pnl trades) in
  let n_trades := PyFloat.of_Z (Z.of_nat (length trades)) in
  let days := PyFloat.of_Z (Z.of_nat (length rates)) / 3 in
  match py_div n_trades (days / 30) with
  | inl e => inl e
  | inr trades_per_month =>
      let annualized :=
        if PrimFloat.ltb 0 days then (total_pnl / 1000) * (365 / days) * 100 else 0 in
      let wins := length (List.filter (fun t => PrimFloat.ltb 0 (st_pnl t)) trades) in
      inr {|
        sr_entry_threshold := entry_thresh * 100;
        sr_exit_threshold := exit_thresh * 100;
        sr_total_trades := Z.of_nat (length trades);
        sr_trades_per_month := trades_per_month;
        sr_total_pnl := total_pnl;
        sr_annualized_return := annualized;
        sr_win_rate :=
          match trades with
          | [] => 0
          | _ => PyFloat.of_Z (Z.of_nat wins) / n_trades * 100
          end;
        sr_avg_pnl_per_trade :=
          match trades with [] => 0 | _ => total_pnl / n_trades end;
        sr_avg_hold_hours :=
          match trades with
          | [] => 0
          | _ => PyFloat.of_Z (fold_left Z.add (List.map st_hours trades) 0%Z) / n_trades
          end;
        sr_total_costs := fsum (List.map st_costs trades);
        sr_total_funding := fsum (List.map st_funding trades);
      |}
  end.

(** The three strategies, in the order of the loop. *)
Definition strategies : list (string * float * float) :=
  [ ("conservative"%string, -0.0015, -0.0003);
    ("moderate"%string, -0.0010, -0.0002);
    ("aggressive"%string, -0.0005, 0.0) ].

(** [simulate_realistic_strategy]: the results by strategy name, or the
    first fault. *)
Fixpoint run_strategies (l : list (string * float * float)) (rates : list (float * Z))
  : Exn + list (string * StratResult) :=
  match l with
  | [] => inr []
  | (name, entry_thresh, exit_thresh) :: rest =>
      match strat_result entry_thresh exit_thresh rates with
      | inl e => inl e
      | inr res =>
          match run_strategies rest rates with
          | inl e => inl e
          | inr results => inr ((name, res) :: results)
          end
      end
  end.

Definition simulate_realistic_strategy (rates : list (float * Z))
  : Exn + list (string * StratResult) :=
  run_strategies strategies rates.

(** The rates and times of a frame of the backtester. *)
Definition rates_of (df : list (Backtest.Row float)) : list (float * Z) :=
  List.map (fun r => (Backtest.fundingRate r, Backtest.fundingTime r)) df.

(** What every recorded trade satisfies. *)
Definition trade_shape (t : StratTrade) : Prop :=
  (1 <= st_periods t)%Z
  /\ st_hours t = (st_periods t * 8)%Z
  /\ st_costs t = 1.0 + 0.4 + 0.5 + 0.274 * PyFloat.of_Z (st_periods t)
  /\ st_pnl t = st_funding t - st_costs t.

(** The number of records that a list of trades spans, the entry and the
    exit record of each trade included. *)
Definition spans (ts : list StratTrade) : Z :=
  fold_right (fun t acc => (st_periods t + 1 + acc)%Z) 0%Z ts.

(** The invariant of the loop before index [i]. *)
Definition strat_inv (i : nat) (st : StratState) : Prop :=
  Forall trade_shape (s_trades st)
  /\ (in_position st = true -> (s_entry_idx st < i)%nat)
  /\ (spans (s_trades st)
      + (if in_position st then Z.of_nat i - Z.of_nat (s_entry_idx st) else 0)
      <= Z.of_nat i)%Z.

(** A trade of the strategy simulation and a trade of the backtester that
    span the same periods and collected the sum of the same payments, each
    summed in its own way: by the builtin [sum] over Python floats here, by
    the plain sum over numpy floats there. *)
Definition same_trade (t : StratTrade) (b : Backtest.Trade float) : Prop :=
  st_periods t = Backtest.periods b
  /\ exists payments : list float,
       st_funding t = fsum payments
       /\ Backtest.funding_collected b = Backtest.py_sum payments.

(** The same funding, to the last digit. *)
Definition same_funding (t : StratTrade) (b : Backtest.Trade float) : Prop :=
  st_funding t = Backtest.funding_collected b.

(** The states of the two loops at the same index. *)
Definition strat_sim (s : StratState) (b : Backtest.State float) : Prop :=
  in_position s = Backtest.position_open b
  /\ s_entry_idx s = Backtest.entry_idx b
  /\ Forall2 same_trade (s_trades s) (Backtest.trades b).

Lemma spans_snoc ts t : spans (ts ++ [t]) = (spans ts + (st_periods t + 1))%Z.
Proof.
  unfold spans. induction ts as [|a ts IH]; cbn [fold_right app] in *; lia.
Qed.

Lemma spans_length ts :
  Forall trade_shape ts -> (2 * Z.of_nat (length ts) <= spans ts)%Z.
Proof.
  unfold spans. induction 1 as [|t ts [Ht _] _ IH]; cbn [fold_right length] in *; lia.
Qed.

Lemma strat_step_inv e x rates i rate st :
  strat_inv i st -> strat_inv (S i) (strat_step e x rates i rate st).
Proof.
  intros (Hshape & Hidx & Hspan). unfold strat_step.
  destruct (in_position st) eqn:Hin; cbn [negb].
  - specialize (Hidx eq_refl).
    destruct (PrimFloat.ltb x rate).
    + unfold strat_inv; cbn [s_trades in_position s_entry_idx].
      split; [|split].
      * apply Forall_app; split; [exact Hshape|].
        constructor; [|constructor].
        unfold trade_shape; cbn [st_periods st_hours st_costs st_pnl st_funding].
        repeat split; try reflexivity. lia.
      * discriminate.
      * rewrite spans_snoc; cbn [st_periods]. lia.
    + unfold strat_inv; rewrite Hin.
      split; [exact Hshape|]. split; [intros _; lia | lia].
  - destruct (PrimFloat.ltb rate e).
    + unfold strat_inv; cbn [s_trades in_position s_entry_idx].
      split; [exact Hshape|]. split; [intros _; lia | lia].
    + unfold strat_inv; rewrite Hin.
      split; [exact Hshape|]. split; [discriminate | lia].
Qed.

Lemma strat_loop_inv e x rates rest :
  forall i st, strat_inv i st ->
    strat_inv (i + length rest) (strat_loop e x rates i rest st).
Proof.
  induction rest as [|[rate ts] rest IH]; intros i st Hinv; cbn [strat_loop length].
  - rewrite Nat.add_0_r; exact Hinv.
  - rewrite Nat.add_succ_r. apply (IH (S i)). apply strat_step_inv; exact Hinv.
Qed.

Lemma strat_init_inv : strat_inv 0 strat_init.
Proof.
  unfold strat_inv, strat_init; cbn. split; [constructor|]. split; [discriminate | lia].
Qed.

(** X12.  Whatever the thresholds and the rates, every trade that
    [simulate_realistic_strategy] records for a strategy lasts at least one
    period, reports eight hours per period, costs
    [1.0 + 0.4 + 0.5 + 0.274 * periods] and has [pnl = funding - costs]; the
    trades span disjoint stretches of the records, so a run over [n] records
    has at most [n / 2] trades. *)
Theorem strat_trades_shape (e x : float) (rates : list (float * Z)) :
  Forall trade_shape (strat_trades e x rates)
  /\ (spans (strat_trades e x rates) <= Z.of_nat (length rates))%Z
  /\ (2 * length (strat_trades e x rates) <= length rates)%nat.
Proof.
  pose proof (strat_loop_inv e x rates rates 0 strat_init strat_init_inv)
    as (Hshape & Hidx & Hspan).
  fold (strat_trades e x rates) in Hshape, Hspan.
  cbn [Nat.add] in Hidx, Hspan.
  assert (Hs : (spans (strat_trades e x rates) <= Z.of_nat (length rates))%Z).
  { revert Hidx Hspan.
    destruct (in_position _); intros Hidx Hspan; [|lia].
    specialize (Hidx eq_refl). lia. }
  split; [exact Hshape|]. split; [exact Hs|].
  pose proof (spans_length _ Hshape). lia.
Qed.

Lemma strat_funding_backtest (cfg : Backtest.BacktestConfig float)
  (df : list (Backtest.Row float)) (entry_idx i : nat) :
  Backtest.position_size cfg = 1000 ->
  exists payments : list float,
    strat_funding (rates_of df) entry_idx i = fsum payments
    /\ Backtest.trade_funding_of cfg df entry_idx i = Backtest.py_sum payments.
Proof.
  intros Hsize.
  exists (List.map (Backtest.funding_of cfg) (take (S i - entry_idx) (drop entry_idx df))).
  split; [|reflexivity].
  unfold strat_funding, rates_of, Backtest.funding_of.
  rewrite skipn_map, firstn_map, List.map_map, Hsize.
  reflexivity.
Qed.

Lemma fsum_plain (payments : list float) :
  impl = PlainSum -> fsum payments = Backtest.py_sum payments.
Proof. unfold fsum. intros ->. reflexivity. Qed.

Lemma strat_step_sim (cfg : Backtest.BacktestConfig float)
  (df : list (Backtest.Row float)) (i : nat) (row : Backtest.Row float) s b :
  Backtest.position_size cfg = 1000 ->
  strat_sim s b ->
  strat_sim
    (strat_step (Backtest.entry_threshold cfg) (Backtest.exit_threshold cfg)
       (rates_of df) i (Backtest.fundingRate row) s)
    (Backtest.step cfg df i row b).
Proof.
  intros Hsize (Hin & Hidx & Htrades).
  unfold strat_step, Backtest.step. rewrite Hin.
  cbn [Backtest.ltb Backtest.float_num].
  destruct (Backtest.position_open b) eqn:Hopen; cbn [negb].
  - destruct (PrimFloat.ltb (Backtest.exit_threshold cfg) (Backtest.fundingRate row)).
    + unfold strat_sim;
        cbn [in_position s_entry_idx s_trades Backtest.position_open
             Backtest.entry_idx Backtest.trades].
      split; [reflexivity|]. split; [exact Hidx|].
      apply Forall2_app; [exact Htrades|].
      constructor; [|constructor].
      unfold same_trade; cbn [st_periods st_funding Backtest.periods
                                Backtest.funding_collected].
      rewrite Hidx. split; [reflexivity|].
      apply strat_funding_backtest; exact Hsize.
    + unfold strat_sim;
        cbn [in_position s_entry_idx s_trades Backtest.position_open
             Backtest.entry_idx Backtest.trades].
      split; [congruence|]. split; [exact Hidx | exact Htrades].
  - destruct (PrimFloat.ltb (Backtest.fundingRate row) (Backtest.entry_threshold cfg)).
    + unfold strat_sim;
        cbn [in_position s_entry_idx s_trades Backtest.position_open
             Backtest.entry_idx Backtest.trades].
      split; [reflexivity|]. split; [reflexivity | exact Htrades].
    + unfold strat_sim.
      split; [congruence|]. split; [exact Hidx | exact Htrades].
Qed.

Lemma strat_loop_sim (cfg : Backtest.BacktestConfig float)
  (df : list (Backtest.Row float)) :
  Backtest.position_size cfg = 1000 ->
  forall rest i s b, strat_sim s b ->
    strat_sim
      (strat_loop (Backtest.entry_threshold cfg) (Backtest.exit_threshold cfg)
         (rates_of df) i (rates_of rest) s)
      (Backtest.run_loop cfg df i rest b).
Proof.
  intros Hsize rest.
  induction rest as [|row rest IH]; intros i s b Hsim;
    cbn [rates_of List.map strat_loop Backtest.run_loop].
  - exact Hsim.
  - apply IH. apply strat_step_sim; assumption.
Qed.


(** [(len(rates) / 3) / 30], the divisor of [trades_per_month]. *)
Definition months_of (rates : list (float * Z)) : float :=
  PyFloat.of_Z (Z.of_nat (length rates)) / 3 / 30.

Lemma strat_result_fault e x rates :
  PrimFloat.eqb (months_of rates) 0 = true ->
  strat_result e x rates = inl ZeroDivisionError.
Proof.
  unfold months_of, strat_result, py_div. cbv zeta. intros ->. reflexivity.
Qed.

Lemma strat_result_returns e x rates :
  PrimFloat.eqb (months_of rates) 0 = false ->
  exists res, strat_result e x rates = inr res.
Proof.
  unfold months_of, strat_result, py_div. cbv zeta. intros ->. eexists; reflexivity.
Qed.

(** X14.  [simulate_realistic_strategy] has two outcomes.  When
    [(len(rates) / 3) / 30] is zero, as it is for empty data, the division
    for [trades_per_month] raises [ZeroDivisionError]; the guard
    [if days > 0] on [annualized_return] comes after it and prevents
    nothing.  Otherwise the function returns one result per strategy, under
    the names conservative, moderate and aggressive in this order. *)
Theorem simulate_realistic_strategy_outcomes (rates : list (float * Z)) :
  match simulate_realistic_strategy rates with
  | inl e => e = ZeroDivisionError /\ PrimFloat.eqb (months_of rates) 0 = true
  | inr results =>
      PrimFloat.eqb (months_of rates) 0 = false
      /\ List.map fst results
         = [ "conservative"%string; "moderate"%string; "aggressive"%string ]
  end
  /\ simulate_realistic_strategy [] = inl ZeroDivisionError.
Proof.
  split; [|reflexivity].
  unfold simulate_realistic_strategy, strategies. cbn [run_strategies].
  destruct (PrimFloat.eqb (months_of rates) 0) eqn:Hm.
  - rewrite (strat_result_fault _ _ rates Hm). auto.
  - destruct (strat_result_returns (-0.0015) (-0.0003) rates Hm) as [c ->].
    destruct (strat_result_returns (-0.0010) (-0.0002) rates Hm) as [m ->].
    destruct (strat_result_returns (-0.0005) 0.0 rates Hm) as [a ->].
    cbn [List.map fst]. auto.
Qed.

End Simulation.


(** Three records with the rates -0.0023, -0.0019 and -0.0001 make one trade
    under the default thresholds.  Its payments 2.3, 1.9 and 0.1 add up to
    one float from left to right, which is what the backtester and the
    builtin [sum] of CPython up to 3.11 compute, and to its neighbour with
    the compensation of CPython 3.12. *)
Definition drifting_series : list (Backtest.Row float) :=
  Backtest.series [ -0.0023; -0.0019; -0.0001 ].

Lemma compensated_sum_differs :
  let cfg := Backtest.default_config in
  let fundings impl :=
    List.map st_funding
      (strat_trades impl (Backtest.entry_threshold cfg) (Backtest.exit_threshold cfg)
         (rates_of drifting_series)) in
  List.map Backtest.funding_collected (Backtest.trades (Backtest.simulate cfg drifting_series))
  = fundings PlainSum
  /\ fundings PlainSum <> fundings CompensatedSum
  /\ fundings PlainSum = [ 4.299999999999999 ]
  /\ fundings CompensatedSum = [ 4.3 ].
Proof.
  cbv zeta. split; [vm_compute; reflexivity|].
  split; [|split; vm_compute; reflexivity].
  intros H.
  apply (f_equal (fun l => match l with
                           | [x] => PrimFloat.eqb x 4.3
                           | _ => false
                           end)) in H.
  vm_compute in H. discriminate H.
Qed.

End DeepAnalysis.

(** ** [executor.py]: the simulated venue and the executor's books *)

Module ExecutorProps.
Import Executor.
#[local] Open Scope float_scope.

(** A [SimulatedClient] in the state [s]. *)
Definition sim_client (s : SimState) : ExchangeClient :=
  {| client_state := SimState; client_now := s; place_order := sim_place_order |}.

(** A call of one of the two methods of the executor. *)
Inductive Call : Type :=
| OpenPosition (clock : Clock) (long_exchange short_exchange symbol base_asset : string)
    (size_usd funding_rate : float)
| ClosePosition (clock : Clock) (pos_id : string).

(** The executor after a call, whether it returned or raised. *)
Definition call (self : ArbExecutor) (c : Call) : ArbExecutor :=
  match c with
  | OpenPosition clock le se symbol base size_usd rate =>
      fst (open_position self clock le se symbol base size_usd rate)
  | ClosePosition clock pos_id => fst (close_position self clock pos_id)
  end.

Definition run (calls : list Call) (self : ArbExecutor) : ArbExecutor :=
  fold_left call calls self.

(** What holds of every [ArbPosition] that the executor has created. *)
Definition position_ok (pos : ArbPosition) : Prop :=
  total_funding_collected pos = 0
  /\ total_pnl pos = 0
  /\ p_side (long_leg pos) = LONG
  /\ p_side (short_leg pos) = SHORT
  /\ (status pos = "open"%string \/ status pos = "closed"%string).

(** The books of the executor: every active id refers to an open position
    that carries this id, and every position is as [position_ok] says. *)
Definition books_ok (self : ArbExecutor) : Prop :=
  (forall pos_id ref, active_positions self !! pos_id = Some ref ->
     exists pos, objects self !! ref = Some pos
                 /\ id pos = pos_id /\ status pos = "open"%string)
  /\ Forall position_ok (objects self).

(** The two calls of [test_executor], and two opens within one second. *)
Definition test_open : Call :=
  OpenPosition test_clock "binance" "bybit" "SOLUSDT" "SOL" 1000 (-0.002).

Definition later_clock : Clock :=
  {| time_f := 1700000000.9; time_s := 1700000000; time_ms := 1700000000900 |}.

Definition sol_long : Order := new_order "binance" "SOLUSDT" LONG 10 MARKET.
Definition sol_short : Order := new_order "binance" "SOLUSDT" SHORT 10 MARKET.

Definition empty_venue : SimState :=
  {| sim_exchange := "binance"; balance := 10000; positions := ∅; orders := [] |}.

Lemma call_sim_client s clock order :
  call_place_order (sim_client s) clock order
  = (sim_client (fst (sim_place_order s clock order)),
     snd (sim_place_order s clock order)).
Proof.
  unfold call_place_order, sim_client; cbn [place_order client_now client_state].
  destruct (sim_place_order s clock order); reflexivity.
Qed.

(** The first order on a symbol opens a position of the order's side and
    size. *)
Lemma sim_place_order_opens self clock order :
  positions self !! o_symbol order = None ->
  exists r fill,
    sim_place_order self clock order
    = ({| sim_exchange := sim_exchange self;
          balance := balance self;
          positions :=
            <[o_symbol order :=
                new_position (sim_exchange self) (o_symbol order) (o_side order)
                  (o_size order) (Some fill) (time_f clock)]> (positions self);
          orders := orders self ++ [r] |},
       inr r)
    /\ filled_size r = o_size order
    /\ fill_price r = Some fill
    /\ o_status r = "filled"%string.
Proof.
  intros Hnone. unfold sim_place_order. rewrite Hnone. cbv zeta.
  cbn [filled_size].
  eexists _, _. split; [reflexivity|]. cbn [filled_size fill_price o_status]. auto.
Qed.

(** An order of the other side that is at least as large as the position
    removes the position; nothing is opened on the other side. *)
Lemma sim_place_order_closes self clock order pos :
  positions self !! o_symbol order = Some pos ->
  p_side pos <> o_side order ->
  PyFloat.geb (o_size order) (p_size pos) = true ->
  exists r,
    sim_place_order self clock order
    = ({| sim_exchange := sim_exchange self;
          balance := balance self;
          positions := delete (o_symbol order) (positions self);
          orders := orders self ++ [r] |},
       inr r)
    /\ filled_size r = o_size order
    /\ o_status r = "filled"%string.
Proof.
  intros Hpos Hside Hge. unfold sim_place_order. rewrite Hpos. cbv zeta.
  cbn [filled_size].
  destruct (decide (p_side pos = o_side order)) as [Heq|_]; [contradiction|].
  rewrite Hge.
  eexists. split; [reflexivity|]. cbn [filled_size o_status]. auto.
Qed.

Lemma geb_refl x : PyFloat.is_nan x = false -> PyFloat.geb x x = true.
Proof. intros H. apply PyFloatNaN.eqb_geb, PyFloat.eqb_refl, H. Qed.

(** An order and its opposite on a venue without a position on the symbol. *)
Lemma sim_place_order_there_and_back (self : SimState) (c1 c2 : Clock) (o1 o2 : Order) :
  positions self !! o_symbol o1 = None ->
  o_symbol o2 = o_symbol o1 ->
  o_side o2 <> o_side o1 ->
  o_size o2 = o_size o1 ->
  PyFloat.is_nan (o_size o1) = false ->
  exists s1 r1 s2 r2 held,
    sim_place_order self c1 o1 = (s1, inr r1)
    /\ sim_place_order s1 c2 o2 = (s2, inr r2)
    /\ positions s1 !! o_symbol o1 = Some held
    /\ p_side held = o_side o1 /\ p_size held = o_size o1
    /\ positions s2 = positions self
    /\ orders s2 = orders self ++ [r1; r2]
    /\ filled_size r1 = o_size o1 /\ filled_size r2 = o_size o2
    /\ balance s2 = balance self.
Proof.
  intros Hnone Hsym Hside Hsize Hnan.
  destruct (sim_place_order_opens self c1 o1 Hnone) as (r1 & fill & H1 & Hf1 & _ & _).
  set (held := new_position (sim_exchange self) (o_symbol o1) (o_side o1)
                 (o_size o1) (Some fill) (time_f c1)) in *.
  set (s1 := {| sim_exchange := sim_exchange self; balance := balance self;
                positions := <[o_symbol o1 := held]> (positions self);
                orders := orders self ++ [r1] |}) in *.
  assert (Hheld : positions s1 !! o_symbol o2 = Some held).
  { rewrite Hsym. apply lookup_insert_eq. }
  destruct (sim_place_order_closes s1 c2 o2 held Hheld) as (r2 & H2 & Hf2 & _).
  { cbn [held new_position p_side]. congruence. }
  { cbn [held new_position p_size]. rewrite Hsize. apply geb_refl, Hnan. }
  eexists s1, r1, _, r2, held.
  split; [exact H1|]. split; [exact H2|].
  split; [rewrite <- Hsym; exact Hheld|].
  split; [reflexivity|]. split; [reflexivity|].
  cbn [positions orders balance s1].
  split; [rewrite Hsym; apply delete_insert_id, Hnone|].
  split; [rewrite <- app_assoc; reflexivity|].
  auto.
Qed.

(** X15.  On a simulated venue that holds no position on a symbol, an order
    followed by an order of the other side, on the same symbol and of the
    same size (a number, not NaN), is a round trip: both orders are filled
    in full and logged in this order, the positions are again what they were
    before, and the balance is never touched. *)
Theorem sim_place_order_round_trip (self : SimState) (c1 c2 : Clock) (o1 o2 : Order) :
  positions self !! o_symbol o1 = None ->
  o_symbol o2 = o_symbol o1 ->
  o_side o2 <> o_side o1 ->
  o_size o2 = o_size o1 ->
  PyFloat.is_nan (o_size o1) = false ->
  exists s1 r1 s2 r2 held,
    sim_place_order self c1 o1 = (s1, inr r1)
    /\ sim_place_order s1 c2 o2 = (s2, inr r2)
    /\ positions s1 !! o_symbol o1 = Some held
    /\ p_side held = o_side o1 /\ p_size held = o_size o1
    /\ positions s2 = positions self
    /\ orders s2 = orders self ++ [r1; r2]
    /\ filled_size r1 = o_size o1 /\ filled_size r2 = o_size o2
    /\ balance s2 = balance self.
Proof.
  intros Hnone Hsym Hside Hsize Hnan.
  exact (sim_place_order_there_and_back self c1 c2 o1 o2 Hnone Hsym Hside Hsize Hnan).
Qed.

Lemma sim_place_order_round_trip_witness :
  exists s1 r1 s2 r2,
    sim_place_order empty_venue test_clock sol_long = (s1, inr r1)
    /\ sim_place_order s1 later_clock sol_short = (s2, inr r2)
    /\ positions s2 = ∅
    /\ orders s2 = [r1; r2].
Proof.
  destruct (sim_place_order_round_trip empty_venue test_clock later_clock
              sol_long sol_short)
    as (s1 & r1 & s2 & r2 & held & H1 & H2 & _ & _ & _ & Hpos & Hord & _).
  - reflexivity.
  - reflexivity.
  - discriminate.
  - reflexivity.
  - vm_compute; reflexivity.
  - exists s1, r1, s2, r2. split; [exact H1|]. split; [exact H2|].
    split; [exact Hpos | exact Hord].
Defined.

(** *** The books *)

Lemma set_status_closed_ok pos : position_ok pos -> position_ok (set_status "closed" pos).
Proof.
  intros (Hf & Hp & Hl & Hs & _). unfold position_ok, set_status; cbn. auto 6.
Qed.

Lemma open_position_books self clock le se symbol base size_usd rate :
  books_ok self ->
  books_ok (fst (open_position self clock le se symbol base size_usd rate)).
Proof.
  intros [Hact Hobj]. unfold open_position.
  destruct (clients self !! le); [|split; assumption].
  destruct (clients self !! se); [|split; assumption].
  destruct (gather_legs _ _ _ _ _ _) as [clients' [err|[long_result short_result]]];
    cbn [fst]; [split; assumption|].
  split; cbn [active_positions objects].
  - intros pos_id ref.
    destruct (decide ("arb_" +:+ pretty (time_s clock) = pos_id)) as [<-|Hne].
    + rewrite lookup_insert_eq. intros [= <-].
      eexists. split; [apply list_lookup_middle; reflexivity|].
      split; reflexivity.
    + rewrite lookup_insert_ne by exact Hne. intros H.
      destruct (Hact pos_id ref H) as (pos & Hpos & Hid & Hst).
      exists pos. split; [apply lookup_app_l_Some; exact Hpos|]. auto.
  - apply Forall_app. split; [exact Hobj|].
    constructor; [|constructor].
    unfold position_ok; cbn. auto 6.
Qed.

Lemma close_position_books self clock pos_id :
  books_ok self -> books_ok (fst (close_position self clock pos_id)).
Proof.
  intros [Hact Hobj]. unfold close_position.
  destruct (active_positions self !! pos_id) as [ref|] eqn:Href; [|split; assumption].
  destruct (objects self !! ref) as [pos|] eqn:Hpos; [|split; assumption].
  destruct (clients self !! p_exchange (long_leg pos)); [|split; assumption].
  destruct (clients self !! p_exchange (short_leg pos)); [|split; assumption].
  destruct (gather_legs _ _ _ _ _ _) as [clients' [err|legs]];
    cbn [fst]; [split; assumption|].
  split; cbn [active_positions objects].
  - intros pos_id' ref' H.
    apply lookup_delete_Some in H as [Hne H].
    destruct (Hact pos_id' ref' H) as (pos' & Hpos' & Hid' & Hst').
    exists pos'. split; [|auto].
    rewrite list_lookup_insert_ne; [exact Hpos'|].
    intros ->. destruct (Hact pos_id ref' Href) as (pos0 & Hpos0 & Hid0 & _).
    congruence.
  - apply Forall_insert; [exact Hobj|].
    apply set_status_closed_ok. exact (Forall_lookup_1 _ _ _ _ Hobj Hpos).
Qed.

Lemma new_executor_books clients : books_ok (new_executor clients).
Proof.
  split; cbn [new_executor active_positions objects].
  - intros pos_id ref H. rewrite lookup_empty in H. discriminate.
  - constructor.
Qed.

Lemma run_books_ok calls : forall self, books_ok self -> books_ok (run calls self).
Proof.
  unfold run. induction calls as [|c calls IH]; intros self Hok; cbn [fold_left].
  - exact Hok.
  - apply IH. destruct c; cbn [call].
    + apply open_position_books; exact Hok.
    + apply close_position_books; exact Hok.
Qed.

(** X16.  After any sequence of [open_position] and [close_position]
    calls on a new executor, whatever the venues do, every id in
    [active_positions] refers to a position that carries this id, has the
    status "open", is long on its long leg and short on its short leg; no
    closed position is ever active. *)
Theorem active_positions_are_open (clients : gmap string ExchangeClient)
  (calls : list Call) (pos_id : string) (ref : nat) :
  active_positions (run calls (new_executor clients)) !! pos_id = Some ref ->
  exists pos,
    objects (run calls (new_executor clients)) !! ref = Some pos
    /\ id pos = pos_id
    /\ status pos = "open"%string
    /\ p_side (long_leg pos) = LONG
    /\ p_side (short_leg pos) = SHORT.
Proof.
  intros H.
  destruct (run_books_ok calls _ (new_executor_books clients)) as [Hact Hobj].
  destruct (Hact pos_id ref H) as (pos & Hpos & Hid & Hst).
  destruct (Forall_lookup_1 _ _ _ _ Hobj Hpos) as (_ & _ & Hl & Hs & _).
  exists pos. auto 6.
Qed.

Lemma active_positions_are_open_witness :
  exists pos,
    objects (run [test_open] (new_executor test_clients)) !! 0%nat = Some pos
    /\ id pos = "arb_1700000000"%string
    /\ status pos = "open"%string
    /\ p_side (long_leg pos) = LONG
    /\ p_side (short_leg pos) = SHORT.
Proof.
  apply (active_positions_are_open test_clients [test_open] "arb_1700000000" 0%nat).
  vm_compute; reflexivity.
Defined.

(** X17.  The executor never books funding or P&L: after any sequence of
    calls on a new executor, a [close_position] that returns reports the id
    it was given, a total funding of 0 and a total P&L of 0. *)
Theorem close_position_reports_zero (clients : gmap string ExchangeClient)
  (calls : list Call) (clock : Clock) (pos_id : string)
  (self' : ArbExecutor) (summary : CloseSummary) :
  close_position (run calls (new_executor clients)) clock pos_id = (self', inr summary) ->
  cs_pos_id summary = pos_id
  /\ cs_total_funding summary = 0
  /\ cs_total_pnl summary = 0.
Proof.
  intros H.
  destruct (run_books_ok calls _ (new_executor_books clients)) as [_ Hobj].
  revert H. generalize (run calls (new_executor clients)) Hobj. clear Hobj.
  intros self Hobj H. unfold close_position in H.
  destruct (active_positions self !! pos_id) as [ref|]; [|discriminate].
  destruct (objects self !! ref) as [pos|] eqn:Hpos; [|discriminate].
  destruct (Executor.clients self !! p_exchange (long_leg pos)); [|discriminate].
  destruct (Executor.clients self !! p_exchange (short_leg pos)); [|discriminate].
  destruct (gather_legs _ _ _ _ _ _) as [clients' [err|legs]]; [discriminate|].
  injection H as _ <-. cbn [cs_pos_id cs_total_funding cs_total_pnl].
  destruct (Forall_lookup_1 _ _ _ _ Hobj Hpos) as (Hf & Hp & _).
  auto.
Qed.

Lemma close_position_reports_zero_witness :
  exists self' summary,
    close_position (run [test_open] (new_executor test_clients)) later_clock
      "arb_1700000000" = (self', inr summary)
    /\ cs_total_funding summary = 0 /\ cs_total_pnl summary = 0.
Proof.
  destruct (close_position (run [test_open] (new_executor test_clients)) later_clock
              "arb_1700000000") as [self' [e|summary]] eqn:H.
  - vm_compute in H. discriminate H.
  - exists self', summary. split; [reflexivity|].
    exact (proj2 (close_position_reports_zero test_clients [test_open] later_clock
                    "arb_1700000000" self' summary H)).
Defined.

(** What a returning [open_position] has done to the books. *)
Lemma open_position_returns self clock le se symbol base size_usd rate self' ref :
  open_position self clock le se symbol base size_usd rate = (self', inr ref) ->
  ref = length (objects self)
  /\ exists pos,
       objects self' = objects self ++ [pos]
       /\ active_positions self'
          = <[("arb_" +:+ pretty (time_s clock))%string := ref]> (active_positions self)
       /\ id pos = ("arb_" +:+ pretty (time_s clock))%string
       /\ status pos = "open"%string.
Proof.
  unfold open_position. intros H.
  destruct (Executor.clients self !! le); [|discriminate].
  destruct (Executor.clients self !! se); [|discriminate].
  destruct (gather_legs _ _ _ _ _ _) as [clients' [err|[long_result short_result]]];
    [discriminate|].
  injection H as <- <-. split; [reflexivity|].
  eexists. cbn [objects active_positions].
  split; [reflexivity|]. split; [reflexivity|]. split; reflexivity.
Qed.

(** X18.  The id of a position is "arb_" and the second of its opening, so
    two positions opened within the same second share their id: the later
    one replaces the earlier one in [active_positions].  The earlier one
    stays "open" but no id refers to it any more, so [close_position] cannot
    reach it. *)
Theorem same_second_opens_collide (self s1 s2 : ArbExecutor) (c1 c2 : Clock)
  (le1 se1 symbol1 base1 le2 se2 symbol2 base2 : string)
  (size1 rate1 size2 rate2 : float) (r1 r2 : nat) :
  well_formed self ->
  open_position self c1 le1 se1 symbol1 base1 size1 rate1 = (s1, inr r1) ->
  open_position s1 c2 le2 se2 symbol2 base2 size2 rate2 = (s2, inr r2) ->
  time_s c1 = time_s c2 ->
  exists p1 p2,
    objects s2 !! r1 = Some p1
    /\ objects s2 !! r2 = Some p2
    /\ r1 <> r2
    /\ id p1 = id p2
    /\ status p1 = "open"%string
    /\ active_positions s2 !! id p1 = Some r2
    /\ (forall pos_id, active_positions s2 !! pos_id <> Some r1).
Proof.
  intros Hwf H1 H2 Hsec.
  apply open_position_returns in H1 as (Hr1 & p1 & Hobj1 & Hact1 & Hid1 & Hst1).
  apply open_position_returns in H2 as (Hr2 & p2 & Hobj2 & Hact2 & Hid2 & Hst2).
  rewrite Hobj1 in Hr2. rewrite length_app in Hr2. cbn [length] in Hr2.
  exists p1, p2.
  split.
  { rewrite Hobj2, Hobj1. apply lookup_app_l_Some.
    rewrite Hr1. apply list_lookup_middle. reflexivity. }
  split.
  { rewrite Hobj2. apply list_lookup_middle. rewrite Hobj1, length_app. exact Hr2. }
  split; [lia|].
  split; [rewrite Hid1, Hid2, Hsec; reflexivity|].
  split; [exact Hst1|].
  split.
  { rewrite Hact2, Hid1, Hsec. apply lookup_insert_eq. }
  intros pos_id Hpos. rewrite Hact2, Hact1, <- Hsec in Hpos.
  destruct (decide (("arb_" +:+ pretty (time_s c1))%string = pos_id)) as [<-|Hne].
  - rewrite lookup_insert_eq in Hpos. injection Hpos as Hpos. lia.
  - rewrite !lookup_insert_ne in Hpos by exact Hne.
    destruct (Hwf pos_id r1 Hpos) as [pos Hlook].
    apply lookup_lt_Some in Hlook. lia.
Qed.

Lemma same_second_opens_collide_witness :
  exists s2 p1 p2,
    s2 = run [test_open;
              OpenPosition later_clock "binance" "bybit" "SOLUSDT" "SOL" 500 (-0.001)]
           (new_executor test_clients)
    /\ objects s2 !! 0%nat = Some p1
    /\ objects s2 !! 1%nat = Some p2
    /\ id p1 = id p2
    /\ status p1 = "open"%string
    /\ active_positions s2 !! id p1 = Some 1%nat.
Proof.
  pose (s1 := run [test_open] (new_executor test_clients)).
  pose (s2 := run [test_open;
                   OpenPosition later_clock "binance" "bybit" "SOLUSDT" "SOL" 500 (-0.001)]
                (new_executor test_clients)).
  destruct (same_second_opens_collide (new_executor test_clients) s1 s2
              test_clock later_clock
              "binance" "bybit" "SOLUSDT" "SOL" "binance" "bybit" "SOLUSDT" "SOL"
              1000 (-0.002) 500 (-0.001) 0%nat 1%nat)
    as (p1 & p2 & H1 & H2 & _ & Hid & Hst & Hact & _).
  - apply new_executor_well_formed.
  - vm_compute; reflexivity.
  - vm_compute; reflexivity.
  - reflexivity.
  - exists s2, p1, p2. split; [reflexivity|]. auto 6.
Defined.

(** X19.  A call of the executor that raises leaves its books as they were:
    a failed [open_position] registers no position, also when one of its
    two orders was filled, and a failed [close_position] leaves every
    position active and with the status it had. *)
Theorem faults_leave_books_unchanged (self self' : ArbExecutor) (c : Call) (e : PyExn) :
  match c with
  | OpenPosition clock le se symbol base size_usd rate =>
      open_position self clock le se symbol base size_usd rate = (self', inl e)
  | ClosePosition clock pos_id =>
      close_position self clock pos_id = (self', inl e)
  end ->
  active_positions self' = active_positions self
  /\ objects self' = objects self.
Proof.
  destruct c as [clock le se symbol base size_usd rate | clock pos_id]; intros H.
  - unfold open_position in H.
    destruct (Executor.clients self !! le); [|injection H as <- _; auto].
    destruct (Executor.clients self !! se); [|injection H as <- _; auto].
    destruct (gather_legs _ _ _ _ _ _) as [clients' [err|[long_result short_result]]];
      [|discriminate].
    injection H as <- _. auto.
  - unfold close_position in H.
    destruct (active_positions self !! pos_id) as [ref|]; [|injection H as <- _; auto].
    destruct (objects self !! ref) as [pos|]; [|injection H as <- _; auto].
    destruct (Executor.clients self !! p_exchange (long_leg pos));
      [|injection H as <- _; auto].
    destruct (Executor.clients self !! p_exchange (short_leg pos));
      [|injection H as <- _; auto].
    destruct (gather_legs _ _ _ _ _ _) as [clients' [err|legs]]; [|discriminate].
    injection H as <- _. auto.
Qed.

Lemma faults_leave_books_unchanged_witness :
  exists self',
    open_position short_fails_executor test_clock
      "binance" "bybit" "SOLUSDT" "SOL" 1000 (-0.002) = (self', inl timeout_error)
    /\ active_positions self' = ∅
    /\ objects self' = [].
Proof.
  destruct (open_position short_fails_executor test_clock
              "binance" "bybit" "SOLUSDT" "SOL" 1000 (-0.002)) as [self' [e|ref]] eqn:H.
  - assert (He : e = timeout_error).
    { apply (f_equal snd) in H. vm_compute in H. injection H as <-. reflexivity. }
    subst e. exists self'. split; [reflexivity|].
    exact (faults_leave_books_unchanged short_fails_executor self'
             (OpenPosition test_clock "binance" "bybit" "SOLUSDT" "SOL" 1000 (-0.002))
             timeout_error H).
  - apply (f_equal snd) in H. vm_compute in H. discriminate H.
Defined.

(** *** Opening and closing on simulated venues *)

(** [open_position] when both venues return. *)
Lemma open_position_both self clock le se symbol base size_usd rate lc sc lr sr :
  let long_order := new_order le symbol LONG (size_usd / 100) MARKET in
  let short_order := new_order se symbol SHORT (size_usd / 100) MARKET in
  Executor.clients self !! le = Some lc ->
  snd (call_place_order lc clock long_order) = inr lr ->
  <[le := fst (call_place_order lc clock long_order)]> (Executor.clients self) !! se
    = Some sc ->
  snd (call_place_order sc clock short_order) = inr sr ->
  open_position self clock le se symbol base size_usd rate
  = ({| clients :=
          <[se := fst (call_place_order sc clock short_order)]>
            (<[le := fst (call_place_order lc clock long_order)]> (Executor.clients self));
        active_positions :=
          <[("arb_" +:+ pretty (time_s clock))%string := length (objects self)]>
            (active_positions self);
        objects :=
          objects self ++
          [ {| id := ("arb_" +:+ pretty (time_s clock))%string;
               long_leg := new_position le symbol LONG (filled_size lr) (fill_price lr)
                             (time_f clock);
               short_leg := new_position se symbol SHORT (filled_size sr) (fill_price sr)
                              (time_f clock);
               base_asset := base;
               entry_time := time_f clock;
               target_funding_rate := rate;
               total_funding_collected := 0;
               total_pnl := 0;
               status := "open" |} ] |},
     inr (length (objects self))).
Proof.
  intros long_order short_order Hl Hlong Hs Hshort.
  destruct (short_client_before _ _ _ _ _ _ Hl Hs) as [sc0 Hs0].
  unfold open_position. rewrite Hl, Hs0.
  fold long_order. fold short_order.
  rewrite (gather_legs_both (Executor.clients self) clock le long_order se short_order
             lc sc Hl Hs).
  rewrite Hlong, Hshort. reflexivity.
Qed.

(** [close_position] when both venues return. *)
Lemma close_position_both self clock pos_id ref pos lc sc lr sr :
  let close_long :=
    new_order (p_exchange (long_leg pos)) (p_symbol (long_leg pos)) SHORT
      (p_size (long_leg pos)) MARKET in
  let close_short :=
    new_order (p_exchange (short_leg pos)) (p_symbol (short_leg pos)) LONG
      (p_size (short_leg pos)) MARKET in
  active_positions self !! pos_id = Some ref ->
  objects self !! ref = Some pos ->
  Executor.clients self !! p_exchange (long_leg pos) = Some lc ->
  snd (call_place_order lc clock close_long) = inr lr ->
  <[p_exchange (long_leg pos) := fst (call_place_order lc clock close_long)]>
    (Executor.clients self) !! p_exchange (short_leg pos) = Some sc ->
  snd (call_place_order sc clock close_short) = inr sr ->
  close_position self clock pos_id
  = ({| clients :=
          <[p_exchange (short_leg pos) := fst (call_place_order sc clock close_short)]>
            (<[p_exchange (long_leg pos) := fst (call_place_order lc clock close_long)]>
               (Executor.clients self));
        active_positions := delete pos_id (active_positions self);
        objects := <[ref := set_status "closed" pos]> (objects self) |},
     inr {| cs_pos_id := pos_id;
            cs_total_funding := total_funding_collected pos;
            cs_total_pnl := total_pnl pos |}).
Proof.
  intros close_long close_short Hact Hobj Hl Hlong Hs Hshort.
  destruct (short_client_before _ _ _ _ _ _ Hl Hs) as [sc0 Hs0].
  unfold close_position. rewrite Hact, Hobj, Hl, Hs0.
  fold close_long. fold close_short.
  rewrite (gather_legs_both (Executor.clients self) clock _ close_long _ close_short
             lc sc Hl Hs).
  rewrite Hlong, Hshort. reflexivity.
Qed.

(** One leg of a round trip on a simulated venue: the opening order and the
    closing order of the executor, as [call_place_order] runs them. *)
Lemma sim_client_leg_round_trip (s : SimState) (c1 c2 : Clock)
  (exchange symbol : string) (side : Side) (size : float) :
  positions s !! symbol = None ->
  PyFloat.is_nan size = false ->
  let open_order := new_order exchange symbol side size MARKET in
  exists s1 r1 s2 r2,
    call_place_order (sim_client s) c1 open_order = (sim_client s1, inr r1)
    /\ filled_size r1 = size
    /\ (forall other,
          side <> other ->
          call_place_order (sim_client s1) c2
            (new_order exchange symbol other (filled_size r1) MARKET)
          = (sim_client s2, inr r2))
    /\ positions s2 = positions s
    /\ orders s2 = orders s ++ [r1; r2].
Proof.
  intros Hnone Hnan open_order.
  destruct (sim_place_order_there_and_back s c1 c2 open_order
              (new_order exchange symbol
                 (match side with LONG => SHORT | SHORT => LONG end) size MARKET))
    as (s1 & r1 & s2 & r2 & held & H1 & H2 & _ & _ & _ & Hpos & Hord & Hf1 & _).
  - exact Hnone.
  - reflexivity.
  - cbn [open_order new_order o_side]. destruct side; discriminate.
  - reflexivity.
  - exact Hnan.
  - exists s1, r1, s2, r2.
    split; [rewrite call_sim_client, H1; reflexivity|].
    split; [exact Hf1|].
    split; [|split; assumption].
    intros other Hother. rewrite call_sim_client.
    cbn [open_order new_order o_size] in Hf1. rewrite Hf1.
    replace other with (match side with LONG => SHORT | SHORT => LONG end)
      by (destruct side, other; congruence).
    rewrite H2. reflexivity.
Qed.

(** X20.  On two different simulated venues that hold no position on the
    symbol, [open_position] followed by [close_position] of the id it
    assigned is a round trip, for every size that is a number: both calls
    return, the summary reports no funding and no P&L, the position ends
    "closed" and inactive, and each venue has filled two orders and holds
    the positions it held before. *)
Theorem open_close_round_trip (self : ArbExecutor) (c1 c2 : Clock)
  (le se symbol base : string) (size_usd rate : float) (sl ss : SimState) :
  le <> se ->
  Executor.clients self !! le = Some (sim_client sl) ->
  Executor.clients self !! se = Some (sim_client ss) ->
  positions sl !! symbol = None ->
  positions ss !! symbol = None ->
  PyFloat.is_nan (size_usd / 100) = false ->
  let pos_id := ("arb_" +:+ pretty (time_s c1))%string in
  exists s1 ref s2 sl' ss' pos,
    open_position self c1 le se symbol base size_usd rate = (s1, inr ref)
    /\ close_position s1 c2 pos_id
       = (s2, inr {| cs_pos_id := pos_id; cs_total_funding := 0; cs_total_pnl := 0 |})
    /\ active_positions s2 !! pos_id = None
    /\ objects s2 !! ref = Some pos
    /\ status pos = "closed"%string
    /\ Executor.clients s2 !! le = Some (sim_client sl')
    /\ positions sl' = positions sl
    /\ length (orders sl') = (length (orders sl) + 2)%nat
    /\ Executor.clients s2 !! se = Some (sim_client ss')
    /\ positions ss' = positions ss
    /\ length (orders ss') = (length (orders ss) + 2)%nat.
Proof.
  intros Hne Hl Hs Hnl Hns Hnan pos_id.
  destruct (sim_client_leg_round_trip sl c1 c2 le symbol LONG (size_usd / 100) Hnl Hnan)
    as (sl1 & lr & sl2 & lr2 & Hlo & Hlf & Hlc & Hlpos & Hlord).
  destruct (sim_client_leg_round_trip ss c1 c2 se symbol SHORT (size_usd / 100) Hns Hnan)
    as (ss1 & sr & ss2 & sr2 & Hso & Hsf & Hsc & Hspos & Hsord).
  specialize (Hlc SHORT ltac:(discriminate)).
  specialize (Hsc LONG ltac:(discriminate)).
  pose proof (open_position_both self c1 le se symbol base size_usd rate
                (sim_client sl) (sim_client ss) lr sr) as Hopen.
  cbv zeta in Hopen. rewrite Hlo, Hso in Hopen. cbn [fst snd] in Hopen.
  rewrite lookup_insert_ne in Hopen by exact Hne.
  specialize (Hopen Hl eq_refl Hs eq_refl).
  set (arb_pos := {| id := pos_id;
                     long_leg := new_position le symbol LONG (filled_size lr)
                                   (fill_price lr) (time_f c1);
                     short_leg := new_position se symbol SHORT (filled_size sr)
                                    (fill_price sr) (time_f c1);
                     base_asset := base;
                     entry_time := time_f c1;
                     target_funding_rate := rate;
                     total_funding_collected := 0;
                     total_pnl := 0;
                     status := "open" |}) in *.
  set (s1 := {| clients := <[se := sim_client ss1]>
                             (<[le := sim_client sl1]> (Executor.clients self));
                active_positions := <[pos_id := length (objects self)]>
                                      (active_positions self);
                objects := objects self ++ [arb_pos] |}) in *.
  pose proof (close_position_both s1 c2 pos_id (length (objects self)) arb_pos
                (sim_client sl1) (sim_client ss1) lr2 sr2) as Hclose.
  cbv zeta in Hclose.
  cbn [arb_pos long_leg short_leg new_position p_exchange p_symbol p_size] in Hclose.
  rewrite Hlc, Hsc in Hclose. cbn [fst snd] in Hclose.
  assert (Hcl : Executor.clients s1 !! le = Some (sim_client sl1)).
  { cbn [s1 Executor.clients]. rewrite lookup_insert_ne by congruence.
    apply lookup_insert_eq. }
  assert (Hcs : <[le := sim_client sl2]> (Executor.clients s1) !! se
                = Some (sim_client ss1)).
  { rewrite lookup_insert_ne by exact Hne. cbn [s1 Executor.clients].
    apply lookup_insert_eq. }
  specialize (Hclose ltac:(apply lookup_insert_eq)
                     ltac:(apply list_lookup_middle; reflexivity)
                     Hcl eq_refl Hcs eq_refl).
  eexists s1, _, _, sl2, ss2, (set_status "closed" arb_pos).
  split; [exact Hopen|]. split; [exact Hclose|].
  cbn [active_positions objects Executor.clients].
  split; [apply lookup_delete_eq|].
  split.
  { apply list_lookup_insert_eq. cbn [s1 objects]. rewrite length_app. cbn [length]. lia. }
  split; [reflexivity|].
  split.
  { rewrite lookup_insert_ne by congruence. apply lookup_insert_eq. }
  split; [exact Hlpos|].
  split; [rewrite Hlord, length_app; reflexivity|].
  split; [apply lookup_insert_eq|].
  split; [exact Hspos|].
  rewrite Hsord, length_app; reflexivity.
Qed.

Lemma open_close_round_trip_witness :
  exists s1 s2,
    open_position (new_executor test_clients) test_clock
      "binance" "bybit" "SOLUSDT" "SOL" 1000 (-0.002) = (s1, inr 0%nat)
    /\ close_position s1 later_clock "arb_1700000000"
       = (s2, inr {| cs_pos_id := "arb_1700000000";
                     cs_total_funding := 0; cs_total_pnl := 0 |})
    /\ active_positions s2 !! "arb_1700000000"%string = None.
Proof.
  destruct (open_close_round_trip (new_executor test_clients) test_clock later_clock
              "binance" "bybit" "SOLUSDT" "SOL" 1000 (-0.002)
              {| sim_exchange := "binance"; balance := 10000;
                 positions := ∅; orders := [] |}
              {| sim_exchange := "bybit"; balance := 10000;
                 positions := ∅; orders := [] |})
    as (s1 & ref & s2 & sl' & ss' & pos & Hopen & Hclose & Hact & _).
  - discriminate.
  - vm_compute; reflexivity.
  - vm_compute; reflexivity.
  - reflexivity.
  - reflexivity.
  - vm_compute; reflexivity.
  - assert (Href : ref = 0%nat).
    { apply open_position_returns in Hopen as [-> _]. reflexivity. }
    subst ref. exists s1, s2. split; [exact Hopen|]. split; [exact Hclose | exact Hact].
Defined.

End ExecutorProps.
